(** * A shallow embedding of the calculator of [main.py]

    The program is a Tk calculator whose display is a [StringVar]; a write
    trace on the display watches for the text 69÷69 and then asks for a
    password before revealing a hidden folder.  This development models

    - the Python values the program manipulates (strings as sequences of
      code points, unbounded integers, binary64 floats),
    - the library functions it calls ([re.match] on its one pattern,
      [str.replace], [str.strip], [in], [hashlib.sha256], [eval], [round],
      [str]),
    - the program's own functions, one definition per source function,

    and then states and proves what the specification says about them.

    What the model takes from the environment:

    - [eval] is modelled on expressions written with the ASCII digits and
      [+ - * / ( ) .], up to 64 operator characters, with Python's
      tokens, grammar and arithmetic; what the interpreter answers on any
      other input, and on the operations whose result the language leaves
      to the C library or the platform, comes from a [Runtime] record, as
      do the decimal digits beyond ASCII and the digit limit of
      [str(int)].  Theorems hold for every runtime.
    - Exhaustion of memory or of the recursion limits is not modelled.
    - The file system is seen through the secret folder and its password
      file, and whether creating the one, writing the other and reading
      it back succeed.
    - Message boxes are recorded in the order they are shown.  Of the
      widgets, the canvas of the calculator is modelled with its items,
      their tags, coordinates and display order, and the colours of the
      keys and of the two gradients; an event carries the size the window
      has when its handler runs.  Fonts, cursors and the layout of the
      frames are left out. *)

From Stdlib Require Import String Ascii.
From Stdlib Require Import ZArith List Bool Lia SpecFloat.
From Stdlib Require Decimal DecimalZ DecimalPos DecimalFacts.
From Stdlib Require Hexadecimal HexadecimalPos.
Import ListNotations.
Open Scope Z_scope.

(* ===================================================================== *)
(** * Python strings *)
(* ===================================================================== *)

(** A Python [str] is a sequence of Unicode code points. *)
Definition char := Z.
Definition pystr := list char.

Module Utf8.

Definition byte_of_ascii (a : ascii) : Z := Z.of_N (N_of_ascii a).

Fixpoint bytes_of_string (s : string) : list Z :=
  match s with
  | EmptyString => []
  | String a r => byte_of_ascii a :: bytes_of_string r
  end.

(** Decoder used for the literals of this file (well-formed input). *)
Fixpoint decode (bs : list Z) : pystr :=
  match bs with
  | [] => []
  | b0 :: r0 =>
      if b0 <? 128 then b0 :: decode r0
      else if b0 <? 224 then
        match r0 with
        | b1 :: r1 => ((b0 - 192) * 64 + (b1 - 128)) :: decode r1
        | [] => []
        end
      else if b0 <? 240 then
        match r0 with
        | b1 :: b2 :: r2 =>
            ((b0 - 224) * 4096 + (b1 - 128) * 64 + (b2 - 128)) :: decode r2
        | _ => []
        end
      else
        match r0 with
        | b1 :: b2 :: b3 :: r3 =>
            ((b0 - 240) * 262144 + (b1 - 128) * 4096 + (b2 - 128) * 64
             + (b3 - 128)) :: decode r3
        | _ => []
        end
  end.

(** [str.encode()]: the UTF-8 bytes of one code point.  Surrogates and
    values that are no code points cannot be encoded
    ([UnicodeEncodeError]). *)
Definition encode_char (c : char) : option (list Z) :=
  if c <? 0 then None
  else if c <? 128 then Some [c]
  else if c <? 2048 then Some [192 + c / 64; 128 + c mod 64]
  else if (55296 <=? c) && (c <=? 57343) then None
  else if c <? 65536 then
    Some [224 + c / 4096; 128 + (c / 64) mod 64; 128 + c mod 64]
  else if c <? 1114112 then
    Some [240 + c / 262144; 128 + (c / 4096) mod 64;
          128 + (c / 64) mod 64; 128 + c mod 64]
  else None.

Fixpoint encode (s : pystr) : option (list Z) :=
  match s with
  | [] => Some []
  | c :: r =>
      match encode_char c, encode r with
      | Some bs, Some rest => Some (bs ++ rest)
      | _, _ => None
      end
  end.

End Utf8.

(** The literal [s] of the source, as a Python string. *)
Definition py (s : string) : pystr := Utf8.decode (Utf8.bytes_of_string s).

Definition MULTIPLICATION_SIGN : char := 215.   (* × U+00D7 *)
Definition DIVISION_SIGN : char := 247.         (* ÷ U+00F7 *)

(** [a == b] on strings. *)
Fixpoint str_eqb (a b : pystr) : bool :=
  match a, b with
  | [], [] => true
  | x :: a', y :: b' => (x =? y) && str_eqb a' b'
  | _, _ => false
  end.

(** [str.isspace] on one character; also the class [\s] of a [str]
    pattern and the characters removed by [str.strip()]. *)
Definition is_space (c : char) : bool :=
  ((9 <=? c) && (c <=? 13)) || ((28 <=? c) && (c <=? 32))
  || (c =? 133) || (c =? 160) || (c =? 5760)
  || ((8192 <=? c) && (c <=? 8202))
  || (c =? 8232) || (c =? 8233) || (c =? 8239) || (c =? 8287)
  || (c =? 12288).

Fixpoint lstrip (s : pystr) : pystr :=
  match s with
  | c :: r => if is_space c then lstrip r else s
  | [] => []
  end.

(** [s.strip()] *)
Definition strip (s : pystr) : pystr := rev (lstrip (rev (lstrip s))).

Fixpoint is_prefix (p s : pystr) : bool :=
  match p, s with
  | [], _ => true
  | a :: p', b :: s' => (a =? b) && is_prefix p' s'
  | _ :: _, [] => false
  end.

(** [sub in s]: [sub] occurs in [s] as a contiguous substring. *)
Fixpoint contains (s sub : pystr) : bool :=
  is_prefix sub s ||
  match s with
  | [] => false
  | _ :: r => contains r sub
  end.

(** [s.replace(old, new)] for a pattern [old] of one character, the only
    use the program makes of it. *)
Fixpoint replace (old : char) (new : pystr) (s : pystr) : pystr :=
  match s with
  | [] => []
  | c :: r => (if c =? old then new else [c]) ++ replace old new r
  end.

(* ===================================================================== *)
(** * [hashlib.sha256]: SHA-256 over bytes (FIPS 180-4) *)
(* ===================================================================== *)

Module Sha256.

(** 32-bit words are integers in [0, 2^32); sums wrap around. *)
Definition wrap (x : Z) : Z := x mod 4294967296.
Definition add32 (x y : Z) : Z := wrap (x + y).
Definition rotr (n x : Z) : Z :=
  Z.lor (Z.shiftr x n) (wrap (Z.shiftl x (32 - n))).
Definition not32 (x : Z) : Z := Z.lxor x 4294967295.

Definition Ch (x y z : Z) : Z := Z.lxor (Z.land x y) (Z.land (not32 x) z).
Definition Maj (x y z : Z) : Z :=
  Z.lxor (Z.lxor (Z.land x y) (Z.land x z)) (Z.land y z).
Definition Sum0 (x : Z) : Z := Z.lxor (Z.lxor (rotr 2 x) (rotr 13 x)) (rotr 22 x).
Definition Sum1 (x : Z) : Z := Z.lxor (Z.lxor (rotr 6 x) (rotr 11 x)) (rotr 25 x).
Definition sig0 (x : Z) : Z := Z.lxor (Z.lxor (rotr 7 x) (rotr 18 x)) (Z.shiftr x 3).
Definition sig1 (x : Z) : Z := Z.lxor (Z.lxor (rotr 17 x) (rotr 19 x)) (Z.shiftr x 10).

Definition K : list Z :=
  [1116352408; 1899447441; 3049323471; 3921009573; 961987163; 1508970993;
   2453635748; 2870763221; 3624381080; 310598401; 607225278; 1426881987;
   1925078388; 2162078206; 2614888103; 3248222580; 3835390401; 4022224774;
   264347078; 604807628; 770255983; 1249150122; 1555081692; 1996064986;
   2554220882; 2821834349; 2952996808; 3210313671; 3336571891; 3584528711;
   113926993; 338241895; 666307205; 773529912; 1294757372; 1396182291;
   1695183700; 1986661051; 2177026350; 2456956037; 2730485921; 2820302411;
   3259730800; 3345764771; 3516065817; 3600352804; 4094571909; 275423344;
   430227734; 506948616; 659060556; 883997877; 958139571; 1322822218;
   1537002063; 1747873779; 1955562222; 2024104815; 2227730452; 2361852424;
   2428436474; 2756734187; 3204031479; 3329325298].

Definition H0 : list Z :=
  [1779033703; 3144134277; 1013904242; 2773480762;
   1359893119; 2600822924; 528734635; 1541459225].

(** Padding: a 1 bit, zeros up to 56 mod 64 bytes, the bit length on 64
    bits, big-endian. *)
Definition be_bytes (n : nat) (x : Z) : list Z :=
  map (fun i => (Z.shiftr x (8 * Z.of_nat i)) mod 256) (rev (seq 0 n)).

Definition pad (msg : list Z) : list Z :=
  let len := Z.of_nat (length msg) in
  let zeros := Z.to_nat ((55 - len) mod 64) in
  msg ++ [128] ++ repeat 0 zeros ++ be_bytes 8 (8 * len).

Fixpoint words_of_bytes (bs : list Z) : list Z :=
  match bs with
  | a :: b :: c :: d :: r =>
      (a * 16777216 + b * 65536 + c * 256 + d) :: words_of_bytes r
  | _ => []
  end.

(** The message schedule, most recent word first: from the 16 words of a
    block, [n] more. *)
Fixpoint schedule (n : nat) (recent : list Z) : list Z :=
  match n with
  | O => recent
  | S n' =>
      let w := add32 (add32 (sig1 (nth 1 recent 0)) (nth 6 recent 0))
                     (add32 (sig0 (nth 14 recent 0)) (nth 15 recent 0)) in
      schedule n' (w :: recent)
  end.

Record regs := Regs { ra : Z; rb : Z; rc : Z; rd : Z;
                      re : Z; rf : Z; rg : Z; rh : Z }.

Definition round (r : regs) (kw : Z * Z) : regs :=
  let '(k, w) := kw in
  let t1 := add32 (add32 (add32 (rh r) (Sum1 (re r)))
                         (add32 (Ch (re r) (rf r) (rg r)) k)) w in
  let t2 := add32 (Sum0 (ra r)) (Maj (ra r) (rb r) (rc r)) in
  Regs (add32 t1 t2) (ra r) (rb r) (rc r) (add32 (rd r) t1) (re r) (rf r) (rg r).

Definition regs_of (h : list Z) : regs :=
  Regs (nth 0 h 0) (nth 1 h 0) (nth 2 h 0) (nth 3 h 0)
       (nth 4 h 0) (nth 5 h 0) (nth 6 h 0) (nth 7 h 0).

Definition list_of (r : regs) : list Z :=
  [ra r; rb r; rc r; rd r; re r; rf r; rg r; rh r].

Definition compress (h : list Z) (block : list Z) : list Z :=
  let w := rev (schedule 48 (rev block)) in
  let r := fold_left round (combine K w) (regs_of h) in
  map (fun p => add32 (fst p) (snd p)) (combine h (list_of r)).

(** The blocks of 16 words each, [n] of them. *)
Fixpoint digest_blocks (n : nat) (h ws : list Z) : list Z :=
  match n with
  | O => h
  | S n' => digest_blocks n' (compress h (firstn 16 ws)) (skipn 16 ws)
  end.

Definition digest (msg : list Z) : list Z :=
  let ws := words_of_bytes (pad msg) in
  digest_blocks (length ws / 16) H0 ws.

Definition hex_digit (d : Z) : char := if d <? 10 then 48 + d else 87 + d.

Definition hex_word (w : Z) : pystr :=
  map (fun i => hex_digit ((Z.shiftr w (4 * Z.of_nat i)) mod 16)) (rev (seq 0 8)).

(** [hashlib.sha256(bytes).hexdigest()] *)
Definition hexdigest (msg : list Z) : pystr := flat_map hex_word (digest msg).

End Sha256.

(* ===================================================================== *)
(** * Python numbers: [int] and [float] *)
(* ===================================================================== *)

Definition is_ascii_digit (c : char) : bool := (48 <=? c) && (c <=? 57).

Module PyInt.

Fixpoint chars_of_uint (d : Decimal.uint) : pystr :=
  match d with
  | Decimal.Nil => []
  | Decimal.D0 r => 48 :: chars_of_uint r
  | Decimal.D1 r => 49 :: chars_of_uint r
  | Decimal.D2 r => 50 :: chars_of_uint r
  | Decimal.D3 r => 51 :: chars_of_uint r
  | Decimal.D4 r => 52 :: chars_of_uint r
  | Decimal.D5 r => 53 :: chars_of_uint r
  | Decimal.D6 r => 54 :: chars_of_uint r
  | Decimal.D7 r => 55 :: chars_of_uint r
  | Decimal.D8 r => 56 :: chars_of_uint r
  | Decimal.D9 r => 57 :: chars_of_uint r
  end.

(** The decimal digits of a positive number, most significant first. *)
Definition digits (p : positive) : pystr := chars_of_uint (Pos.to_uint p).

(** The decimal text of an integer, as [str(int)] prints it when no
    digit limit applies. *)
Definition to_str (z : Z) : pystr :=
  match z with
  | Z0 => [48]
  | Zpos p => digits p
  | Zneg p => 45 :: digits p
  end.

Definition ndigits (z : Z) : Z :=
  match z with
  | Z0 => 1
  | Zpos p | Zneg p => Z.of_nat (length (digits p))
  end.

(** The value of a run of ASCII digits. *)
Definition of_digits (ds : pystr) : Z :=
  fold_left (fun acc c => acc * 10 + (c - 48)) ds 0.

End PyInt.

(** Python floats are IEEE 754 binary64 numbers, rounded to nearest, ties
    to even. *)
Module PyFloat.

Definition prec : Z := 53.
Definition emax : Z := 1024.

Definition add := SFadd prec emax.
Definition sub := SFsub prec emax.
Definition mul := SFmul prec emax.
Definition div := SFdiv prec emax.
Definition neg := SFopp.

Definition is_zero (f : spec_float) : bool :=
  match f with S754_zero _ => true | _ => false end.

Definition is_inf (f : spec_float) : bool :=
  match f with S754_infinity _ => true | _ => false end.

Definition same (a b : spec_float) : bool :=
  match a, b with
  | S754_zero s, S754_zero t => Bool.eqb s t
  | S754_infinity s, S754_infinity t => Bool.eqb s t
  | S754_nan, S754_nan => true
  | S754_finite s m e, S754_finite t n f =>
      Bool.eqb s t && (m =? n)%positive && (e =? f)
  | _, _ => false
  end.

(** The float nearest to the fraction [n/d], with sign [s]. *)
Definition of_ratio (s : bool) (n d : positive) : spec_float :=
  let '(m, e, l) := SFdiv_core_binary prec emax (Zpos n) 0 (Zpos d) 0 in
  binary_round_aux prec emax s m e l.

(** The float nearest to an integer (possibly an infinity). *)
Definition of_int (z : Z) : spec_float := binary_normalize prec emax z 0 false.

(** The exact value of a finite non-zero float as a fraction. *)
Definition ratio (m : positive) (e : Z) : positive * positive :=
  match e with
  | Z0 => (m, 1%positive)
  | Zpos k => (m * 2 ^ k, 1)%positive
  | Zneg k => (m, 2 ^ k)%positive
  end.

(** [float.is_integer] *)
Definition is_integer (f : spec_float) : bool :=
  match f with
  | S754_zero _ => true
  | S754_finite _ m e =>
      let '(n, d) := ratio m e in (Zpos n mod Zpos d =? 0)
  | _ => false
  end.

(** [int(f)] for a finite float: truncation towards zero. *)
Definition to_int (f : spec_float) : Z :=
  match f with
  | S754_finite s m e =>
      let '(n, d) := ratio m e in
      if s then - (Zpos n / Zpos d) else Zpos n / Zpos d
  | _ => 0
  end.

(** ** [round(f, 10)]

    The decimal expansion of [f] is cut after 10 places, ties to even,
    and the float nearest to that decimal is returned; infinities, NaN
    and zeros round to themselves. *)
Definition half_even (n d : Z) : Z :=
  let '(q, r) := Z.div_eucl n d in
  match 2 * r ?= d with
  | Lt => q
  | Gt => q + 1
  | Eq => if Z.even q then q else q + 1
  end.

Definition round10 (f : spec_float) : spec_float :=
  match f with
  | S754_finite s m e =>
      let '(n, d) := ratio m e in
      match half_even (Zpos n * 10 ^ 10) (Zpos d) with
      | Zpos q => of_ratio s q (10 ^ 10)%positive
      | _ => S754_zero s
      end
  | _ => f
  end.

(** ** [repr(f)] (and [str(f)]): the shortest decimal that reads back
    as [f], the nearest one if several have that length. *)

(** The decimal exponent [k] of [n/d]: [10^(k-1) <= n/d < 10^k]. *)
Definition decimal_exponent (n d : positive) : Z :=
  let k0 := PyInt.ndigits (Zpos n) - PyInt.ndigits (Zpos d) in
  let ge := if 0 <=? k0 then (Zpos d * 10 ^ k0 <=? Zpos n)
            else (Zpos d <=? Zpos n * 10 ^ (- k0)) in
  if ge then k0 + 1 else k0.

(** [n/d * 10^s] as quotient, remainder and divisor. *)
Definition scaled (n d : positive) (s : Z) : Z * Z * Z :=
  if 0 <=? s then
    let '(q, r) := Z.div_eucl (Zpos n * 10 ^ s) (Zpos d) in (q, r, Zpos d)
  else
    let den := Zpos d * 10 ^ (- s) in
    let '(q, r) := Z.div_eucl (Zpos n) den in (q, r, den).

(** The float nearest to [q * 10^(-s)]. *)
Definition of_decimal (q : Z) (s : Z) : spec_float :=
  match q with
  | Zpos p =>
      if 0 <=? s then of_ratio false p (Z.to_pos (10 ^ s))
      else of_ratio false (p * Z.to_pos (10 ^ (- s))) 1
  | _ => S754_zero false
  end.

(** With [i] significant digits: the decimal below and the decimal above
    [n/d]; the one that reads back as the float, if any. *)
Definition candidate (m : positive) (e : Z) (k : Z) (i : Z) : option Z :=
  let '(n, d) := ratio m e in
  let s := i - k in
  let '(q, r, den) := scaled n d s in
  let f := S754_finite false m e in
  if r =? 0 then Some q
  else
    let lo := same (of_decimal q s) f in
    let hi := same (of_decimal (q + 1) s) f in
    match lo, hi with
    | true, true =>
        match 2 * r ?= den with
        | Lt => Some q
        | Gt => Some (q + 1)
        | Eq => Some (if Z.even q then q else q + 1)
        end
    | true, false => Some q
    | false, true => Some (q + 1)
    | false, false => None
    end.

Fixpoint first_candidate (m : positive) (e : Z) (k : Z) (lens : list Z)
  : Z * Z :=
  match lens with
  | [] => (fst (fst (let '(n, d) := ratio m e in scaled n d (17 - k))), 17)
  | i :: r =>
      match candidate m e k i with
      | Some q => (q, i)
      | None => first_candidate m e k r
      end
  end.

Fixpoint strip_zeros_rev (ds : pystr) : pystr :=
  match ds with
  | c :: r => if c =? 48 then strip_zeros_rev r else ds
  | [] => []
  end.

(** The significant digits of [f] (no trailing zero) and the position of
    the decimal point: [f = 0.d1d2...dn * 10^decpt]. *)
Definition shortest_digits (m : positive) (e : Z) : pystr * Z :=
  let '(n, d) := ratio m e in
  let k := decimal_exponent n d in
  let '(q, i) :=
    first_candidate m e k [1;2;3;4;5;6;7;8;9;10;11;12;13;14;15;16;17] in
  let ds := PyInt.to_str q in
  (rev (strip_zeros_rev (rev ds)), Z.of_nat (length ds) + (k - i)).

Definition zeros (n : Z) : pystr := repeat 48 (Z.to_nat n).

Definition format_repr (ds : pystr) (decpt : Z) : pystr :=
  let n := Z.of_nat (length ds) in
  if (decpt <=? -4) || (16 <? decpt) then
    let x := decpt - 1 in
    let mant := match ds with
                | [d] => [d]
                | d :: r => d :: 46 :: r
                | [] => []
                end in
    let xs := PyInt.to_str (Z.abs x) in
    mant ++ [101] ++ [if x <? 0 then 45 else 43]
         ++ (if Z.abs x <? 10 then [48] else []) ++ xs
  else if decpt <=? 0 then
    [48; 46] ++ zeros (- decpt) ++ ds
  else if n <=? decpt then
    ds ++ zeros (decpt - n) ++ [46; 48]
  else
    firstn (Z.to_nat decpt) ds ++ [46] ++ skipn (Z.to_nat decpt) ds.

Definition sign_prefix (s : bool) : pystr := if s then [45] else [].

Definition repr (f : spec_float) : pystr :=
  match f with
  | S754_zero s => sign_prefix s ++ py "0.0"
  | S754_infinity s => sign_prefix s ++ py "inf"
  | S754_nan => py "nan"
  | S754_finite s m e =>
      let '(ds, decpt) := shortest_digits m e in
      sign_prefix s ++ format_repr ds decpt
  end.

End PyFloat.

(* ===================================================================== *)
(** * Python values, exceptions and the expression language *)
(* ===================================================================== *)

(** The objects an expression over the calculator's characters can denote.
    [VForeign] stands for any other object, known by its [str()] only. *)
Inductive value :=
| VInt (z : Z)
| VFloat (f : spec_float)
| VTuple                       (* the empty tuple [()] *)
| VEllipsis                    (* the object [Ellipsis], written [...] *)
| VForeign (text : pystr).

Inductive exn :=
| ZeroDivisionError
| SyntaxError
| TypeError
| OverflowError
| ValueError
| OtherException.

Inductive outcome :=
| Val (v : value)
| Raise (e : exn).

(** What the interpreter brings that the program text does not fix. *)
Record Runtime := {
  (** [Py_UNICODE_ISDECIMAL] beyond ASCII: the other characters of the
      class [\d], as the interpreter's Unicode tables have them. *)
  unicode_decimal : char -> bool;
  (** [sys.get_int_max_str_digits()]: 4300 by default, 0 for no limit. *)
  int_max_str_digits : Z;
  (** [eval] on the inputs [Eval.model] below does not cover. *)
  foreign_eval : pystr -> outcome
}.

Definition over_digit_limit (limit n : Z) : bool := (0 <? limit) && (limit <? n).

Module Eval.

(** ** Tokens *)

Inductive token :=
| TInt (z : Z)
| TFloat (f : spec_float)
| TError                          (* a tokenizer error *)
| TEllipsis
| TDot
| TPlus | TMinus | TStar | TSlash | TDoubleStar | TDoubleSlash
| TLParen | TRParen.

(** What the tokenizer has read of the token in progress. *)
Inductive pending :=
| PNone
| PInt (ds : pystr)               (* digits of an integer part *)
| PFrac (ip fp : pystr)           (* integer part, point, fraction *)
| PDot                            (* one [.] *)
| PDotDot                         (* two *)
| PStar
| PSlash.

Definition all_zero (ds : pystr) : bool := forallb (fun c => c =? 48) ds.

(** A decimal integer literal: zeros only, or no leading zero, and not
    longer than the digit limit. *)
Definition int_token (limit : Z) (ds : pystr) : token :=
  if all_zero ds then TInt 0
  else match ds with
       | 48 :: _ => TError
       | _ => if over_digit_limit limit (Z.of_nat (length ds)) then TError
              else TInt (PyInt.of_digits ds)
       end.

(** A literal with a point: the float nearest to its decimal value. *)
Definition float_token (ip fp : pystr) : token :=
  match PyInt.of_digits (ip ++ fp) with
  | Zpos n => TFloat (PyFloat.of_ratio false n (Z.to_pos (10 ^ Z.of_nat (length fp))))
  | _ => TFloat (S754_zero false)
  end.

Definition flush (limit : Z) (p : pending) : list token :=
  match p with
  | PNone => []
  | PInt ds => [int_token limit ds]
  | PFrac ip fp => [float_token ip fp]
  | PDot => [TDot]
  | PDotDot => [TDot; TDot]
  | PStar => [TStar]
  | PSlash => [TSlash]
  end.

(** A character read with no token in progress. *)
Definition start (c : char) : list token * pending :=
  if is_ascii_digit c then ([], PInt [c])
  else if c =? 46 then ([], PDot)
  else if c =? 42 then ([], PStar)
  else if c =? 47 then ([], PSlash)
  else if c =? 43 then ([TPlus], PNone)
  else if c =? 45 then ([TMinus], PNone)
  else if c =? 40 then ([TLParen], PNone)
  else if c =? 41 then ([TRParen], PNone)
  else ([TError], PNone).

Definition after (toks : list token) (c : char) : list token * pending :=
  let '(ts, p) := start c in (toks ++ ts, p).

Definition step (limit : Z) (p : pending) (c : char) : list token * pending :=
  match p with
  | PNone => start c
  | PInt ds =>
      if is_ascii_digit c then ([], PInt (ds ++ [c]))
      else if c =? 46 then ([], PFrac ds [])
      else after [int_token limit ds] c
  | PFrac ip fp =>
      if is_ascii_digit c then ([], PFrac ip (fp ++ [c]))
      else after [float_token ip fp] c
  | PDot =>
      if is_ascii_digit c then ([], PFrac [] [c])
      else if c =? 46 then ([], PDotDot)
      else after [TDot] c
  | PDotDot =>
      if c =? 46 then ([TEllipsis], PNone)
      else if is_ascii_digit c then ([TDot], PFrac [] [c])
      else after [TDot; TDot] c
  | PStar =>
      if c =? 42 then ([TDoubleStar], PNone) else after [TStar] c
  | PSlash =>
      if c =? 47 then ([TDoubleSlash], PNone) else after [TSlash] c
  end.

Fixpoint lex_from (limit : Z) (p : pending) (s : pystr) : list token :=
  match s with
  | [] => flush limit p
  | c :: r => let '(ts, p') := step limit p c in ts ++ lex_from limit p' r
  end.

Definition lex (limit : Z) (s : pystr) : list token := lex_from limit PNone s.

(** ** Syntax trees (the node names of Python's [ast]) *)

Inductive binop := Add | Sub | Mult | Div | FloorDiv | Pow.
Inductive unop := UAdd | USub.
Inductive argkind := Plain | Starred | DoubleStarred.

Inductive expr :=
| Constant (v : value)
| BinOp (l : expr) (op : binop) (r : expr)
| UnaryOp (op : unop) (e : expr)
| CallEmpty (f : expr)                          (* [f()] *)
| Call (f : expr) (k : argkind) (arg : expr).   (* [f(arg)], [f( *arg)], [f( **arg)] *)

(** ** Parser: operator precedence over a stack of open constructs *)

Inductive frame :=
| FBin (l : expr) (op : binop)    (* [l op] waits for its right operand *)
| FUn (op : unop)                 (* a sign waits for its operand *)
| FGroup                          (* [(] of a parenthesised expression *)
| FCall (f : expr)                (* [f(] *)
| FStar (k : argkind).            (* [*] or [**] before a call argument *)

Definition prec (op : binop) : Z :=
  match op with
  | Add | Sub => 1
  | Mult | Div | FloorDiv => 2
  | Pow => 4
  end.

(** Close the operators on the stack that bind at least as tightly as
    level [t]; a sign binds at level 3. *)
Fixpoint reduce (t : Z) (e : expr) (st : list frame) : expr * list frame :=
  match st with
  | FBin l op :: st' => if t <=? prec op then reduce t (BinOp l op e) st' else (e, st)
  | FUn op :: st' => if t <=? 3 then reduce t (UnaryOp op e) st' else (e, st)
  | _ => (e, st)
  end.

Definition binop_of (t : token) : option binop :=
  match t with
  | TPlus => Some Add
  | TMinus => Some Sub
  | TStar => Some Mult
  | TSlash => Some Div
  | TDoubleSlash => Some FloorDiv
  | TDoubleStar => Some Pow
  | _ => None
  end.

(** [**] associates to the right, the other operators to the left. *)
Definition threshold (op : binop) : Z :=
  match op with Pow => 5 | _ => prec op end.

(** One token, with the stack [st] and the operand just read, if any. *)
Definition parse_step (st : list frame) (cur : option expr) (t : token)
  : option (list frame * option expr) :=
  match cur with
  | None =>
      match t with
      | TInt z => Some (st, Some (Constant (VInt z)))
      | TFloat f => Some (st, Some (Constant (VFloat f)))
      | TEllipsis => Some (st, Some (Constant VEllipsis))
      | TPlus => Some (FUn UAdd :: st, None)
      | TMinus => Some (FUn USub :: st, None)
      | TLParen => Some (FGroup :: st, None)
      | TRParen =>
          match st with
          | FGroup :: st' => Some (st', Some (Constant VTuple))
          | FCall f :: st' => Some (st', Some (CallEmpty f))
          | _ => None
          end
      | TStar =>
          match st with
          | FCall _ :: _ => Some (FStar Starred :: st, None)
          | _ => None
          end
      | TDoubleStar =>
          match st with
          | FCall _ :: _ => Some (FStar DoubleStarred :: st, None)
          | _ => None
          end
      | _ => None
      end
  | Some e =>
      match binop_of t with
      | Some op =>
          let '(e', st') := reduce (threshold op) e st in
          Some (FBin e' op :: st', None)
      | None =>
          match t with
          | TLParen => Some (FCall e :: st, None)
          | TRParen =>
              match reduce 0 e st with
              | (e', FGroup :: st') => Some (st', Some e')
              | (e', FCall f :: st') => Some (st', Some (Call f Plain e'))
              | (e', FStar k :: FCall f :: st') => Some (st', Some (Call f k e'))
              | _ => None
              end
          | _ => None
          end
      end
  end.

Fixpoint parse_from (st : list frame) (cur : option expr) (ts : list token)
  : option expr :=
  match ts with
  | [] =>
      match cur with
      | Some e => match reduce 0 e st with
                  | (e', []) => Some e'
                  | _ => None
                  end
      | None => None
      end
  | t :: r =>
      match parse_step st cur t with
      | Some (st', cur') => parse_from st' cur' r
      | None => None
      end
  end.

(** [None]: a syntax error. *)
Definition parse (ts : list token) : option expr := parse_from [] None ts.

(** ** Evaluation

    [None] means that the result is not fixed by this model: it depends
    on the C library ([**] with a float or a negative exponent, [//] on
    floats), on the platform (sequence repetition counts between 32 and
    64 bits) or on the memory at hand (very large powers). *)

Definition as_float (v : value) : option outcome :=
  match v with
  | VInt z => let f := PyFloat.of_int z in
              Some (if PyFloat.is_inf f then Raise OverflowError else Val (VFloat f))
  | VFloat f => Some (Val (VFloat f))
  | _ => None
  end.

Definition int_binop (op : binop) (a b : Z) : option outcome :=
  match op with
  | Add => Some (Val (VInt (a + b)))
  | Sub => Some (Val (VInt (a - b)))
  | Mult => Some (Val (VInt (a * b)))
  | Div =>
      match a, b with
      | _, Z0 => Some (Raise ZeroDivisionError)
      | Z0, _ => Some (Val (VFloat (S754_zero (b <? 0))))
      | _, _ =>
          let f := PyFloat.of_ratio (xorb (a <? 0) (b <? 0))
                                    (Z.to_pos (Z.abs a)) (Z.to_pos (Z.abs b)) in
          Some (if PyFloat.is_inf f then Raise OverflowError else Val (VFloat f))
      end
  | FloorDiv =>
      if b =? 0 then Some (Raise ZeroDivisionError) else Some (Val (VInt (a / b)))
  | Pow =>
      if (0 <=? b) && ((Z.log2 (Z.abs a) + 1) * b <=? 65536)
      then Some (Val (VInt (a ^ b)))
      else None
  end.

Definition float_binop (op : binop) (x y : spec_float) : option outcome :=
  match op with
  | Add => Some (Val (VFloat (PyFloat.add x y)))
  | Sub => Some (Val (VFloat (PyFloat.sub x y)))
  | Mult => Some (Val (VFloat (PyFloat.mul x y)))
  | Div =>
      if PyFloat.is_zero y then Some (Raise ZeroDivisionError)
      else Some (Val (VFloat (PyFloat.div x y)))
  | FloorDiv =>
      if PyFloat.is_zero y then Some (Raise ZeroDivisionError) else None
  | Pow => None
  end.

(** [() * n]: the count must fit the platform's index type. *)
Definition repeat_empty (n : Z) : option outcome :=
  if (- 2 ^ 31 <=? n) && (n <? 2 ^ 31) then Some (Val VTuple)
  else if (n <? - 2 ^ 63) || (2 ^ 63 <=? n) then Some (Raise OverflowError)
  else None.

Definition apply_binop (op : binop) (a b : value) : option outcome :=
  match a, b with
  | VInt x, VInt y => int_binop op x y
  | VInt _, VFloat _ | VFloat _, VInt _ | VFloat _, VFloat _ =>
      match as_float a, as_float b with
      | Some (Val (VFloat x)), Some (Val (VFloat y)) => float_binop op x y
      | Some (Raise e), _ => Some (Raise e)
      | _, Some (Raise e) => Some (Raise e)
      | _, _ => None
      end
  | VTuple, VTuple =>
      match op with Add => Some (Val VTuple) | _ => Some (Raise TypeError) end
  | VTuple, VInt n | VInt n, VTuple =>
      match op with Mult => repeat_empty n | _ => Some (Raise TypeError) end
  | VForeign _, _ | _, VForeign _ => None
  | _, _ => Some (Raise TypeError)
  end.

Definition apply_unop (op : unop) (a : value) : option outcome :=
  match a, op with
  | VInt z, USub => Some (Val (VInt (- z)))
  | VFloat f, USub => Some (Val (VFloat (PyFloat.neg f)))
  | VInt _, UAdd | VFloat _, UAdd => Some (Val a)
  | VForeign _, _ => None
  | _, _ => Some (Raise TypeError)
  end.

(** None of the values of the model can be called. *)
Definition apply_call (f : value) : option outcome :=
  match f with
  | VForeign _ => None
  | _ => Some (Raise TypeError)
  end.

(** Operands are evaluated from left to right, then the operator is
    applied; the first exception ends the evaluation. *)
Fixpoint eval_expr (e : expr) : option outcome :=
  match e with
  | Constant v => Some (Val v)
  | BinOp l op r =>
      match eval_expr l with
      | Some (Val a) =>
          match eval_expr r with
          | Some (Val b) => apply_binop op a b
          | other => other
          end
      | other => other
      end
  | UnaryOp op x =>
      match eval_expr x with
      | Some (Val a) => apply_unop op a
      | other => other
      end
  | CallEmpty f =>
      match eval_expr f with
      | Some (Val a) => apply_call a
      | other => other
      end
  | Call f _ x =>
      match eval_expr f with
      | Some (Val a) =>
          match eval_expr x with
          | Some (Val _) => apply_call a
          | other => other
          end
      | other => other
      end
  end.

(** ** The inputs of the model

    Expressions written with ASCII digits and [+ - * / ( ) .] only, with
    at most 64 characters that are not digits, which keeps the nesting
    far from the interpreter's limits. *)
Definition model_char (c : char) : bool :=
  is_ascii_digit c || (c =? 43) || (c =? 45) || (c =? 42) || (c =? 47)
  || (c =? 40) || (c =? 41) || (c =? 46).

Definition symbols (s : pystr) : Z :=
  Z.of_nat (length (filter (fun c => negb (is_ascii_digit c)) s)).

Definition in_model (s : pystr) : bool :=
  forallb model_char s && (symbols s <=? 64).

Definition model (limit : Z) (s : pystr) : option outcome :=
  if in_model s then
    match parse (lex limit s) with
    | Some e => eval_expr e
    | None => Some (Raise SyntaxError)
    end
  else None.

End Eval.

(** [eval(s)] *)
Definition py_eval (rt : Runtime) (s : pystr) : outcome :=
  match Eval.model (int_max_str_digits rt) s with
  | Some o => o
  | None => foreign_eval rt s
  end.

Inductive text_result :=
| Text (s : pystr)
| NoText (e : exn).

(** [str(v)] *)
Definition py_str (rt : Runtime) (v : value) : text_result :=
  match v with
  | VInt z =>
      if over_digit_limit (int_max_str_digits rt) (PyInt.ndigits z)
      then NoText ValueError
      else Text (PyInt.to_str z)
  | VFloat f => Text (PyFloat.repr f)
  | VTuple => Text (py "()")
  | VEllipsis => Text (py "Ellipsis")
  | VForeign text => Text text
  end.

(** [round(f, 10)] and the test that precedes it in [calculate]. *)
Definition normalise (result : value) : value :=
  match result with
  | VFloat f =>
      if PyFloat.is_integer f then VInt (PyFloat.to_int f)
      else VFloat (PyFloat.round10 f)
  | _ => result
  end.

(* ===================================================================== *)
(** * [re.match(r'^[\d+\-×÷/().\s]+$', expression)] *)
(* ===================================================================== *)

Module Pattern.

(** The character class [[\d+\-×÷/().\s]]. *)
Definition in_class (rt : Runtime) (c : char) : bool :=
  is_ascii_digit c || unicode_decimal rt c
  || (c =? 43) || (c =? 45)
  || (c =? MULTIPLICATION_SIGN) || (c =? DIVISION_SIGN)
  || (c =? 47) || (c =? 40) || (c =? 41) || (c =? 46)
  || is_space c.

(** [$]: at the end of the string, or before a newline that ends it. *)
Definition at_end (s : pystr) : bool :=
  match s with
  | [] => true
  | [c] => c =? 10
  | _ => false
  end.

(** After one character of the class: stop here, or take one more. *)
Fixpoint more (rt : Runtime) (s : pystr) : bool :=
  at_end s ||
  match s with
  | c :: r => in_class rt c && more rt r
  | [] => false
  end.

(** Whether the pattern matches (a match object is truthy). *)
Definition matches (rt : Runtime) (s : pystr) : bool :=
  match s with
  | c :: r => in_class rt c && more rt r
  | [] => false
  end.

End Pattern.

(* ===================================================================== *)
(** * The program *)
(* ===================================================================== *)

(** ** What the program sees of the file system *)

Inductive folder_state :=
| Missing
| Present (password_file : option pystr).   (* [.password]: absent, or its text *)

Record FileSystem := {
  secret_folder : folder_state;     (* [.secret_folder] *)
  can_mkdir : bool;                 (* [os.makedirs] would succeed *)
  can_write : bool;                 (* opening [.password] for writing would *)
  can_read : bool                   (* opening [.password] for reading and
                                       reading its text would: a file that
                                       exists may still refuse, by its
                                       permissions or by bytes that are no
                                       text *)
}.

Definition with_folder (d : folder_state) (fs : FileSystem) : FileSystem :=
  {| secret_folder := d; can_mkdir := can_mkdir fs; can_write := can_write fs;
     can_read := can_read fs |}.

Definition folder_exists (fs : FileSystem) : bool :=
  match secret_folder fs with Missing => false | Present _ => true end.

Definition password_file_exists (fs : FileSystem) : bool :=
  match secret_folder fs with Present (Some _) => true | _ => false end.

(** ** Message boxes *)

Inductive dialog :=
| ErrCreatingFolder                 (* "Error creating folder: ..." *)
| ErrCreatingPasswordFile           (* "Error creating password file: ..." *)
| ErrInvalidCharacters              (* "Invalid characters in expression" *)
| ErrDivisionByZero                 (* "Division by zero is not allowed" *)
| ErrInvalidCalculation (e : exn)   (* "Invalid calculation: ..." *)
| ErrFolderNotFound                 (* "Secret folder not found. ..." *)
| ErrAccessDenied                   (* "Too many failed attempts." *)
| WarnWrongPassword (remaining : Z).  (* "Wrong password! n attempts remaining." *)

(** ** Module-level functions *)

(** [create_hidden_folder]: the folder name, or [None] after an error
    box. *)
Definition create_hidden_folder (fs : FileSystem)
  : bool * FileSystem * list dialog :=
  if folder_exists fs then (true, fs, [])
  else if can_mkdir fs then (true, with_folder (Present None) fs, [])
  else (false, fs, [ErrCreatingFolder]).

(** [hash_password]; [None] when [password.encode()] raises. *)
Definition hash_password (password : pystr) : option pystr :=
  option_map Sha256.hexdigest (Utf8.encode password).

(** [verify_password] *)
Definition verify_password (stored_hash input_password : pystr) : option bool :=
  option_map (str_eqb stored_hash) (hash_password input_password).

(** ** [class PasswordWindow(tk.Toplevel)] *)

(** The Tk classes the window is made of.  [itemconfig] is a method of
    [Canvas] (and of no other class here): the attempts label is an item of
    the canvas [main_frame], a local of [__init__]. *)
Inductive widget_class := Toplevel | Canvas | Frame | Entry.

Definition has_itemconfig (w : widget_class) : bool :=
  match w with Canvas => true | _ => false end.

Definition PasswordWindow_base : widget_class := Toplevel.

Inductive uncaught := AttributeError | UnicodeEncodeError.

Record PasswordWindow := {
  stored_hash : pystr;
  max_attempts : Z;
  attempts : Z;
  alive : bool;                     (* [destroy()] has not run *)
  callback_calls : nat;             (* runs of [on_success_callback] *)
  shown : list dialog;              (* message boxes of this window, in order *)
  escaped : list uncaught           (* exceptions that left [verify];
                                       Tk reports them and goes on *)
}.

(** [PasswordWindow.__init__] *)
Definition PasswordWindow_init (hash : pystr) (max : Z) : PasswordWindow :=
  {| stored_hash := hash; max_attempts := max; attempts := 0; alive := true;
     callback_calls := 0; shown := []; escaped := [] |}.

Definition count_attempt (w : PasswordWindow) : PasswordWindow :=
  {| stored_hash := stored_hash w; max_attempts := max_attempts w;
     attempts := attempts w + 1; alive := alive w;
     callback_calls := callback_calls w; shown := shown w;
     escaped := escaped w |}.

(** The callback given by [open_secret_folder] is
    [lambda: open_folder(self.SECRET_FOLDER)]: [open_folder] asks the
    operating system to show the folder and reports its own failures; its
    runs are counted. *)
Definition on_success_callback (w : PasswordWindow) : PasswordWindow :=
  {| stored_hash := stored_hash w; max_attempts := max_attempts w;
     attempts := attempts w; alive := alive w;
     callback_calls := S (callback_calls w); shown := shown w;
     escaped := escaped w |}.

Definition destroy (w : PasswordWindow) : PasswordWindow :=
  {| stored_hash := stored_hash w; max_attempts := max_attempts w;
     attempts := attempts w; alive := false;
     callback_calls := callback_calls w; shown := shown w;
     escaped := escaped w |}.

Definition messagebox (d : dialog) (w : PasswordWindow) : PasswordWindow :=
  {| stored_hash := stored_hash w; max_attempts := max_attempts w;
     attempts := attempts w; alive := alive w;
     callback_calls := callback_calls w; shown := shown w ++ [d];
     escaped := escaped w |}.

Definition raise_out (e : uncaught) (w : PasswordWindow) : PasswordWindow :=
  {| stored_hash := stored_hash w; max_attempts := max_attempts w;
     attempts := attempts w; alive := alive w;
     callback_calls := callback_calls w; shown := shown w;
     escaped := escaped w ++ [e] |}.

(** [PasswordWindow.verify], with the text of the entry, for a window
    whose class derives from [base]. *)
Definition verify_on (base : widget_class) (w : PasswordWindow)
  (password : pystr) : PasswordWindow :=
  let w1 := count_attempt w in
  let remaining := max_attempts w1 - attempts w1 in
  match verify_password (stored_hash w1) password with
  | None => raise_out UnicodeEncodeError w1
  | Some true => destroy (on_success_callback w1)
  | Some false =>
      (* self.itemconfig(self.attempt_label, text=...) *)
      if has_itemconfig base then
        if remaining =? 0 then destroy (messagebox ErrAccessDenied w1)
        else messagebox (WarnWrongPassword remaining) w1
      else raise_out AttributeError w1
  end.

Definition verify : PasswordWindow -> pystr -> PasswordWindow :=
  verify_on PasswordWindow_base.

(** The Cancel button and the window manager's close: [self.destroy]. *)
Definition cancel (w : PasswordWindow) : PasswordWindow := destroy w.

(** The states of the gate, read off a prompt window. *)
Inductive gate := Idle | PromptOpen | Granted.

Definition gate_of (w : PasswordWindow) : gate :=
  if alive w then PromptOpen
  else match callback_calls w with O => Idle | S _ => Granted end.

(** A whole session: the passwords submitted, in order. *)
Definition session (w : PasswordWindow) (passwords : list pystr) : PasswordWindow :=
  fold_left verify passwords w.

(** ** [class CalculatorApp] *)

Definition SECRET_CODE : pystr := py "69÷69".
Definition DEFAULT_PASSWORD : pystr := py "subscribe".
Definition OPERATORS : pystr := py "+-×÷()".

(** What can leave the write trace of the display: the exception of
    [open(PASSWORD_FILE, "r")] or of [f.read()], an [OSError] or a
    [UnicodeDecodeError]. *)
Inductive trace_exn := ReadError.

Record App := {
  display : pystr;                  (* [display_var] *)
  fs : FileSystem;
  dialogs : list dialog;            (* the app's message boxes, in order *)
  prompts : list PasswordWindow;    (* password windows, newest first *)
  tracebacks : list trace_exn       (* exceptions that left the write trace;
                                       Tk reports them and goes on *)
}.

Definition write (v : pystr) (a : App) : App :=
  {| display := v; fs := fs a; dialogs := dialogs a; prompts := prompts a;
     tracebacks := tracebacks a |}.

Definition showerror (d : dialog) (a : App) : App :=
  {| display := display a; fs := fs a; dialogs := dialogs a ++ [d];
     prompts := prompts a; tracebacks := tracebacks a |}.

Definition set_fs (f : FileSystem) (a : App) : App :=
  {| display := display a; fs := f; dialogs := dialogs a; prompts := prompts a;
     tracebacks := tracebacks a |}.

Definition new_prompt (w : PasswordWindow) (a : App) : App :=
  {| display := display a; fs := fs a; dialogs := dialogs a;
     prompts := w :: prompts a; tracebacks := tracebacks a |}.

(** An exception leaves the write trace.  The trace is a Tcl command made
    by [Variable._register]: its wrapper hands the exception to
    [report_callback_exception] and returns, so the write that ran the
    trace completes and nothing else is done. *)
Definition raise_out_of_trace (e : trace_exn) (a : App) : App :=
  {| display := display a; fs := fs a; dialogs := dialogs a;
     prompts := prompts a; tracebacks := tracebacks a ++ [e] |}.

(** [CalculatorApp.open_secret_folder].  It runs inside the write trace of
    [display_var], where Tcl keeps the traces of that variable disabled:
    its [self.clear()] is a plain write of "0" (lemma [clear_is_write]
    shows that the trace would do nothing on that text anyway).

    The folder is looked for, the password file is written if it is
    missing (inside [try]), and then the file is opened and read, outside
    any [try]: when that fails the exception leaves the function before
    [self.clear()] and before the prompt is made. *)
Definition open_secret_folder (a : App) : App :=
  match secret_folder (fs a) with
  | Missing => showerror ErrFolderNotFound a
  | Present file =>
      let written :=
        match file with
        | Some text => Some (text, a)
        | None =>
            match can_write (fs a), hash_password DEFAULT_PASSWORD with
            | true, Some h => Some (h, set_fs (with_folder (Present (Some h)) (fs a)) a)
            | _, _ => None
            end
        end in
      match written with
      | None => showerror ErrCreatingPasswordFile a
      | Some (text, a1) =>
          if can_read (fs a1) then
            let stored := strip text in
            new_prompt (PasswordWindow_init stored 3) (write (py "0") a1)
          else raise_out_of_trace ReadError a1
      end
  end.

(** [CalculatorApp.check_secret_code], the write trace of the display. *)
Definition check_secret_code (a : App) : App :=
  if str_eqb (strip (display a)) SECRET_CODE then open_secret_folder a else a.

(** [display_var.set(v)]: the write, then its trace. *)
Definition set_display (v : pystr) (a : App) : App :=
  check_secret_code (write v a).

(** [CalculatorApp.clear] *)
Definition clear (a : App) : App := set_display (py "0") a.

(** [CalculatorApp.append_to_display] *)
Definition append_to_display (text : pystr) (a : App) : App :=
  let current := display a in
  let a1 := if str_eqb current (py "0") && negb (contains OPERATORS text)
            then set_display [] a else a in
  set_display (display a1 ++ text) a1.

(** The two [except] clauses of [calculate]. *)
Definition handle (e : exn) (a : App) : App :=
  match e with
  | ZeroDivisionError => clear (showerror ErrDivisionByZero a)
  | _ => clear (showerror (ErrInvalidCalculation e) a)
  end.

(** The part of [calculate] that follows [eval]: the float is brought to
    an integer or rounded, and the text of the result is displayed. *)
Definition show_result (rt : Runtime) (o : outcome) (a : App) : App :=
  match o with
  | Raise e => handle e a
  | Val result =>
      match py_str rt (normalise result) with
      | Text t => set_display t a
      | NoText e => handle e a
      end
  end.

(** [CalculatorApp.calculate] *)
Definition calculate (rt : Runtime) (a : App) : App :=
  let expression := display a in
  if negb (Pattern.matches rt expression) then
    clear (showerror ErrInvalidCharacters a)
  else
    let expression :=
      replace DIVISION_SIGN (py "/")
              (replace MULTIPLICATION_SIGN (py "*") expression) in
    show_result rt (py_eval rt expression) a.

(** [CalculatorApp.__init__], as far as the state goes, where the window
    set-up of its first lines succeeds: the folder and the password file
    are set up, the display shows "0". *)
Definition App_init (fs0 : FileSystem) : App :=
  let '(folder, fs1, boxes) := create_hidden_folder fs0 in
  let '(fs2, boxes2) :=
    if folder && negb (password_file_exists fs1) then
      match can_write fs1, hash_password DEFAULT_PASSWORD with
      | true, Some h => (with_folder (Present (Some h)) fs1, boxes)
      | _, _ => (fs1, boxes ++ [ErrCreatingPasswordFile])
      end
    else (fs1, boxes) in
  {| display := py "0"; fs := fs2; dialogs := boxes2; prompts := [];
     tracebacks := [] |}.

(** [create_buttons]: the texts of the keys, row by row, and the command
    bound to each. *)
Definition buttons : list (list pystr) :=
  [ [py "C"; py "("; py ")"; py "÷"];
    [py "7"; py "8"; py "9"; py "×"];
    [py "4"; py "5"; py "6"; py "-"];
    [py "1"; py "2"; py "3"; py "+"];
    [py "."; py "0"; py "="] ].

Definition command (rt : Runtime) (text : pystr) (a : App) : App :=
  if str_eqb text (py "C") then clear a
  else if str_eqb text (py "=") then calculate rt a
  else append_to_display text a.

(** Pressing keys one after the other. *)
Definition press (rt : Runtime) (keys : list pystr) (a : App) : App :=
  fold_left (fun st k => command rt k st) keys a.

(** A runtime to run examples on: the default digit limit, no decimal
    digit beyond ASCII, and an exception wherever the model of [eval] does
    not reach.  The examples use inputs of the model only. *)
Definition example_runtime : Runtime :=
  {| unicode_decimal := fun _ => false;
     int_max_str_digits := 4300;
     foreign_eval := fun _ => Raise OtherException |}.

(** A file system in which everything succeeds and nothing exists yet. *)
Definition fresh_disk : FileSystem :=
  {| secret_folder := Missing; can_mkdir := true; can_write := true;
     can_read := true |}.

(** One that refuses to create the folder. *)
Definition readonly_disk : FileSystem :=
  {| secret_folder := Missing; can_mkdir := false; can_write := false;
     can_read := true |}.

(** One whose password file is there, with the text [text], and cannot
    be read. *)
Definition unreadable_disk (text : pystr) : FileSystem :=
  {| secret_folder := Present (Some text); can_mkdir := true;
     can_write := true; can_read := false |}.

(* ===================================================================== *)
(** * The statements of the specification *)
(* ===================================================================== *)

(** The characters the specification permits: digits, the four operator
    glyphs, parentheses, the decimal point and whitespace. *)
Definition claimed_permitted (rt : Runtime) (c : char) : bool :=
  is_ascii_digit c || unicode_decimal rt c
  || (c =? 43) || (c =? 45)
  || (c =? MULTIPLICATION_SIGN) || (c =? DIVISION_SIGN)
  || (c =? 40) || (c =? 41) || (c =? 46)
  || is_space c.

(** Pressing [=] on the display of [a] reports invalid characters and
    leaves "0". *)
Definition rejects_as_invalid (rt : Runtime) (a : App) : Prop :=
  dialogs (calculate rt a) = dialogs a ++ [ErrInvalidCharacters] /\
  display (calculate rt a) = py "0".

(** C1 as the specification states it, for one display. *)
Definition C1_as_stated (rt : Runtime) (a : App) : Prop :=
  (exists c, In c (display a) /\ claimed_permitted rt c = false) ->
  rejects_as_invalid rt a.

(** The SHA-256 of the default password, as [hexdigest] prints it. *)
Definition default_hash : pystr :=
  py "f40fd562f63078722310bf105375576916ef81609331c36aa36015b4f56f9082".

(** The credential [open_secret_folder] ends up reading, if any: the
    secret folder exists, its password file exists or can be written (it
    is written first when it is missing), and the file can be read; the
    credential is its text. *)
Definition credential (f : FileSystem) : option pystr :=
  match secret_folder f with
  | Missing => None
  | Present (Some text) => if can_read f then Some text else None
  | Present None => if can_write f && can_read f then Some default_hash else None
  end.

(** From [a] to [a']: one more password window, fresh, with 3 attempts,
    and the display back to "0". *)
Definition opens_prompt (a a' : App) : Prop :=
  (exists h, prompts a' = PasswordWindow_init h 3 :: prompts a) /\
  display a' = py "0".

(** C2 as the specification states it, for one write [v] in state [a]. *)
Definition C2_as_stated (a : App) (v : pystr) : Prop :=
  (strip v = SECRET_CODE -> opens_prompt a (set_display v a)) /\
  (strip v <> SECRET_CODE -> prompts (set_display v a) = prompts a).

(** The substitution as the specification words it: × becomes [*], ÷
    becomes [/], every other character passes through. *)
Definition substitute_glyphs (s : pystr) : pystr :=
  map (fun c => if c =? MULTIPLICATION_SIGN then 42
                else if c =? DIVISION_SIGN then 47 else c) s.

Definition is_operator (c : char) : bool := existsb (fun d => c =? d) OPERATORS.

(** What the display should read once [c] is pressed on the display of
    [a], the trace apart. *)
Definition appended (a : App) (c : char) : pystr :=
  if str_eqb (display a) (py "0") && negb (is_operator c) then [c]
  else display a ++ [c].

(** C10 as the specification states it. *)
Definition C10_as_stated (a : App) (c : char) : Prop :=
  display (append_to_display [c] a) = appended a c.

(** The stored credential can be read. *)
Definition readable (f : FileSystem) : bool :=
  match credential f with Some _ => true | None => false end.











(** The dividend of the counterexample: 1 followed by 400 zeros. *)
Definition huge_dividend : pystr := 49 :: repeat 48 400.

(** Characters below 128: none of them is the division sign. *)
Definition plain (s : pystr) : Prop := Forall (fun c => c < 128) s.

(** Signs and digits only. *)
Definition integral_text (s : pystr) : Prop :=
  Forall (fun c => c = 45 \/ 48 <= c <= 57) s.

(** What the specification says is displayed for a result: an integer
    without fractional part, any other number rounded to 10 decimal
    places; it says nothing of results that are no numbers. *)
Definition claimed_display (v : value) : option pystr :=
  match v with
  | VInt z => Some (PyInt.to_str z)
  | VFloat f =>
      if PyFloat.is_integer f then Some (PyInt.to_str (PyFloat.to_int f))
      else Some (PyFloat.repr (PyFloat.round10 f))
  | _ => None
  end.

(** [=] on the display of [a] succeeds: the value is [v], its text [t]. *)
Definition successful (rt : Runtime) (a : App) (v : value) (t : pystr) : Prop :=
  Pattern.matches rt (display a) = true
  /\ py_eval rt (substitute_glyphs (display a)) = Val v
  /\ py_str rt (normalise v) = Text t.

(** C8 as the specification states it, for one display. *)
Definition C8_as_stated (rt : Runtime) (a : App) : Prop :=
  forall v t, successful rt a v t ->
              Some (display (calculate rt a)) = claimed_display v.

(** The characters of the keys: digits, the four operator glyphs,
    parentheses and the decimal point. *)
Definition keypad_char (c : char) : bool :=
  is_ascii_digit c || is_operator c || (c =? 46).

Definition over_keypad (s : pystr) : bool := forallb keypad_char s.

Definition is_key (k : pystr) : Prop := In k (concat buttons).

(** C9 as the specification states it, for a run of key presses from the
    start of the program. *)
Definition C9_as_stated (rt : Runtime) (fs0 : FileSystem) (keys : list pystr)
  : Prop :=
  (forall k, In k keys -> is_key k) ->
  over_keypad (display (press rt keys (App_init fs0))) = true
  /\ display (clear (press rt keys (App_init fs0))) = py "0".

(** If [=] succeeds on the display of [a], the text of its result is made
    of characters of the keys. *)
Definition result_over_keypad (rt : Runtime) (a : App) : Prop :=
  forall v t, successful rt a v t -> over_keypad t = true.

(** Along the run [keys] from [a], every [=] is pressed in such a
    state. *)
Fixpoint results_over_keypad (rt : Runtime) (keys : list pystr) (a : App)
  : Prop :=
  match keys with
  | [] => True
  | k :: r =>
      (k = py "=" -> result_over_keypad rt a)
      /\ results_over_keypad rt r (command rt k a)
  end.

(** [=] on the display of [a] ends in one of the error boxes. *)
Definition evaluation_fails (rt : Runtime) (a : App) : Prop :=
  Pattern.matches rt (display a) = false
  \/ (exists e, py_eval rt (substitute_glyphs (display a)) = Raise e)
  \/ (exists v e, py_eval rt (substitute_glyphs (display a)) = Val v
                  /\ py_str rt (normalise v) = NoText e).

(* ===================================================================== *)
(** * Colours *)
(* ===================================================================== *)

(** ** [int(s, 16)] on ASCII text

    White space around the number, a sign, the prefix [0x], then
    hexadecimal digits with single underscores between them.  Beyond ASCII
    the answer depends on the interpreter's Unicode tables (decimal digits
    and spaces of other scripts are accepted): [None]. *)

(** [Py_ISSPACE] *)
Definition is_c_space (c : char) : bool := ((9 <=? c) && (c <=? 13)) || (c =? 32).

Definition hex_value (c : char) : option Z :=
  if is_ascii_digit c then Some (c - 48)
  else if (97 <=? c) && (c <=? 102) then Some (c - 87)
  else if (65 <=? c) && (c <=? 70) then Some (c - 55)
  else None.

Fixpoint skip_spaces (s : pystr) : pystr :=
  match s with
  | c :: r => if is_c_space c then skip_spaces r else s
  | [] => []
  end.

(** The digits, read up to the first character that is neither a digit
    nor an underscore: the value and what follows.  [underscore]: the
    character before was one. *)
Fixpoint scan_digits (s : pystr) (acc : Z) (underscore : bool)
  : option (Z * pystr) :=
  match s with
  | c :: r =>
      if c =? 95 then (if underscore then None else scan_digits r acc true)
      else match hex_value c with
           | Some d => scan_digits r (16 * acc + d) false
           | None => if underscore then None else Some (acc, s)
           end
  | [] => if underscore then None else Some (acc, [])
  end.

Definition split_sign (s : pystr) : bool * pystr :=
  match s with
  | c :: r => if c =? 43 then (false, r) else if c =? 45 then (true, r)
              else (false, s)
  | [] => (false, [])
  end.

(** [0x] or [0X], and one underscore after it. *)
Definition skip_prefix (s : pystr) : pystr :=
  match s with
  | z :: x :: r =>
      if (z =? 48) && ((x =? 120) || (x =? 88))
      then match r with
           | u :: r' => if u =? 95 then r' else r
           | [] => r
           end
      else s
  | _ => s
  end.

Definition int16 (s : pystr) : option outcome :=
  if forallb (fun c => c <? 128) s then
    let '(negative, s2) := split_sign (skip_spaces s) in
    match skip_prefix s2 with
    | [] => Some (Raise ValueError)
    | c :: r =>
        match hex_value c with
        | None => Some (Raise ValueError)
        | Some _ =>
            match scan_digits (c :: r) 0 false with
            | Some (v, rest) =>
                match skip_spaces rest with
                | [] => Some (Val (VInt (if negative then - v else v)))
                | _ => Some (Raise ValueError)
                end
            | None => Some (Raise ValueError)
            end
        end
    end
  else None.

(** ** [f"{n:02x}"] *)

Fixpoint chars_of_hex (d : Hexadecimal.uint) : pystr :=
  match d with
  | Hexadecimal.Nil => []
  | Hexadecimal.D0 r => 48 :: chars_of_hex r
  | Hexadecimal.D1 r => 49 :: chars_of_hex r
  | Hexadecimal.D2 r => 50 :: chars_of_hex r
  | Hexadecimal.D3 r => 51 :: chars_of_hex r
  | Hexadecimal.D4 r => 52 :: chars_of_hex r
  | Hexadecimal.D5 r => 53 :: chars_of_hex r
  | Hexadecimal.D6 r => 54 :: chars_of_hex r
  | Hexadecimal.D7 r => 55 :: chars_of_hex r
  | Hexadecimal.D8 r => 56 :: chars_of_hex r
  | Hexadecimal.D9 r => 57 :: chars_of_hex r
  | Hexadecimal.Da r => 97 :: chars_of_hex r
  | Hexadecimal.Db r => 98 :: chars_of_hex r
  | Hexadecimal.Dc r => 99 :: chars_of_hex r
  | Hexadecimal.Dd r => 100 :: chars_of_hex r
  | Hexadecimal.De r => 101 :: chars_of_hex r
  | Hexadecimal.Df r => 102 :: chars_of_hex r
  end.

(** Lower-case hexadecimal on at least two characters, filled with a
    zero; the sign of a negative number counts as one of the two. *)
Definition format_02x (n : Z) : pystr :=
  match n with
  | Z0 => [48; 48]
  | Zpos p => let ds := chars_of_hex (Pos.to_hex_uint p) in
              match ds with [d] => [48; d] | _ => ds end
  | Zneg p => 45 :: chars_of_hex (Pos.to_hex_uint p)
  end.

Definition format_color (r g b : Z) : pystr :=
  35 :: format_02x r ++ format_02x g ++ format_02x b.

(** [s[i:j]] for [0 <= i <= j] *)
Definition slice (i j : nat) (s : pystr) : pystr := firstn (j - i) (skipn i s).

Inductive color_result :=
| Color (s : pystr)
| ColorError (e : exn).

(** [int(color[1:3], 16), int(color[3:5], 16), int(color[5:7], 16)], from
    left to right. *)
Definition components (color : pystr) : option (exn + Z * Z * Z) :=
  match int16 (slice 1 3 color) with
  | Some (Val (VInt r)) =>
      match int16 (slice 3 5 color) with
      | Some (Val (VInt g)) =>
          match int16 (slice 5 7 color) with
          | Some (Val (VInt b)) => Some (inr (r, g, b))
          | Some (Raise e) => Some (inl e)
          | _ => None
          end
      | Some (Raise e) => Some (inl e)
      | _ => None
      end
  | Some (Raise e) => Some (inl e)
  | _ => None
  end.

(** [AnimatedButton.lighten_color] *)
Definition lighten_color (color : pystr) : option color_result :=
  match components color with
  | Some (inr (r, g, b)) =>
      Some (Color (format_color (Z.min 255 (r + 50)) (Z.min 255 (g + 50))
                                (Z.min 255 (b + 50))))
  | Some (inl e) => Some (ColorError e)
  | None => None
  end.

(** [AnimatedButton.darken_color] *)
Definition darken_color (color : pystr) : option color_result :=
  match components color with
  | Some (inr (r, g, b)) =>
      Some (Color (format_color (Z.max 0 (r - 50)) (Z.max 0 (g - 50))
                                (Z.max 0 (b - 50))))
  | Some (inl e) => Some (ColorError e)
  | None => None
  end.

(** The colours [create_buttons] gives the keys. *)
Definition button_color (text : pystr) : pystr :=
  if str_eqb text (py "C") then py "#ef4444"
  else if str_eqb text (py "=") then py "#00d4ff"
  else if existsb (str_eqb text) [py "÷"; py "×"; py "-"; py "+"; py "("; py ")"]
       then py "#4b5563"
  else py "#2d3748".

(* ===================================================================== *)
(** * Drawing *)
(* ===================================================================== *)

(** [draw_rounded_rect]: the coordinates given to [create_polygon], for
    integer arguments. *)
Definition draw_rounded_rect (x y width height radius : Z) : list Z :=
  [ x + radius; y;
    x + width - radius; y;
    x + width; y + radius;
    x + width; y + height - radius;
    x + width - radius; y + height;
    x + radius; y + height;
    x; y + height - radius;
    x; y + radius;
    x + radius; y ].

(** The points of a flat list of coordinates. *)
Fixpoint points (cs : list Z) : list (Z * Z) :=
  match cs with
  | x :: y :: r => (x, y) :: points r
  | _ => []
  end.

(** ** The gradients *)

(** [a / b] on integers: the nearest float. *)
Definition true_divide (a b : Z) : exn + spec_float :=
  match a, b with
  | _, Z0 => inl ZeroDivisionError
  | Z0, _ => inr (S754_zero (b <? 0))
  | _, _ =>
      let f := PyFloat.of_ratio (xorb (a <? 0) (b <? 0))
                                (Z.to_pos (Z.abs a)) (Z.to_pos (Z.abs b)) in
      if PyFloat.is_inf f then inl OverflowError else inr f
  end.

(** [int(f)] *)
Definition int_of_float (f : spec_float) : exn + Z :=
  match f with
  | S754_nan => inl ValueError
  | S754_infinity _ => inl OverflowError
  | _ => inr (PyFloat.to_int f)
  end.

(** [int(base + (i/height)*span)] *)
Definition channel (base span i height : Z) : exn + Z :=
  match true_divide i height with
  | inl e => inl e
  | inr q => int_of_float
               (PyFloat.add (PyFloat.of_int base)
                            (PyFloat.mul q (PyFloat.of_int span)))
  end.

(** The colour of row [i] of a gradient over [height] rows. *)
Definition gradient_color (i height : Z) : exn + pystr :=
  match channel 10 15 i height with
  | inl e => inl e
  | inr r =>
      match channel 16 20 i height with
      | inl e => inl e
      | inr g =>
          match channel 30 25 i height with
          | inl e => inl e
          | inr b => inr (format_color r g b)
          end
      end
  end.

(** [range(n)] *)
Definition range (n : Z) : list Z := map Z.of_nat (seq 0 (Z.to_nat n)).

(** ** The canvas of the calculator

    The items of a canvas in the order of its display list: an item is
    drawn over those before it, and a new item goes to the end.  Of the
    options of an item, its tags and its fill. *)
Inductive shape := LineItem | OvalItem | TextItem | WindowItem.

Record item := {
  item_id : Z;
  item_shape : shape;
  coords : list Z;
  tags : list pystr;
  fill : pystr
}.

(** The canvas, the width of the screen and the calls of [draw_gradient]
    that [after] holds back. *)
Record Gui := {
  items : list item;
  next_id : Z;
  screenwidth : Z;
  timers : nat
}.

Definition has_tag (t : pystr) (i : item) : bool := existsb (str_eqb t) (tags i).

Definition create (sh : shape) (cs : list Z) (tg : list pystr) (fl : pystr)
    (g : Gui) : Gui :=
  {| items := items g ++ [{| item_id := next_id g; item_shape := sh;
                             coords := cs; tags := tg; fill := fl |}];
     next_id := next_id g + 1;
     screenwidth := screenwidth g;
     timers := timers g |}.

(** [canvas.delete(tag)] *)
Definition delete (t : pystr) (g : Gui) : Gui :=
  {| items := filter (fun i => negb (has_tag t i)) (items g);
     next_id := next_id g;
     screenwidth := screenwidth g;
     timers := timers g |}.

(** [canvas.find_withtag(tag)], for a tag that is a plain name. *)
Definition find_withtag (t : pystr) (g : Gui) : list Z :=
  map item_id (filter (has_tag t) (items g)).

(** [canvas.coords(id, x, y)] *)
Definition set_coords (id : Z) (cs : list Z) (g : Gui) : Gui :=
  {| items := map (fun i => if item_id i =? id
                            then {| item_id := item_id i;
                                    item_shape := item_shape i;
                                    coords := cs; tags := tags i;
                                    fill := fill i |}
                            else i) (items g);
     next_id := next_id g;
     screenwidth := screenwidth g;
     timers := timers g |}.

Definition after_draw_gradient (g : Gui) : Gui :=
  {| items := items g; next_id := next_id g; screenwidth := screenwidth g;
     timers := S (timers g) |}.

(** The loop of [draw_gradient]: one line for each row, until a row
    raises. *)
Fixpoint gradient_rows (rows : list Z) (width height : Z) (g : Gui)
  : Gui * option exn :=
  match rows with
  | [] => (g, None)
  | i :: r =>
      match gradient_color i height with
      | inl e => (g, Some e)
      | inr color =>
          gradient_rows r width height
            (create LineItem [0; i; width; i] [py "gradient"] color g)
      end
  end.

(** [CalculatorApp.draw_gradient], when the window is [width] by
    [height]. *)
Definition draw_gradient (width height : Z) (g : Gui) : Gui * option exn :=
  if (width <=? 1) || (height <=? 1) then (after_draw_gradient g, None)
  else
    match gradient_rows (range height) width height (delete (py "gradient") g) with
    | (g', Some e) => (g', Some e)
    | (g', None) =>
        (create OvalItem [50; 50; width - 50; height - 50] [py "gradient"] [] g',
         None)
    end.

(** What ends a callback of the window. *)
Inductive callback_exn := IndexError | Arithmetic (e : exn).

(** [CalculatorApp.on_resize], when the window is [width] by [height]. *)
Definition on_resize (width height : Z) (g : Gui) : Gui * option callback_exn :=
  match draw_gradient width height g with
  | (g1, Some e) => (g1, Some (Arithmetic e))
  | (g1, None) =>
      match find_withtag (py "title") g1 with
      | [] => (g1, Some IndexError)
      | t :: _ =>
          let g2 := set_coords t [screenwidth g1 / 2; 50] g1 in
          match find_withtag (py "display") g2 with
          | [] => (g2, Some IndexError)
          | d :: _ =>
              let g3 := set_coords d [screenwidth g2 / 2; 150] g2 in
              match find_withtag (py "buttons") g3 with
              | [] => (g3, Some IndexError)
              | b :: _ =>
                  (set_coords b [screenwidth g3 / 2; 450] g3, None)
              end
          end
      end
  end.

(** The canvas as [CalculatorApp.__init__] and [create_buttons] fill it,
    on a screen [sw] wide with a window [width] by [height] at that time:
    the gradient, the title, the display and the keypad. *)
Definition Gui_init (sw width height : Z) : Gui * option exn :=
  match draw_gradient width height
          {| items := []; next_id := 1; screenwidth := sw; timers := O |} with
  | (g, Some e) => (g, Some e)
  | (g, None) =>
      (create WindowItem [sw / 2; 450] [py "buttons"] []
         (create WindowItem [sw / 2; 150] [] []
            (create TextItem [sw / 2; 50] [] (py "#00d4ff") g)),
       None)
  end.

(** What happens to the window afterwards: it is resized, or a call of
    [draw_gradient] held back by [after] runs; each with the size of the
    window at that time. *)
Inductive event := Configure (width height : Z) | Timer (width height : Z).

Definition react (g : Gui) (e : event) : Gui :=
  match e with
  | Configure w h => fst (on_resize w h g)
  | Timer w h =>
      match timers g with
      | O => g
      | S n => fst (draw_gradient w h
                      {| items := items g; next_id := next_id g;
                         screenwidth := screenwidth g; timers := n |})
      end
  end.

Definition run (events : list event) (g : Gui) : Gui := fold_left react events g.

(** The items that are not part of the gradient. *)
Definition widgets (g : Gui) : list item :=
  filter (fun i => negb (has_tag (py "gradient") i)) (items g).

(** ** The prompt *)

(** The colours of the 350 rows of the prompt's background. *)
Definition prompt_gradient : list (exn + pystr) :=
  map (fun i => gradient_color i 350) (range 350).

(** ** Shape of a colour *)

Definition lower_hex (c : char) : bool :=
  is_ascii_digit c || ((97 <=? c) && (c <=? 102)).

Definition is_hex (c : char) : bool :=
  lower_hex c || ((65 <=? c) && (c <=? 70)).

(** [#rrggbb] *)
Definition is_color (digit : char -> bool) (s : pystr) : bool :=
  match s with
  | h :: r => (h =? 35) && (length r =? 6)%nat && forallb digit r
  | [] => false
  end.

(** ** Checks by computation *)

Definition hex_chars : list char := filter is_hex (range 128).
Definition lower_hex_chars : list char := filter lower_hex (range 128).

(** Two hexadecimal digits are read as a number from 0 to 255. *)
Definition hex_pair_parses (a b : char) : bool :=
  match int16 [a; b] with
  | Some (Val (VInt v)) => (0 <=? v) && (v <=? 255)
  | _ => false
  end.

(** Two lower-case digits are written back as they were read. *)
Definition lower_pair_round_trip (a b : char) : bool :=
  match int16 [a; b] with
  | Some (Val (VInt v)) => str_eqb (format_02x v) [a; b]
  | _ => false
  end.

(** A number from 0 to 255 is written on two lower-case digits that read
    as the number. *)
Definition byte_round_trip (n : Z) : bool :=
  match format_02x n with
  | [a; b] =>
      lower_hex a && lower_hex b
      && match int16 [a; b] with
         | Some (Val (VInt v)) => v =? n
         | _ => false
         end
  | _ => false
  end.

(** The three channels of row [i] of the prompt. *)
Definition prompt_channels (i : Z) : option (Z * Z * Z) :=
  match channel 10 15 i 350, channel 16 20 i 350, channel 30 25 i 350 with
  | inr r, inr g, inr b => Some (r, g, b)
  | _, _, _ => None
  end.

(** Row [i] is within the range of the gradient and not lighter than the
    row below it. *)
Definition prompt_row_ok (i : Z) : bool :=
  match prompt_channels i, prompt_channels (i + 1) with
  | Some (r, g, b), Some (r', g', b') =>
      (10 <=? r) && (r' <=? 24) && (16 <=? g) && (g' <=? 35)
      && (30 <=? b) && (b' <=? 54)
      && (r <=? r') && (g <=? g') && (b <=? b')
  | _, _ => false
  end.

(** An item of the gradient: that is its one tag. *)
Definition gradient_item (i : item) : Prop := tags i = [py "gradient"].

(** No item of the canvas carries the tag [title]. *)
Definition untitled (g : Gui) : Prop :=
  forall i, In i (items g) -> has_tag (py "title") i = false.

(* ===================================================================== *)
(** * Expressions on the display *)
(* ===================================================================== *)

(** ** Integers *)

(** [str] prints the integer [z] on the runtime [rt]: it is within the
    digit limit. *)
Definition printable (rt : Runtime) (z : Z) : Prop :=
  over_digit_limit (int_max_str_digits rt) (PyInt.ndigits z) = false.

(** ** Sums of products *)

(** [f1 × f2 × ...]: the first factor and the others. *)
Definition product := (Z * list Z)%type.

Inductive additive := Plus | Minus.

(** [p1 ± p2 ± ...]: the first product and the others, each with the
    sign before it. *)
Definition sum_of_products := (product * list (additive * product))%type.

Definition sign_char (k : additive) : char :=
  match k with Plus => 43 | Minus => 45 end.

(** The text of a sum, with [times] for the sign of multiplication. *)
Definition factors_text (times : char) (fs : list Z) : pystr :=
  flat_map (fun f => times :: PyInt.to_str f) fs.

Definition product_text (times : char) (p : product) : pystr :=
  PyInt.to_str (fst p) ++ factors_text times (snd p).

Definition summands_text (times : char) (ps : list (additive * product)) : pystr :=
  flat_map (fun kp => sign_char (fst kp) :: product_text times (snd kp)) ps.

Definition sum_text (times : char) (s : sum_of_products) : pystr :=
  product_text times (fst s) ++ summands_text times (snd s).

(** Its value: the products first, then the sums from left to right. *)
Definition product_value (p : product) : Z := fold_left Z.mul (snd p) (fst p).

Definition add_summand (acc : Z) (kp : additive * product) : Z :=
  match fst kp with
  | Plus => acc + product_value (snd kp)
  | Minus => acc - product_value (snd kp)
  end.

Definition sum_value (s : sum_of_products) : Z :=
  fold_left add_summand (snd s) (product_value (fst s)).

(** The numbers written in a sum, and how many operators. *)
Definition numbers_of (p : product) : list Z := fst p :: snd p.

Definition numbers (s : sum_of_products) : list Z :=
  numbers_of (fst s) ++ flat_map (fun kp => numbers_of (snd kp)) (snd s).

Definition operators (s : sum_of_products) : nat := pred (length (numbers s)).

(** The tokens and the syntax tree of a sum. *)
Definition factors_tokens (fs : list Z) : list Eval.token :=
  flat_map (fun f => [Eval.TStar; Eval.TInt f]) fs.

Definition sign_token (k : additive) : Eval.token :=
  match k with Plus => Eval.TPlus | Minus => Eval.TMinus end.

Definition product_tokens (p : product) : list Eval.token :=
  (Eval.TInt (fst p)) :: factors_tokens (snd p).

Definition summands_tokens (ps : list (additive * product)) : list Eval.token :=
  flat_map (fun kp => sign_token (fst kp) :: product_tokens (snd kp)) ps.

Definition times_factor (e : Eval.expr) (f : Z) : Eval.expr :=
  (Eval.BinOp e Eval.Mult (Eval.Constant (VInt f))).

Definition product_tree (p : product) : Eval.expr :=
  fold_left times_factor (snd p) (Eval.Constant (VInt (fst p))).

Definition sign_op (k : additive) : Eval.binop :=
  match k with Plus => Eval.Add | Minus => Eval.Sub end.

Definition plus_summand (e : Eval.expr) (kp : additive * product) : Eval.expr :=
  (Eval.BinOp e (sign_op (fst kp)) (product_tree (snd kp))).

Definition sum_tree (s : sum_of_products) : Eval.expr :=
  fold_left plus_summand (snd s) (product_tree (fst s)).

(** A number ends before [rest]: at the end of the text, or at a
    character that does not go on with the number. *)
Definition ends_number (rest : pystr) : Prop :=
  match rest with
  | [] => True
  | c :: _ => is_ascii_digit c = false /\ c <> 46
  end.

(** A stack on which a product is complete: nothing on top of it binds as
    tightly as [*]. *)
Definition below_products (st : list Eval.frame) : Prop :=
  forall e, Eval.reduce 2 e st = (e, st).

(* ===================================================================== *)
(** * Properties *)
(* ===================================================================== *)

(** ** Strings *)

Lemma str_eqb_eq (a b : pystr) : str_eqb a b = true <-> a = b.
Proof.
  revert b. induction a as [|x a IH]; intros [|y b]; cbn [str_eqb];
    try (split; [discriminate | discriminate]); [tauto|].
  rewrite andb_true_iff, Z.eqb_eq, IH. split.
  - now intros [-> ->].
  - now intros [= -> ->].
Qed.

Lemma str_eqb_refl (a : pystr) : str_eqb a a = true.
Proof. now apply str_eqb_eq. Qed.

(** ** The display and its trace *)

Lemma display_write v a : display (write v a) = v.
Proof. reflexivity. Qed.

Lemma strip_zero_not_code : str_eqb (strip (py "0")) SECRET_CODE = false.
Proof. reflexivity. Qed.

(** The trace does nothing when "0" is written: [clear] is a plain
    write, inside the trace as outside. *)
Lemma clear_is_write a : clear a = write (py "0") a.
Proof.
  unfold clear, set_display, check_secret_code.
  rewrite display_write, strip_zero_not_code. reflexivity.
Qed.

Lemma display_clear a : display (clear a) = py "0".
Proof. now rewrite clear_is_write. Qed.

Lemma dialogs_clear a : dialogs (clear a) = dialogs a.
Proof. now rewrite clear_is_write. Qed.

Lemma prompts_clear a : prompts (clear a) = prompts a.
Proof. now rewrite clear_is_write. Qed.

(** A write whose text is not the code is all that [set] does. *)
Lemma set_display_other v a :
  strip v <> SECRET_CODE -> set_display v a = write v a.
Proof.
  intros H. unfold set_display, check_secret_code. rewrite display_write.
  destruct (str_eqb (strip v) SECRET_CODE) eqn:E; [|reflexivity].
  apply str_eqb_eq in E. contradiction.
Qed.

Lemma set_display_code v a :
  strip v = SECRET_CODE -> set_display v a = open_secret_folder (write v a).
Proof.
  intros H. unfold set_display, check_secret_code. rewrite display_write, H.
  now rewrite str_eqb_refl.
Qed.

(** ** The pattern of [calculate] *)

Lemma in_class_newline rt : Pattern.in_class rt 10 = true.
Proof. unfold Pattern.in_class. now rewrite orb_true_r. Qed.

Lemma more_forallb rt s :
  Pattern.more rt s = forallb (Pattern.in_class rt) s.
Proof.
  induction s as [|c r IH]; [reflexivity|].
  cbn [Pattern.more forallb]. rewrite IH.
  destruct r as [|d r'].
  - cbn. destruct (Z.eqb_spec c 10) as [->|_].
    + now rewrite in_class_newline.
    + now rewrite andb_true_r.
  - reflexivity.
Qed.

(** The pattern matches the non-empty strings made of characters of its
    class, and no other. *)
Lemma matches_iff rt s :
  Pattern.matches rt s = true <->
  s <> [] /\ forallb (Pattern.in_class rt) s = true.
Proof.
  destruct s as [|c r]; cbn [Pattern.matches].
  - split; [discriminate | intros [H _]; congruence].
  - rewrite more_forallb. cbn [forallb]. split.
    + intros H. split; [discriminate | exact H].
    + intros [_ H]. exact H.
Qed.

Lemma matches_false_outside rt s c :
  In c s -> Pattern.in_class rt c = false -> Pattern.matches rt s = false.
Proof.
  intros Hin Hc. destruct (Pattern.matches rt s) eqn:E; [|reflexivity].
  apply matches_iff in E. destruct E as [_ E].
  rewrite forallb_forall in E. specialize (E c Hin). congruence.
Qed.

(** C1, counterexample: the slash is outside the characters the
    specification lists, yet the display 6/2 is evaluated: [=] shows 3 and
    no error. *)
Lemma C1_slash_is_accepted :
  ~ C1_as_stated example_runtime (write (py "6/2") (App_init fresh_disk)).
Proof.
  intros H.
  assert (E : rejects_as_invalid example_runtime
                (write (py "6/2") (App_init fresh_disk))).
  { apply H. exists 47. split; [right; left; reflexivity | reflexivity]. }
  destruct E as [_ E]. vm_compute in E. discriminate E.
Qed.

(** C1, amended: a display with a character outside the class of the
    pattern (the claimed characters and the slash) is rejected with the
    invalid-characters error, and the display is reset to "0". *)
Theorem C1_invalid_character_rejected rt a c :
  In c (display a) ->
  Pattern.in_class rt c = false ->
  rejects_as_invalid rt a.
Proof.
  intros Hin Hc. unfold rejects_as_invalid, calculate.
  rewrite (matches_false_outside rt _ c Hin Hc). cbn [negb].
  now rewrite display_clear, dialogs_clear.
Qed.

Lemma C1_invalid_character_rejected_witness :
  rejects_as_invalid example_runtime (write (py "2a") (App_init fresh_disk)).
Proof.
  apply (C1_invalid_character_rejected example_runtime
           (write (py "2a") (App_init fresh_disk)) 97).
  - right; left; reflexivity.
  - reflexivity.
Defined.

(** The class of the pattern is the claimed set and the slash. *)
Lemma in_class_claimed rt c :
  Pattern.in_class rt c = claimed_permitted rt c || (c =? 47).
Proof.
  unfold Pattern.in_class, claimed_permitted.
  destruct (is_ascii_digit c), (unicode_decimal rt c), (c =? 43), (c =? 45),
    (c =? MULTIPLICATION_SIGN), (c =? DIVISION_SIGN), (c =? 47), (c =? 40),
    (c =? 41), (c =? 46), (is_space c); reflexivity.
Qed.

(** ** The secret code and the prompt *)

Lemma hash_default : hash_password DEFAULT_PASSWORD = Some default_hash.
Proof. vm_compute. reflexivity. Qed.

Lemma open_secret_folder_ready a text :
  credential (fs a) = Some text ->
  prompts (open_secret_folder a) = PasswordWindow_init (strip text) 3 :: prompts a
  /\ display (open_secret_folder a) = py "0".
Proof.
  unfold credential, open_secret_folder.
  destruct (secret_folder (fs a)) as [|[t|]]; [discriminate | |].
  - destruct (can_read (fs a)); [|discriminate].
    intros [= ->]. split; reflexivity.
  - rewrite hash_default. destruct (can_write (fs a)); [|discriminate].
    cbn [andb set_fs fs with_folder can_read].
    destruct (can_read (fs a)); [|discriminate].
    intros [= <-]. split; reflexivity.
Qed.

Lemma open_secret_folder_aborts a :
  credential (fs a) = None ->
  prompts (open_secret_folder a) = prompts a
  /\ display (open_secret_folder a) = display a.
Proof.
  unfold credential, open_secret_folder.
  destruct (secret_folder (fs a)) as [|[t|]].
  - intros _. split; reflexivity.
  - destruct (can_read (fs a)); [discriminate|]. intros _. split; reflexivity.
  - rewrite hash_default. destruct (can_write (fs a)).
    + cbn [andb set_fs fs with_folder can_read].
      destruct (can_read (fs a)); [discriminate|]. intros _. split; reflexivity.
    + intros _. split; reflexivity.
Qed.

(** The read that fails: with the password file in place and not
    readable, the exception leaves the trace; no prompt, no message box,
    and the display is left as it was written. *)
Lemma open_secret_folder_unreadable a text :
  secret_folder (fs a) = Present (Some text) -> can_read (fs a) = false ->
  open_secret_folder a = raise_out_of_trace ReadError a.
Proof. intros F R. unfold open_secret_folder. now rewrite F, R. Qed.

(** C2, counterexample: started on a disk where the folder cannot be
    made, the program has no secret folder; writing the code then shows an
    error box, opens no prompt and leaves the code on the display. *)
Lemma C2_no_prompt_without_folder :
  ~ C2_as_stated (App_init readonly_disk) SECRET_CODE.
Proof.
  intros [H _]. assert (E : strip SECRET_CODE = SECRET_CODE) by reflexivity.
  destruct (H E) as [_ D]. vm_compute in D. discriminate D.
Qed.

(** The other way for the code to open no prompt: the password file is
    there and cannot be read.  The exception of the read leaves the trace
    before the display is cleared: the code stays on the display, no
    prompt is opened and no message box is shown. *)
Lemma no_prompt_on_unreadable_file v a text :
  strip v = SECRET_CODE ->
  secret_folder (fs a) = Present (Some text) -> can_read (fs a) = false ->
  set_display v a = raise_out_of_trace ReadError (write v a).
Proof.
  intros Hv F R. rewrite (set_display_code v a Hv).
  now apply (open_secret_folder_unreadable (write v a) text).
Qed.

(** C2, amended: when the display, trimmed, becomes the code 69÷69 and
    the stored credential can be read (the secret folder exists, its
    password file exists or can be written, and opening and reading the
    file succeed), a prompt is opened on the trimmed text of the file
    with 3 attempts and the display is reset to "0"; a display that is
    not the code, trimmed, opens no prompt: the write is all that
    happens. *)
Theorem C2_code_opens_prompt a v text :
  strip v = SECRET_CODE ->
  credential (fs a) = Some text ->
  (prompts (set_display v a) = PasswordWindow_init (strip text) 3 :: prompts a
   /\ display (set_display v a) = py "0")
  /\ (forall b u, strip u <> SECRET_CODE -> set_display u b = write u b).
Proof.
  intros Hv Hc. split.
  - rewrite (set_display_code v a Hv).
    apply (open_secret_folder_ready (write v a) text Hc).
  - intros b u Hu. apply set_display_other, Hu.
Qed.

Lemma C2_code_opens_prompt_witness :
  let a := App_init fresh_disk in
  (prompts (set_display SECRET_CODE a) = [PasswordWindow_init default_hash 3]
   /\ display (set_display SECRET_CODE a) = py "0")
  /\ (forall b u, strip u <> SECRET_CODE -> set_display u b = write u b).
Proof.
  apply (C2_code_opens_prompt (App_init fresh_disk) SECRET_CODE default_hash);
    reflexivity.
Defined.

(** ** The password prompt *)

(** C3: on an open prompt with at least one attempt left, a password whose
    hash is the stored hash moves the gate to [Granted], runs the reveal
    callback once, and closes the prompt. *)
Theorem C3_correct_password_grants w password :
  alive w = true ->
  1 <= max_attempts w - attempts w ->
  hash_password password = Some (stored_hash w) ->
  gate_of (verify w password) = Granted
  /\ callback_calls (verify w password) = S (callback_calls w)
  /\ alive (verify w password) = false.
Proof.
  intros _ _ H. unfold verify, verify_on, verify_password.
  cbn [count_attempt stored_hash]. rewrite H. cbn [option_map].
  rewrite str_eqb_refl. repeat split.
Qed.

Lemma C3_correct_password_grants_witness :
  let w := PasswordWindow_init default_hash 3 in
  gate_of (verify w DEFAULT_PASSWORD) = Granted
  /\ callback_calls (verify w DEFAULT_PASSWORD) = 1%nat
  /\ alive (verify w DEFAULT_PASSWORD) = false.
Proof.
  apply (C3_correct_password_grants (PasswordWindow_init default_hash 3)
           DEFAULT_PASSWORD).
  - reflexivity.
  - cbn. lia.
  - exact hash_default.
Defined.

(** A wrong password, on a window of the class the program gives it: the
    attempt is counted, then [itemconfig] is missing and the handler is
    left; no box is shown and the window stays. *)
Lemma verify_wrong_password w password :
  verify_password (stored_hash w) password = Some false ->
  verify w password = raise_out AttributeError (count_attempt w).
Proof.
  intros H. unfold verify, verify_on. cbn [count_attempt stored_hash].
  rewrite H. reflexivity.
Qed.

(** C4, on the code: after three wrong passwords on a fresh prompt with 3
    attempts, no denial was shown and the prompt is still open, with the
    gate in [PromptOpen]; a fourth submission with the right password is
    granted. *)
Theorem C4_three_wrong_passwords_keep_prompt_open :
  let w3 := session (PasswordWindow_init default_hash 3)
                    [py "a"; py "b"; py "c"] in
  attempts w3 = 3 /\ alive w3 = true /\ gate_of w3 = PromptOpen
  /\ shown w3 = []
  /\ escaped w3 = [AttributeError; AttributeError; AttributeError]
  /\ callback_calls w3 = 0%nat
  /\ gate_of (verify w3 DEFAULT_PASSWORD) = Granted.
Proof. vm_compute. repeat split. Qed.

(** Had the window been a [Canvas], as the call to [itemconfig] takes it
    to be, the third wrong password would have closed it. *)
Lemma three_wrong_passwords_on_canvas :
  let w3 := fold_left (verify_on Canvas) [py "a"; py "b"; py "c"]
                      (PasswordWindow_init default_hash 3) in
  alive w3 = false /\ gate_of w3 = Idle /\ callback_calls w3 = 0%nat
  /\ shown w3 = [WarnWrongPassword 2; WarnWrongPassword 1; ErrAccessDenied].
Proof. vm_compute. repeat split. Qed.

(** ** The credential file *)

(** C5: after a first run with no password file, where the folder exists
    or can be made and the file can be written, the password file holds
    the hexadecimal SHA-256 of the default password "subscribe". *)
Theorem C5_first_run_stores_default_hash fs0 :
  password_file_exists fs0 = false ->
  folder_exists fs0 = true \/ can_mkdir fs0 = true ->
  can_write fs0 = true ->
  secret_folder (fs (App_init fs0)) = Present (Some default_hash)
  /\ hash_password (py "subscribe") = Some default_hash
  /\ Some default_hash
     = option_map Sha256.hexdigest (Utf8.encode (py "subscribe")).
Proof.
  intros Hfile Hdir Hw. split; [| split; [exact hash_default | symmetry; exact hash_default]].
  unfold App_init, create_hidden_folder.
  unfold password_file_exists, folder_exists in *.
  destruct fs0 as [[|[t|]] mk wr]; cbn [secret_folder can_mkdir can_write] in *.
  - destruct Hdir as [Hdir|Hdir]; [discriminate|]. subst mk wr.
    cbn [with_folder secret_folder andb negb password_file_exists can_write
         can_mkdir].
    rewrite hash_default. reflexivity.
  - discriminate.
  - subst wr. cbn [with_folder secret_folder andb negb can_write can_mkdir].
    rewrite hash_default. reflexivity.
Qed.

Lemma C5_first_run_stores_default_hash_witness :
  secret_folder (fs (App_init fresh_disk)) = Present (Some default_hash)
  /\ hash_password (py "subscribe") = Some default_hash
  /\ Some default_hash
     = option_map Sha256.hexdigest (Utf8.encode (py "subscribe")).
Proof.
  apply (C5_first_run_stores_default_hash fresh_disk).
  - reflexivity.
  - right. reflexivity.
  - reflexivity.
Defined.

(** ** Glyph substitution *)

Lemma replace_app old new s t :
  replace old new (s ++ t) = replace old new s ++ replace old new t.
Proof.
  induction s as [|c r IH]; [reflexivity|].
  cbn [replace app]. now rewrite IH, app_assoc.
Qed.

(** The two calls of [replace] in [calculate] are that substitution. *)
Lemma replace_is_substitution s :
  replace DIVISION_SIGN (py "/") (replace MULTIPLICATION_SIGN (py "*") s)
  = substitute_glyphs s.
Proof.
  induction s as [|c r IH]; [reflexivity|].
  cbn [replace substitute_glyphs map]. rewrite replace_app, IH.
  unfold substitute_glyphs.
  destruct (Z.eqb_spec c MULTIPLICATION_SIGN) as [->|Hm]; [reflexivity|].
  cbn [replace app]. destruct (c =? DIVISION_SIGN); reflexivity.
Qed.

Lemma calculate_valid rt a :
  Pattern.matches rt (display a) = true ->
  calculate rt a = show_result rt (py_eval rt (substitute_glyphs (display a))) a.
Proof.
  intros H. unfold calculate. rewrite H. cbn [negb].
  now rewrite replace_is_substitution.
Qed.

Lemma claimed_in_class rt s :
  forallb (claimed_permitted rt) s = true ->
  forallb (Pattern.in_class rt) s = true.
Proof.
  rewrite !forallb_forall. intros H c Hc.
  rewrite in_class_claimed, (H c Hc). reflexivity.
Qed.

Lemma py_eval_empty rt : py_eval rt [] = Raise SyntaxError.
Proof. reflexivity. Qed.

(** C6: for a display made of permitted characters only, [=] shows what
    evaluating the substituted arithmetic form shows; on a non-empty
    display the whole outcome (display, message boxes, prompts) is the one
    of that evaluation.  The substitution keeps the length and every
    character other than the two glyphs. *)
Theorem C6_substitution_purity rt a :
  forallb (claimed_permitted rt) (display a) = true ->
  display (calculate rt a)
  = display (show_result rt (py_eval rt (substitute_glyphs (display a))) a)
  /\ (display a <> [] ->
      calculate rt a
      = show_result rt (py_eval rt (substitute_glyphs (display a))) a)
  /\ length (substitute_glyphs (display a)) = length (display a)
  /\ (forall i c, nth_error (display a) i = Some c ->
        c <> MULTIPLICATION_SIGN -> c <> DIVISION_SIGN ->
        nth_error (substitute_glyphs (display a)) i = Some c).
Proof.
  intros H. apply claimed_in_class in H.
  assert (V : display a <> [] ->
              calculate rt a
              = show_result rt (py_eval rt (substitute_glyphs (display a))) a).
  { intros Hne. apply calculate_valid, matches_iff. now split. }
  split; [|split; [exact V|split]].
  - destruct (display a) as [|c r] eqn:E.
    + unfold calculate. rewrite E. cbn [Pattern.matches negb substitute_glyphs map].
      rewrite py_eval_empty. cbn [show_result handle].
      now rewrite !display_clear.
    + rewrite <- E in *. rewrite V; [reflexivity|]. rewrite E. discriminate.
  - apply length_map.
  - intros i c Hi Hm Hd. unfold substitute_glyphs.
    rewrite (map_nth_error _ _ _ Hi).
    destruct (Z.eqb_spec c MULTIPLICATION_SIGN); [contradiction|].
    destruct (Z.eqb_spec c DIVISION_SIGN); [contradiction|reflexivity].
Qed.

Lemma C6_substitution_purity_witness :
  let a := write (py "2×3") (App_init fresh_disk) in
  display (calculate example_runtime a)
  = display (show_result example_runtime
               (py_eval example_runtime (substitute_glyphs (display a))) a)
  /\ (display a <> [] ->
      calculate example_runtime a
      = show_result example_runtime
          (py_eval example_runtime (substitute_glyphs (display a))) a)
  /\ length (substitute_glyphs (display a)) = length (display a)
  /\ (forall i c, nth_error (display a) i = Some c ->
        c <> MULTIPLICATION_SIGN -> c <> DIVISION_SIGN ->
        nth_error (substitute_glyphs (display a)) i = Some c).
Proof.
  apply (C6_substitution_purity example_runtime
           (write (py "2×3") (App_init fresh_disk))).
  reflexivity.
Defined.

(** ** Key presses *)

Lemma contains_single s c : contains s [c] = existsb (fun d => c =? d) s.
Proof.
  induction s as [|d r IH]; [reflexivity|].
  cbn [contains is_prefix existsb]. rewrite IH.
  now rewrite andb_true_r.
Qed.

Lemma In_lstrip c s : In c (lstrip s) -> In c s.
Proof.
  induction s as [|d r IH]; [easy|].
  cbn [lstrip]. destruct (is_space d); [right; auto | easy].
Qed.

Lemma In_strip c s : In c (strip s) -> In c s.
Proof.
  unfold strip. intros H.
  apply in_rev, In_lstrip, in_rev, In_lstrip in H. exact H.
Qed.

(** A text without the division sign is not the code, trimmed or not. *)
Lemma strip_not_code s : ~ In DIVISION_SIGN s -> strip s <> SECRET_CODE.
Proof.
  intros H E. apply H, In_strip. rewrite E. right; right; left; reflexivity.
Qed.

Lemma length_lstrip s : (length (lstrip s) <= length s)%nat.
Proof.
  induction s as [|d r IH]; [reflexivity|].
  cbn [lstrip]. destruct (is_space d); cbn [length]; lia.
Qed.

Lemma length_strip s : (length (strip s) <= length s)%nat.
Proof.
  unfold strip. rewrite length_rev.
  etransitivity; [apply length_lstrip|]. rewrite length_rev.
  apply length_lstrip.
Qed.

Lemma short_not_code s : (length s < 5)%nat -> strip s <> SECRET_CODE.
Proof.
  intros H E. pose proof (length_strip s) as L. rewrite E in L.
  cbn in L. lia.
Qed.

Lemma display_set_display v a :
  display (set_display v a)
  = if str_eqb (strip v) SECRET_CODE && readable (fs a) then py "0" else v.
Proof.
  destruct (str_eqb (strip v) SECRET_CODE) eqn:E; cbn [andb].
  - apply str_eqb_eq in E. rewrite (set_display_code v a E).
    unfold readable. change (fs a) with (fs (write v a)).
    destruct (credential (fs (write v a))) as [t|] eqn:C.
    + apply (open_secret_folder_ready _ t C).
    + apply (open_secret_folder_aborts _ C).
  - rewrite set_display_other; [reflexivity|].
    intros F. apply str_eqb_eq in F. congruence.
Qed.

Lemma append_to_display_char a c :
  append_to_display [c] a
  = set_display (appended a c)
      (if str_eqb (display a) (py "0") && negb (is_operator c)
       then write [] a else a).
Proof.
  unfold append_to_display, appended, is_operator.
  rewrite contains_single.
  destruct (str_eqb (display a) (py "0") && negb (existsb (fun d => c =? d) OPERATORS)).
  - rewrite (set_display_other [] a) by (apply short_not_code; cbn; lia).
    reflexivity.
  - reflexivity.
Qed.

Lemma display_append_to_display a c :
  display (append_to_display [c] a)
  = (if str_eqb (strip (appended a c)) SECRET_CODE && readable (fs a)
     then py "0" else appended a c).
Proof.
  rewrite append_to_display_char, display_set_display.
  destruct (str_eqb (display a) (py "0") && negb (is_operator c)); reflexivity.
Qed.

Lemma prompts_set_display v a :
  prompts (set_display v a)
  = if str_eqb (strip v) SECRET_CODE
    then match credential (fs a) with
         | Some text => PasswordWindow_init (strip text) 3 :: prompts a
         | None => prompts a
         end
    else prompts a.
Proof.
  destruct (str_eqb (strip v) SECRET_CODE) eqn:E.
  - apply str_eqb_eq in E. rewrite (set_display_code v a E).
    change (fs a) with (fs (write v a)).
    destruct (credential (fs (write v a))) as [t|] eqn:C.
    + apply (open_secret_folder_ready _ t C).
    + apply (open_secret_folder_aborts _ C).
  - rewrite set_display_other; [reflexivity|].
    intros F. apply str_eqb_eq in F. congruence.
Qed.

Lemma prompts_append_to_display a c :
  prompts (append_to_display [c] a)
  = if str_eqb (strip (appended a c)) SECRET_CODE
    then match credential (fs a) with
         | Some text => PasswordWindow_init (strip text) 3 :: prompts a
         | None => prompts a
         end
    else prompts a.
Proof.
  rewrite append_to_display_char, prompts_set_display.
  destruct (str_eqb (display a) (py "0") && negb (is_operator c)); reflexivity.
Qed.

(** C10, counterexample: with 69÷6 on the display, pressing 9 makes the
    code; the prompt opens and the display reads "0", not 69÷69. *)
Lemma C10_last_key_of_the_code :
  ~ C10_as_stated (write (py "69÷6") (App_init fresh_disk)) 57.
Proof. intros H. vm_compute in H. discriminate H. Qed.

(** C10, amended: pressing [c] on a display that is exactly "0", with [c]
    none of [+ - × ÷ ( )], leaves just [c] (so [.] gives "." and not
    "0."); otherwise [c] is appended to the display, except that when the
    result, trimmed, is the code 69÷69 and the stored credential can be
    read (the secret folder exists, its password file exists or can be
    written, and opening and reading the file succeed), the write trace
    opens the password prompt, on the trimmed text of the file with 3
    attempts, and the display is reset to "0".  In every other case no
    prompt is opened. *)
Theorem C10_append_to_display a c :
  display (append_to_display [c] a)
  = (if str_eqb (strip (appended a c)) SECRET_CODE && readable (fs a)
     then py "0" else appended a c)
  /\ prompts (append_to_display [c] a)
     = (if str_eqb (strip (appended a c)) SECRET_CODE
        then match credential (fs a) with
             | Some text => PasswordWindow_init (strip text) 3 :: prompts a
             | None => prompts a
             end
        else prompts a)
  /\ (str_eqb (display a) (py "0") && negb (is_operator c) = true ->
      display (append_to_display [c] a) = [c])
  /\ display (append_to_display [46] (write (py "0") a)) = py ".".
Proof.
  split; [apply display_append_to_display|].
  split; [apply prompts_append_to_display | split].
  - intros Hz. rewrite display_append_to_display. unfold appended. rewrite Hz.
    destruct (str_eqb (strip [c]) SECRET_CODE) eqn:F; [|reflexivity].
    apply str_eqb_eq in F. exfalso. revert F. apply short_not_code. cbn. lia.
  - rewrite display_append_to_display. reflexivity.
Qed.

Lemma C10_append_to_display_witness :
  display (append_to_display [55] (App_init fresh_disk)) = py "7".
Proof.
  apply (proj1 (proj2 (proj2 (C10_append_to_display (App_init fresh_disk) 55)))).
  reflexivity.
Defined.

(** ** Division by zero *)



Lemma py_eval_model rt s e :
  Eval.in_model s = true ->
  Eval.parse (Eval.lex (int_max_str_digits rt) s) = Some e ->
  forall o, Eval.eval_expr e = Some o -> py_eval rt s = o.
Proof.
  intros Hm Hp o Ho. unfold py_eval, Eval.model. now rewrite Hm, Hp, Ho.
Qed.









(** ** The text of a result *)

Lemma plain_not_code s : plain s -> strip s <> SECRET_CODE.
Proof.
  intros H. apply strip_not_code. intros Hin.
  unfold plain in H. rewrite Forall_forall in H.
  specialize (H _ Hin). unfold DIVISION_SIGN in H. lia.
Qed.

Lemma integral_chars_of_uint d : integral_text (PyInt.chars_of_uint d).
Proof.
  induction d; cbn [PyInt.chars_of_uint]; constructor; try assumption; lia.
Qed.

Lemma integral_to_str z : integral_text (PyInt.to_str z).
Proof.
  destruct z; cbn [PyInt.to_str].
  - constructor; [lia | constructor].
  - apply integral_chars_of_uint.
  - constructor; [lia | apply integral_chars_of_uint].
Qed.

Lemma integral_plain s : integral_text s -> plain s.
Proof. apply Forall_impl. intros c [->|H]; lia. Qed.

(** The text of an integer has no decimal point. *)
Lemma to_str_no_point z : ~ In 46 (PyInt.to_str z).
Proof.
  intros H. pose proof (integral_to_str z) as F.
  unfold integral_text in F. rewrite Forall_forall in F.
  specialize (F _ H). lia.
Qed.

Lemma plain_app s t : plain s -> plain t -> plain (s ++ t).
Proof. intros; apply Forall_app; now split. Qed.

Lemma plain_sub s t : (forall c, In c s -> In c t) -> plain t -> plain s.
Proof.
  unfold plain. rewrite !Forall_forall. intros H F c Hc. apply F, H, Hc.
Qed.

Lemma In_strip_zeros_rev c s : In c (PyFloat.strip_zeros_rev s) -> In c s.
Proof.
  induction s as [|d r IH]; [easy|].
  cbn [PyFloat.strip_zeros_rev]. destruct (d =? 48); [right; auto | easy].
Qed.

Lemma In_firstn c n (s : pystr) : In c (firstn n s) -> In c s.
Proof.
  intros H. rewrite <- (firstn_skipn n s). apply in_or_app. now left.
Qed.

Lemma In_skipn c n (s : pystr) : In c (skipn n s) -> In c s.
Proof.
  intros H. rewrite <- (firstn_skipn n s). apply in_or_app. now right.
Qed.

Lemma plain_zeros n : plain (PyFloat.zeros n).
Proof.
  unfold plain, PyFloat.zeros. rewrite Forall_forall. intros c H.
  apply repeat_spec in H. lia.
Qed.

Lemma plain_format_repr ds decpt :
  plain ds -> plain (PyFloat.format_repr ds decpt).
Proof.
  intros H. unfold PyFloat.format_repr.
  destruct ((decpt <=? -4) || (16 <? decpt)).
  - repeat apply plain_app.
    + destruct ds as [|d [|d' r]]; [constructor | exact H |].
      inversion H as [|? ? Hd Hr]; subst.
      constructor; [exact Hd | constructor; [lia | exact Hr]].
    + constructor; [lia | constructor].
    + destruct (decpt - 1 <? 0); (constructor; [lia | constructor]).
    + destruct (Z.abs (decpt - 1) <? 10); [constructor; [lia|constructor] | constructor].
    + apply integral_plain, integral_to_str.
  - destruct (decpt <=? 0).
    + repeat apply plain_app; [repeat (constructor; try lia) | apply plain_zeros | exact H].
    + destruct (Z.of_nat (length ds) <=? decpt).
      * repeat apply plain_app;
          [exact H | apply plain_zeros | repeat (constructor; try lia)].
      * repeat apply plain_app.
        -- apply (plain_sub _ ds); [intros c; apply In_firstn | exact H].
        -- constructor; [lia | constructor].
        -- apply (plain_sub _ ds); [intros c; apply In_skipn | exact H].
Qed.

Lemma plain_shortest_digits m e : plain (fst (PyFloat.shortest_digits m e)).
Proof.
  unfold PyFloat.shortest_digits.
  destruct (PyFloat.ratio m e) as [n d].
  destruct (PyFloat.first_candidate _ _ _ _) as [q i]. cbn [fst].
  apply (plain_sub _ (PyInt.to_str q)).
  - intros c H. apply in_rev, In_strip_zeros_rev, in_rev in H. exact H.
  - apply integral_plain, integral_to_str.
Qed.

Lemma plain_sign s : plain (PyFloat.sign_prefix s).
Proof. destruct s; repeat (constructor; try lia). Qed.

(** The text of a float is made of ASCII characters. *)
Lemma plain_repr f : plain (PyFloat.repr f).
Proof.
  destruct f as [s|s| |s m e]; cbn [PyFloat.repr].
  - apply plain_app; [apply plain_sign | repeat (constructor; try lia)].
  - apply plain_app; [apply plain_sign | repeat (constructor; try lia)].
  - repeat (constructor; try lia).
  - pose proof (plain_shortest_digits m e) as H.
    destruct (PyFloat.shortest_digits m e) as [ds decpt]. cbn [fst] in H.
    apply plain_app; [apply plain_sign | now apply plain_format_repr].
Qed.

Lemma display_set_plain t a : plain t -> display (set_display t a) = t.
Proof.
  intros H. now rewrite set_display_other by now apply plain_not_code.
Qed.

(** C8, counterexample: three points are Python's [...]; the evaluation
    succeeds, its result is the object [Ellipsis], neither an integer nor
    a number to round, and the display reads Ellipsis. *)
Lemma C8_ellipsis_is_displayed :
  ~ C8_as_stated example_runtime (write (py "...") (App_init fresh_disk)).
Proof.
  intros H.
  specialize (H VEllipsis (py "Ellipsis")).
  assert (S : successful example_runtime
                (write (py "...") (App_init fresh_disk)) VEllipsis (py "Ellipsis"))
    by (repeat split).
  specialize (H S). discriminate H.
Qed.

Lemma calculate_successful rt a v t :
  successful rt a v t -> calculate rt a = set_display t a.
Proof.
  intros (Hm & He & Hs). rewrite (calculate_valid rt a Hm), He.
  cbn [show_result]. now rewrite Hs.
Qed.

Lemma py_str_int rt z t :
  py_str rt (VInt z) = Text t -> t = PyInt.to_str z.
Proof.
  cbn [py_str]. destruct (over_digit_limit _ _); [discriminate|]. now intros [= <-].
Qed.

(** C8, amended: after a successful evaluation, an [int] result is
    displayed as its decimal text and a [float] with an integral value as
    the text of that integer, both without a decimal point; any other
    [float] is displayed as the text of the float rounded to 10 decimal
    places; a result that is no number is displayed as [str] prints it. *)
Theorem C8_result_normalisation rt a v t :
  successful rt a v t ->
  match v with
  | VInt z =>
      display (calculate rt a) = PyInt.to_str z /\ ~ In 46 (PyInt.to_str z)
  | VFloat f =>
      if PyFloat.is_integer f
      then display (calculate rt a) = PyInt.to_str (PyFloat.to_int f)
           /\ ~ In 46 (PyInt.to_str (PyFloat.to_int f))
      else display (calculate rt a) = PyFloat.repr (PyFloat.round10 f)
  | _ => py_str rt v = Text t /\ calculate rt a = set_display t a
  end.
Proof.
  intros S. pose proof (calculate_successful rt a v t S) as C.
  destruct S as (_ & _ & Hs). rewrite C.
  destruct v as [z|f| | |x]; cbn [normalise] in Hs.
  - apply py_str_int in Hs. subst t. split; [|apply to_str_no_point].
    apply display_set_plain, integral_plain, integral_to_str.
  - destruct (PyFloat.is_integer f).
    + apply py_str_int in Hs. subst t. split; [|apply to_str_no_point].
      apply display_set_plain, integral_plain, integral_to_str.
    + cbn [py_str] in Hs. injection Hs as <-.
      apply display_set_plain, plain_repr.
  - now split.
  - now split.
  - now split.
Qed.

Lemma C8_result_normalisation_witness :
  display (calculate example_runtime (write (py "1÷3") (App_init fresh_disk)))
  = py "0.3333333333".
Proof.
  apply (C8_result_normalisation example_runtime
           (write (py "1÷3") (App_init fresh_disk))
           (VFloat (PyFloat.of_ratio false 1 3)) (py "0.3333333333")).
  repeat split.
Defined.

(** ** The display along a run of key presses *)

(** C9, counterexample: the keys [. . . =] leave Ellipsis on the
    display, whose letters are none of the characters of the keys. *)
Lemma C9_letters_on_the_display :
  ~ C9_as_stated example_runtime fresh_disk [py "."; py "."; py "."; py "="].
Proof.
  intros H.
  assert (K : forall k, In k [py "."; py "."; py "."; py "="] -> is_key k).
  { intros k Hk. unfold is_key.
    repeat (destruct Hk as [<-|Hk]; [vm_compute; tauto|]). destruct Hk. }
  destruct (H K) as [D _]. vm_compute in D. discriminate D.
Qed.

Lemma display_handle e a : display (handle e a) = py "0".
Proof. destruct e; cbn [handle]; apply display_clear. Qed.

Lemma calculate_fails rt a :
  evaluation_fails rt a -> display (calculate rt a) = py "0".
Proof.
  intros H. destruct (Pattern.matches rt (display a)) eqn:M.
  - rewrite (calculate_valid rt a M).
    destruct H as [H | [[e H] | (v & e & H & S)]]; [congruence | |].
    + rewrite H. apply display_handle.
    + rewrite H. cbn [show_result]. rewrite S. apply display_handle.
  - unfold calculate. rewrite M. apply display_clear.
Qed.

Lemma over_keypad_app s t :
  over_keypad s = true -> over_keypad t = true -> over_keypad (s ++ t) = true.
Proof. unfold over_keypad. rewrite forallb_app. now intros -> ->. Qed.

Lemma over_keypad_set_display v a :
  over_keypad v = true -> over_keypad (display (set_display v a)) = true.
Proof.
  intros H. rewrite display_set_display.
  destruct (str_eqb (strip v) SECRET_CODE && readable (fs a)); [reflexivity | exact H].
Qed.

Lemma over_keypad_append a c :
  over_keypad (display a) = true -> keypad_char c = true ->
  over_keypad (display (append_to_display [c] a)) = true.
Proof.
  intros Ha Hc. rewrite append_to_display_char.
  apply over_keypad_set_display. unfold appended.
  destruct (str_eqb (display a) (py "0") && negb (is_operator c)).
  - cbn. now rewrite Hc.
  - apply over_keypad_app; [exact Ha | cbn; now rewrite Hc].
Qed.

Lemma over_keypad_calculate rt a :
  result_over_keypad rt a -> over_keypad (display (calculate rt a)) = true.
Proof.
  intros R. destruct (Pattern.matches rt (display a)) eqn:M.
  - destruct (py_eval rt (substitute_glyphs (display a))) as [v|e] eqn:E.
    + destruct (py_str rt (normalise v)) as [t|e] eqn:S.
      * assert (Su : successful rt a v t) by (repeat split; assumption).
        rewrite (calculate_successful rt a v t Su).
        apply over_keypad_set_display, (R v t Su).
      * rewrite calculate_fails; [reflexivity|].
        right; right. now exists v, e.
    + rewrite calculate_fails; [reflexivity|]. right; left. now exists e.
  - rewrite calculate_fails; [reflexivity | now left].
Qed.

(** The keys: [C], [=], and one character each for the others. *)
Lemma key_cases k :
  is_key k ->
  k = py "C" \/ k = py "="
  \/ exists c, k = [c] /\ keypad_char c = true
               /\ str_eqb [c] (py "C") = false /\ str_eqb [c] (py "=") = false.
Proof.
  unfold is_key. cbn [buttons concat app]. intros H.
  repeat (destruct H as [<-|H];
          [first [ left; reflexivity
                 | right; left; reflexivity
                 | right; right; eexists; repeat split; reflexivity ] |]).
  destruct H.
Qed.

Lemma over_keypad_command rt k a :
  is_key k -> over_keypad (display a) = true ->
  (k = py "=" -> result_over_keypad rt a) ->
  over_keypad (display (command rt k a)) = true.
Proof.
  intros Hk Ha Hr.
  destruct (key_cases k Hk) as [-> | [-> | (c & -> & Hc & H1 & H2)]].
  - change (command rt (py "C") a) with (clear a). now rewrite display_clear.
  - change (command rt (py "=") a) with (calculate rt a).
    apply over_keypad_calculate, Hr. reflexivity.
  - unfold command. rewrite H1, H2. now apply over_keypad_append.
Qed.

Lemma over_keypad_press rt keys : forall a,
  over_keypad (display a) = true ->
  (forall k, In k keys -> is_key k) ->
  results_over_keypad rt keys a ->
  over_keypad (display (press rt keys a)) = true.
Proof.
  induction keys as [|k r IH]; intros a Ha Hk Hr; [exact Ha|].
  cbn [results_over_keypad] in Hr. destruct Hr as [Hr1 Hr2].
  change (press rt (k :: r) a) with (press rt r (command rt k a)).
  apply IH.
  - apply over_keypad_command; [apply Hk; now left | exact Ha | exact Hr1].
  - intros k' Hk'. apply Hk. now right.
  - exact Hr2.
Qed.

(** An integer result is always such a text. *)
Lemma over_keypad_integer z : over_keypad (PyInt.to_str z) = true.
Proof.
  unfold over_keypad. apply forallb_forall. intros c Hc.
  pose proof (integral_to_str z) as F. unfold integral_text in F.
  rewrite Forall_forall in F. destruct (F c Hc) as [->|H]; [reflexivity|].
  unfold keypad_char, is_ascii_digit.
  replace (48 <=? c) with true by (symmetry; apply Z.leb_le; lia).
  replace (c <=? 57) with true by (symmetry; apply Z.leb_le; lia).
  reflexivity.
Qed.

(** C9, amended: along a run of key presses in which the text of every
    evaluation result is drawn from digits, the four operator glyphs,
    parentheses and the decimal point (as the text of an integer is), the
    display stays a string drawn from those characters; and in any state
    the display is "0" after clear and after an evaluation that fails. *)
Theorem C9_display_invariant rt keys a :
  over_keypad (display a) = true ->
  (forall k, In k keys -> is_key k) ->
  results_over_keypad rt keys a ->
  over_keypad (display (press rt keys a)) = true
  /\ (forall b, display (clear b) = py "0")
  /\ (forall b, evaluation_fails rt b -> display (calculate rt b) = py "0").
Proof.
  intros Ha Hk Hr. split; [|split].
  - now apply over_keypad_press.
  - apply display_clear.
  - apply calculate_fails.
Qed.

Lemma successful_unique rt a v t v' t' :
  successful rt a v t -> successful rt a v' t' -> t = t'.
Proof.
  intros (_ & E & S) (_ & E' & S'). congruence.
Qed.

Lemma C9_display_invariant_witness :
  over_keypad
    (display (press example_runtime [py "2"; py "+"; py "2"; py "="]
                    (App_init fresh_disk))) = true
  /\ (forall b, display (clear b) = py "0")
  /\ (forall b, evaluation_fails example_runtime b ->
                display (calculate example_runtime b) = py "0").
Proof.
  apply (C9_display_invariant example_runtime
           [py "2"; py "+"; py "2"; py "="] (App_init fresh_disk)).
  - reflexivity.
  - intros k Hk. unfold is_key.
    repeat (destruct Hk as [<-|Hk]; [vm_compute; tauto|]). destruct Hk.
  - cbn [results_over_keypad]. repeat split; try discriminate.
    intros _ v t S.
    assert (S4 : successful example_runtime
                   (command example_runtime (py "2")
                      (command example_runtime (py "+")
                         (command example_runtime (py "2") (App_init fresh_disk))))
                   (VInt 4) (py "4")) by (repeat split).
    rewrite (successful_unique _ _ _ _ _ _ S S4). reflexivity.
Defined.

(** ** Further facts on the password prompt *)

Lemma stored_hash_session pws : forall w,
  stored_hash (session w pws) = stored_hash w.
Proof.
  induction pws as [|p r IH]; intros w; [reflexivity|].
  change (session w (p :: r)) with (session (verify w p) r). rewrite IH.
  unfold verify, verify_on.
  destruct (verify_password _ _) as [[|]|]; reflexivity.
Qed.

(** However many wrong passwords are submitted, the window is not closed,
    no box is shown and the callback does not run: each attempt is
    counted, nothing else. *)
Lemma wrong_passwords_never_close pws : forall w,
  (forall p, In p pws -> verify_password (stored_hash w) p = Some false) ->
  alive (session w pws) = alive w
  /\ shown (session w pws) = shown w
  /\ callback_calls (session w pws) = callback_calls w
  /\ attempts (session w pws) = attempts w + Z.of_nat (length pws).
Proof.
  induction pws as [|p r IH]; intros w H.
  - cbn. repeat split. lia.
  - change (session w (p :: r)) with (session (verify w p) r).
    rewrite (verify_wrong_password w p (H p (or_introl eq_refl))).
    destruct (IH (raise_out AttributeError (count_attempt w))) as (A & S & C & N).
    { intros q Hq. apply H. now right. }
    rewrite A, S, C, N. cbn [alive shown callback_calls attempts raise_out
                             count_attempt length].
    repeat split. lia.
Qed.

(** ** Scenarios of the specification *)

(** "2+2", then [=]: the display reads 4. *)
Lemma scenario_sum :
  display (press example_runtime [py "2"; py "+"; py "2"; py "="]
                 (App_init fresh_disk)) = py "4".
Proof. vm_compute. reflexivity. Qed.

(** "1÷0", then [=]: the division-by-zero box, and the display reads 0. *)
Lemma scenario_division_by_zero :
  let a := press example_runtime [py "1"; py "÷"; py "0"; py "="]
                 (App_init fresh_disk) in
  display a = py "0" /\ dialogs a = [ErrDivisionByZero].
Proof. vm_compute. split; reflexivity. Qed.

(** The keys 6 9 ÷ 6 9 on a fresh installation: the prompt opens on the
    hash of the default password; "subscribe" is granted. *)
Lemma scenario_gate :
  let a := press example_runtime [py "6"; py "9"; py "÷"; py "6"; py "9"]
                 (App_init fresh_disk) in
  prompts a = [PasswordWindow_init default_hash 3]
  /\ display a = py "0"
  /\ gate_of (verify (PasswordWindow_init default_hash 3) (py "subscribe")) = Granted.
Proof. vm_compute. repeat split. Qed.

Lemma in_class_point rt : Pattern.in_class rt 46 = true.
Proof.
  unfold Pattern.in_class. replace (46 =? 46) with true by reflexivity.
  now rewrite orb_true_r.
Qed.

(** The three points, on any runtime and any disk: Ellipsis is
    displayed. *)
Lemma ellipsis_on_any_runtime rt fs0 :
  display (press rt [py "."; py "."; py "."; py "="] (App_init fs0))
  = py "Ellipsis".
Proof.
  assert (D : display (press rt [py "."; py "."; py "."] (App_init fs0)) = py "...").
  { unfold App_init. destruct (create_hidden_folder fs0) as [[folder fs1] boxes].
    destruct (if folder && negb (password_file_exists fs1)
              then match can_write fs1, hash_password DEFAULT_PASSWORD with
                   | true, Some h => (with_folder (Present (Some h)) fs1, boxes)
                   | _, _ => (fs1, boxes ++ [ErrCreatingPasswordFile])
                   end
              else (fs1, boxes)) as [fs2 boxes2].
    reflexivity. }
  change (press rt [py "."; py "."; py "."; py "="] (App_init fs0))
    with (calculate rt (press rt [py "."; py "."; py "."] (App_init fs0))).
  assert (S : successful rt (press rt [py "."; py "."; py "."] (App_init fs0))
                VEllipsis (py "Ellipsis")).
  { unfold successful. rewrite D. split; [|split; reflexivity].
    apply matches_iff. split; [discriminate|].
    cbn [py Utf8.decode Utf8.bytes_of_string forallb]. cbn.
    rewrite in_class_point. reflexivity. }
  rewrite (calculate_successful _ _ _ _ S).
  apply display_set_plain. repeat (constructor; try lia).
Qed.

(** The display of the counterexample of C7 can be typed. *)
Lemma huge_dividend_typed :
  display (press example_runtime
             (py "1" :: repeat (py "0") 400 ++ [py "÷"; py "0"; py "."; py "0"])
             (App_init fresh_disk))
  = huge_dividend ++ py "÷0.0".
Proof. vm_compute. reflexivity. Qed.

(* ===================================================================== *)
(** * Further properties of the program *)
(* ===================================================================== *)

(** Boolean tests in the hypotheses, as propositions. *)
Ltac to_prop :=
  repeat match goal with
  | H : (_ && _) = true |- _ => apply andb_true_iff in H; destruct H
  | H : (_ || _) = false |- _ => apply orb_false_iff in H; destruct H
  | H : (_ || _) = true |- _ => apply orb_true_iff in H; destruct H
  | H : (_ && _) = false |- _ => apply andb_false_iff in H; destruct H
  | H : (_ <=? _) = true |- _ => apply Z.leb_le in H
  | H : (_ <=? _) = false |- _ => apply Z.leb_gt in H
  | H : (_ <? _) = true |- _ => apply Z.ltb_lt in H
  | H : (_ <? _) = false |- _ => apply Z.ltb_ge in H
  | H : (_ =? _) = true |- _ => apply Z.eqb_eq in H
  | H : (_ =? _) = false |- _ => apply Z.eqb_neq in H
  end.

(** ** The credential on disk *)

Lemma fs_open_secret_folder_present a t :
  secret_folder (fs a) = Present (Some t) -> fs (open_secret_folder a) = fs a.
Proof.
  intros H. unfold open_secret_folder. rewrite H.
  now destruct (can_read (fs a)).
Qed.

Lemma fs_set_display_present v a t :
  secret_folder (fs a) = Present (Some t) -> fs (set_display v a) = fs a.
Proof.
  intros H. unfold set_display, check_secret_code.
  destruct (str_eqb _ _); [|reflexivity].
  now rewrite (fs_open_secret_folder_present (write v a) t H).
Qed.

Lemma fs_handle_present e a t :
  secret_folder (fs a) = Present (Some t) -> fs (handle e a) = fs a.
Proof.
  intros H. destruct e; cbn [handle]; unfold clear;
    now rewrite (fs_set_display_present _ (showerror _ a) t H).
Qed.

Lemma fs_command_present rt k a t :
  secret_folder (fs a) = Present (Some t) -> fs (command rt k a) = fs a.
Proof.
  intros H. unfold command.
  destruct (str_eqb k (py "C")); [exact (fs_set_display_present _ a t H)|].
  destruct (str_eqb k (py "=")).
  - unfold calculate. destruct (negb _).
    + exact (fs_set_display_present _ (showerror _ a) t H).
    + unfold show_result. destruct (py_eval rt _) as [v|e].
      * destruct (py_str rt _) as [s|e];
          [exact (fs_set_display_present _ a t H) | exact (fs_handle_present e a t H)].
      * exact (fs_handle_present e a t H).
  - unfold append_to_display.
    destruct (str_eqb (display a) (py "0") && negb (contains OPERATORS k)).
    + rewrite (fs_set_display_present _ (set_display [] a) t);
        rewrite (fs_set_display_present [] a t H); [reflexivity | exact H].
    + exact (fs_set_display_present _ a t H).
Qed.

Lemma fs_init_present fs0 t :
  secret_folder fs0 = Present (Some t) ->
  fs (App_init fs0) = fs0 /\ dialogs (App_init fs0) = [].
Proof.
  intros H. destruct fs0 as [sf mk wr]. cbn [secret_folder] in H. subst sf.
  cbn -[hash_password]. split; reflexivity.
Qed.

(** X1: no code path rewrites a password file that exists: whatever keys are
    pressed after the start, on any runtime, the file system is the one
    the program found. *)
Theorem credential_is_never_rewritten rt keys fs0 t :
  secret_folder fs0 = Present (Some t) ->
  fs (press rt keys (App_init fs0)) = fs0.
Proof.
  intros H. destruct (fs_init_present fs0 t H) as [F _].
  assert (G : forall a, fs a = fs0 -> fs (press rt keys a) = fs0).
  { induction keys as [|k r IH]; intros a Ha; [exact Ha|].
    change (press rt (k :: r) a) with (press rt r (command rt k a)).
    apply IH. rewrite (fs_command_present rt k a t); [exact Ha|].
    now rewrite Ha. }
  apply G, F.
Qed.

Lemma credential_is_never_rewritten_witness :
  fs (press example_runtime [py "6"; py "9"; py "÷"; py "6"; py "9"; py "C"]
        (App_init {| secret_folder := Present (Some (py "abc"));
                     can_mkdir := true; can_write := true;
                     can_read := true |}))
  = {| secret_folder := Present (Some (py "abc"));
       can_mkdir := true; can_write := true; can_read := true |}.
Proof.
  apply (credential_is_never_rewritten example_runtime _ _ (py "abc")).
  reflexivity.
Defined.

(** X2: the start-up reports every failure: no error box is shown exactly
    when the password file exists afterwards; and a second start finds
    the disk as the first one left it. *)
Theorem start_reports_its_failures fs0 :
  (dialogs (App_init fs0) = [] <->
   password_file_exists (fs (App_init fs0)) = true)
  /\ fs (App_init (fs (App_init fs0))) = fs (App_init fs0).
Proof.
  unfold App_init, create_hidden_folder, folder_exists, password_file_exists.
  destruct fs0 as [[|[t|]] mk wr]; cbn [secret_folder can_mkdir can_write];
    rewrite ?hash_default;
    destruct mk, wr;
    cbn [secret_folder can_mkdir can_write with_folder andb negb fs dialogs app];
    rewrite ?hash_default;
    cbn [secret_folder can_mkdir can_write with_folder andb negb fs dialogs app];
    (split; [split; [try reflexivity; discriminate | try reflexivity; discriminate]
            | reflexivity]).
Qed.

(** ** From the first start to the open folder *)

Lemma init_on_workable_disk fs0 :
  password_file_exists fs0 = false ->
  folder_exists fs0 = true \/ can_mkdir fs0 = true ->
  can_write fs0 = true ->
  App_init fs0
  = {| display := py "0";
       fs := with_folder (Present (Some default_hash)) fs0;
       dialogs := []; prompts := []; tracebacks := [] |}.
Proof.
  intros Hf Hd Hw. unfold App_init, create_hidden_folder.
  unfold password_file_exists, folder_exists in *.
  destruct fs0 as [[|[t|]] mk wr]; cbn [secret_folder can_mkdir can_write] in *.
  - destruct Hd as [Hd|Hd]; [discriminate|]. subst mk wr.
    cbn [with_folder secret_folder andb negb password_file_exists can_write
         can_mkdir].
    rewrite hash_default. reflexivity.
  - discriminate.
  - subst wr. cbn [with_folder secret_folder andb negb can_write can_mkdir].
    rewrite hash_default. reflexivity.
Qed.

Lemma typing_the_code rt a t :
  display a = py "0" -> credential (fs a) = Some t ->
  prompts (press rt [py "6"; py "9"; py "÷"; py "6"; py "9"] a)
  = PasswordWindow_init (strip t) 3 :: prompts a
  /\ display (press rt [py "6"; py "9"; py "÷"; py "6"; py "9"] a) = py "0".
Proof.
  intros Hd Hc. destruct a as [d f dl pr tb]. cbn [display fs prompts] in *.
  subst d.
  assert (E : press rt [py "6"; py "9"; py "÷"; py "6"; py "9"]
                {| display := py "0"; fs := f; dialogs := dl; prompts := pr;
                   tracebacks := tb |}
              = open_secret_folder
                  {| display := SECRET_CODE; fs := f; dialogs := dl;
                     prompts := pr; tracebacks := tb |})
    by (lazy -[open_secret_folder]; reflexivity).
  rewrite E.
  apply (open_secret_folder_ready
           {| display := SECRET_CODE; fs := f; dialogs := dl; prompts := pr;
              tracebacks := tb |} t Hc).
Qed.

Lemma strip_default_hash : strip default_hash = default_hash.
Proof. reflexivity. Qed.

(** X3: on a first run where the folder and the file can be made and the
    file can be read, typing 6 9 ÷ 6 9 opens the prompt on the hash of the
    default password, and submitting "subscribe" is granted: the reveal
    callback runs once and the prompt closes. *)
Theorem first_run_unlocks_with_default rt fs0 :
  password_file_exists fs0 = false ->
  folder_exists fs0 = true \/ can_mkdir fs0 = true ->
  can_write fs0 = true ->
  can_read fs0 = true ->
  exists w,
    prompts (press rt [py "6"; py "9"; py "÷"; py "6"; py "9"] (App_init fs0)) = [w]
    /\ gate_of w = PromptOpen
    /\ gate_of (verify w DEFAULT_PASSWORD) = Granted
    /\ callback_calls (verify w DEFAULT_PASSWORD) = 1%nat.
Proof.
  intros Hf Hd Hw Hr. exists (PasswordWindow_init default_hash 3).
  rewrite (init_on_workable_disk fs0 Hf Hd Hw).
  destruct (typing_the_code rt
              {| display := py "0";
                 fs := with_folder (Present (Some default_hash)) fs0;
                 dialogs := []; prompts := []; tracebacks := [] |}
              default_hash) as [P _];
    [reflexivity
    | unfold credential; cbn [fs with_folder secret_folder can_read];
      now rewrite Hr |].
  rewrite P, strip_default_hash.
  split; [reflexivity|]. split; [reflexivity|].
  unfold verify, verify_on, verify_password.
  cbn [count_attempt stored_hash PasswordWindow_init].
  rewrite hash_default. split; reflexivity.
Qed.

Lemma first_run_unlocks_with_default_witness :
  exists w,
    prompts (press example_runtime [py "6"; py "9"; py "÷"; py "6"; py "9"]
               (App_init fresh_disk)) = [w]
    /\ gate_of w = PromptOpen
    /\ gate_of (verify w DEFAULT_PASSWORD) = Granted
    /\ callback_calls (verify w DEFAULT_PASSWORD) = 1%nat.
Proof.
  apply (first_run_unlocks_with_default example_runtime fresh_disk).
  - reflexivity.
  - right. reflexivity.
  - reflexivity.
  - reflexivity.
Defined.

(** X4: the password file may carry whitespace around the hash (a final
    newline, say): when it can be read, the prompt is opened on the
    trimmed text, and a password with that hash is granted. *)
Theorem credential_file_is_trimmed a v text password :
  strip v = SECRET_CODE ->
  secret_folder (fs a) = Present (Some text) ->
  can_read (fs a) = true ->
  hash_password password = Some (strip text) ->
  exists w,
    prompts (set_display v a) = w :: prompts a
    /\ stored_hash w = strip text
    /\ gate_of (verify w password) = Granted.
Proof.
  intros Hv Hf Hr Hp. exists (PasswordWindow_init (strip text) 3).
  rewrite (set_display_code v a Hv).
  assert (C : credential (fs (write v a)) = Some text).
  { unfold credential. cbn [fs write]. now rewrite Hf, Hr. }
  destruct (open_secret_folder_ready (write v a) text C) as [P _].
  rewrite P. split; [reflexivity|]. split; [reflexivity|].
  unfold verify, verify_on, verify_password.
  cbn [count_attempt stored_hash PasswordWindow_init]. rewrite Hp.
  cbn [option_map]. now rewrite str_eqb_refl.
Qed.

Lemma credential_file_is_trimmed_witness :
  exists w,
    prompts (set_display SECRET_CODE
               (App_init {| secret_folder := Present (Some (default_hash ++ [10]));
                            can_mkdir := false; can_write := false;
                            can_read := true |}))
    = w :: prompts (App_init {| secret_folder := Present (Some (default_hash ++ [10]));
                                can_mkdir := false; can_write := false;
                                can_read := true |})
    /\ stored_hash w = default_hash
    /\ gate_of (verify w DEFAULT_PASSWORD) = Granted.
Proof.
  apply (credential_file_is_trimmed
           (App_init {| secret_folder := Present (Some (default_hash ++ [10]));
                        can_mkdir := false; can_write := false;
                        can_read := true |})
           SECRET_CODE (default_hash ++ [10]) DEFAULT_PASSWORD).
  - reflexivity.
  - reflexivity.
  - reflexivity.
  - exact hash_default.
Defined.

(** X20: with the password file in place and not readable, typing
    6 9 ÷ 6 9 after the start opens no prompt and shows no message box:
    the exception of the read leaves the trace, the code stays on the
    display and the disk is as it was. *)
Theorem unreadable_file_leaves_the_code rt fs0 text :
  secret_folder fs0 = Present (Some text) ->
  can_read fs0 = false ->
  press rt [py "6"; py "9"; py "÷"; py "6"; py "9"] (App_init fs0)
  = {| display := SECRET_CODE; fs := fs0; dialogs := []; prompts := [];
       tracebacks := [ReadError] |}.
Proof.
  intros F R.
  assert (I : App_init fs0
              = {| display := py "0"; fs := fs0; dialogs := []; prompts := [];
                   tracebacks := [] |}).
  { destruct fs0 as [sf mk wr rd]. cbn [secret_folder] in F. subst sf.
    cbn -[hash_password]. reflexivity. }
  rewrite I.
  assert (E : press rt [py "6"; py "9"; py "÷"; py "6"; py "9"]
                {| display := py "0"; fs := fs0; dialogs := []; prompts := [];
                   tracebacks := [] |}
              = open_secret_folder
                  {| display := SECRET_CODE; fs := fs0; dialogs := [];
                     prompts := []; tracebacks := [] |})
    by (lazy -[open_secret_folder]; reflexivity).
  rewrite E.
  now rewrite (open_secret_folder_unreadable
                 {| display := SECRET_CODE; fs := fs0; dialogs := [];
                    prompts := []; tracebacks := [] |} text F R).
Qed.

Lemma unreadable_file_leaves_the_code_witness :
  press example_runtime [py "6"; py "9"; py "÷"; py "6"; py "9"]
    (App_init (unreadable_disk default_hash))
  = {| display := SECRET_CODE; fs := unreadable_disk default_hash;
       dialogs := []; prompts := []; tracebacks := [ReadError] |}.
Proof.
  apply (unreadable_file_leaves_the_code example_runtime
           (unreadable_disk default_hash) default_hash); reflexivity.
Defined.

(** ** Sessions of the prompt *)

Lemma verify_counts w p :
  attempts (verify w p) = attempts w + 1
  /\ stored_hash (verify w p) = stored_hash w
  /\ max_attempts (verify w p) = max_attempts w.
Proof.
  unfold verify, verify_on.
  destruct (verify_password _ _) as [[|]|]; repeat split.
Qed.

(** X5: every submission is counted, whatever its outcome, and neither the
    stored hash nor the number of attempts allowed changes during a
    session. *)
Theorem session_counts_submissions pws : forall w,
  attempts (session w pws) = attempts w + Z.of_nat (length pws)
  /\ stored_hash (session w pws) = stored_hash w
  /\ max_attempts (session w pws) = max_attempts w.
Proof.
  induction pws as [|p r IH]; intros w.
  - cbn. repeat split. lia.
  - change (session w (p :: r)) with (session (verify w p) r).
    destruct (IH (verify w p)) as (A & S & M).
    destruct (verify_counts w p) as (A1 & S1 & M1).
    rewrite A, S, M, A1, S1, M1. cbn [length]. repeat split. lia.
Qed.

(** X6: the attempts never run out: after any number of wrong passwords, on
    an open prompt, the right password is still granted. *)
Theorem right_password_after_any_wrong_ones pws w password :
  alive w = true ->
  (forall p, In p pws -> verify_password (stored_hash w) p = Some false) ->
  hash_password password = Some (stored_hash w) ->
  alive (session w pws) = true
  /\ gate_of (verify (session w pws) password) = Granted
  /\ callback_calls (verify (session w pws) password) = S (callback_calls w).
Proof.
  intros Ha Hw Hp.
  destruct (wrong_passwords_never_close pws w Hw) as (A & _ & C & _).
  split; [now rewrite A|].
  unfold verify, verify_on, verify_password.
  cbn [count_attempt stored_hash callback_calls].
  rewrite (stored_hash_session pws w), Hp. cbn [option_map].
  rewrite str_eqb_refl. cbn [gate_of destroy on_success_callback alive
                             callback_calls count_attempt].
  now rewrite C.
Qed.

Lemma right_password_after_any_wrong_ones_witness :
  let w := PasswordWindow_init default_hash 3 in
  let pws := [py "a"; py "b"; py "c"; py "d"; py "e"] in
  alive (session w pws) = true
  /\ gate_of (verify (session w pws) DEFAULT_PASSWORD) = Granted
  /\ callback_calls (verify (session w pws) DEFAULT_PASSWORD) = 1%nat.
Proof.
  apply (right_password_after_any_wrong_ones
           [py "a"; py "b"; py "c"; py "d"; py "e"]
           (PasswordWindow_init default_hash 3) DEFAULT_PASSWORD).
  - reflexivity.
  - intros p Hp.
    repeat (destruct Hp as [<-|Hp]; [vm_compute; reflexivity|]). destruct Hp.
  - exact hash_default.
Defined.

(** ** What is typed passes the validation *)

Lemma keypad_in_class rt c : keypad_char c = true -> Pattern.in_class rt c = true.
Proof.
  unfold keypad_char, is_operator, Pattern.in_class.
  change OPERATORS with [43; 45; MULTIPLICATION_SIGN; DIVISION_SIGN; 40; 41].
  cbn [existsb].
  destruct (is_ascii_digit c), (c =? 43), (c =? 45), (c =? MULTIPLICATION_SIGN),
    (c =? DIVISION_SIGN), (c =? 40), (c =? 41), (c =? 46);
    cbn [orb]; try discriminate; intros _; rewrite ?orb_true_r; reflexivity.
Qed.

Lemma display_init fs0 : display (App_init fs0) = py "0".
Proof.
  unfold App_init. destruct (create_hidden_folder fs0) as [[folder fs1] boxes].
  destruct (if folder && negb (password_file_exists fs1)
            then match can_write fs1, hash_password DEFAULT_PASSWORD with
                 | true, Some h => (with_folder (Present (Some h)) fs1, boxes)
                 | _, _ => (fs1, boxes ++ [ErrCreatingPasswordFile])
                 end
            else (fs1, boxes)) as [fs2 boxes2].
  reflexivity.
Qed.

Lemma typed_display rt k a :
  is_key k -> k <> py "=" ->
  over_keypad (display a) = true ->
  over_keypad (display (command rt k a)) = true
  /\ display (command rt k a) <> [].
Proof.
  intros Hk Hne Ha.
  destruct (key_cases k Hk) as [-> | [-> | (c & -> & Hc & H1 & H2)]].
  - change (command rt (py "C") a) with (clear a). rewrite display_clear.
    split; [reflexivity | discriminate].
  - contradiction.
  - unfold command. rewrite H1, H2. split.
    + now apply over_keypad_append.
    + rewrite display_append_to_display.
      destruct (str_eqb _ _ && readable _); [discriminate|].
      unfold appended. destruct (str_eqb _ _ && negb _); [discriminate|].
      destruct (display a); discriminate.
Qed.

(** X7: whatever keys other than [=] are pressed after the start, the display
    is accepted by the pattern of [calculate]: [=] then goes on to the
    evaluation and never answers "Invalid characters". *)
Theorem typed_display_passes_validation rt keys fs0 :
  (forall k, In k keys -> is_key k /\ k <> py "=") ->
  Pattern.matches rt (display (press rt keys (App_init fs0))) = true
  /\ calculate rt (press rt keys (App_init fs0))
     = show_result rt
         (py_eval rt (substitute_glyphs (display (press rt keys (App_init fs0)))))
         (press rt keys (App_init fs0)).
Proof.
  intros H.
  assert (I : forall a, over_keypad (display a) = true -> display a <> [] ->
                        over_keypad (display (press rt keys a)) = true
                        /\ display (press rt keys a) <> []).
  { induction keys as [|k r IH]; intros a Ha Hn; [now split|].
    change (press rt (k :: r) a) with (press rt r (command rt k a)).
    destruct (H k (or_introl eq_refl)) as [Hk Hne].
    destruct (typed_display rt k a Hk Hne Ha) as [Ha' Hn'].
    apply IH; [intros k' Hk'; apply H; now right | exact Ha' | exact Hn']. }
  destruct (I (App_init fs0)) as [Ho Hn].
  { now rewrite display_init. }
  { rewrite display_init. discriminate. }
  assert (M : Pattern.matches rt (display (press rt keys (App_init fs0))) = true).
  { apply matches_iff. split; [exact Hn|].
    apply forallb_forall. intros c Hc. apply keypad_in_class.
    unfold over_keypad in Ho. rewrite forallb_forall in Ho. now apply Ho. }
  split; [exact M | now apply calculate_valid].
Qed.

Lemma typed_display_passes_validation_witness :
  Pattern.matches example_runtime
    (display (press example_runtime [py "("; py "7"; py "×"; py "."; py "C"; py "÷"]
                    (App_init fresh_disk))) = true.
Proof.
  apply (typed_display_passes_validation example_runtime
           [py "("; py "7"; py "×"; py "."; py "C"; py "÷"] fresh_disk).
  intros k Hk.
  repeat (destruct Hk as [<-|Hk];
          [split; [unfold is_key; lazy; tauto | discriminate]|]).
  destruct Hk.
Defined.

(** ** The text of an integer reads back as that integer *)

Lemma fold_digits_acc d : forall acc,
  fold_left (fun a c => a * 10 + (c - 48)) (PyInt.chars_of_uint d) (Zpos acc)
  = Zpos (Pos.of_uint_acc d acc).
Proof.
  induction d; intros acc; cbn [PyInt.chars_of_uint fold_left Pos.of_uint_acc];
    [reflexivity | rewrite <- IHd; f_equal; lia ..].
Qed.

Lemma of_digits_chars d :
  PyInt.of_digits (PyInt.chars_of_uint d) = Z.of_N (Pos.of_uint d).
Proof.
  unfold PyInt.of_digits.
  induction d; cbn [PyInt.chars_of_uint fold_left Pos.of_uint];
    [reflexivity | exact IHd | apply (fold_digits_acc d) ..].
Qed.

Lemma of_digits_digits p : PyInt.of_digits (PyInt.digits p) = Zpos p.
Proof.
  unfold PyInt.digits. rewrite of_digits_chars.
  now rewrite DecimalPos.Unsigned.of_to.
Qed.

Lemma chars_are_digits d : forallb is_ascii_digit (PyInt.chars_of_uint d) = true.
Proof. induction d; cbn [PyInt.chars_of_uint forallb]; auto. Qed.

(** The decimal text of a positive number starts with a digit other
    than 0. *)
Lemma digits_head p :
  exists c r, PyInt.digits p = c :: r /\ 49 <= c <= 57.
Proof.
  unfold PyInt.digits.
  pose proof (DecimalPos.Unsigned.to_of (Pos.to_uint p)) as N.
  rewrite DecimalPos.Unsigned.of_to in N. cbn [N.to_uint] in N.
  pose proof (DecimalPos.Unsigned.to_uint_nonzero p) as Z0.
  pose proof (DecimalPos.Unsigned.to_uint_nonnil p) as Z1.
  destruct (Pos.to_uint p) as [|r|r|r|r|r|r|r|r|r|r] eqn:E;
    cbn [PyInt.chars_of_uint];
    try (eexists; eexists; split; [reflexivity | lia]).
  - contradiction.
  - exfalso. rewrite DecimalFacts.unorm_D0 in N. unfold Decimal.unorm in N.
    destruct (Decimal.nzhead r) eqn:Hz; try discriminate N.
    + injection N as ->. now apply Z0.
    + now apply (DecimalFacts.nzhead_nonzero r) in Hz.
Qed.

Lemma int_token_digits limit p :
  over_digit_limit limit (Z.of_nat (length (PyInt.digits p))) = false ->
  Eval.int_token limit (PyInt.digits p) = Eval.TInt (Zpos p).
Proof.
  intros L. unfold Eval.int_token. rewrite L, of_digits_digits.
  destruct (digits_head p) as (c & r & E & Hc). rewrite E.
  assert (C : c = 49 \/ c = 50 \/ c = 51 \/ c = 52 \/ c = 53 \/ c = 54
              \/ c = 55 \/ c = 56 \/ c = 57) by lia.
  destruct C as [->|[->|[->|[->|[->|[->|[->|[->| ->]]]]]]]]; reflexivity.
Qed.

(** The text of a natural number, as [str] prints it, is one token. *)
Lemma int_token_natural limit x :
  0 <= x -> over_digit_limit limit (PyInt.ndigits x) = false ->
  Eval.int_token limit (PyInt.to_str x) = Eval.TInt x.
Proof.
  intros Hx L. destruct x as [|p|p]; [reflexivity | | lia].
  now apply int_token_digits.
Qed.

Lemma natural_text x :
  0 <= x ->
  exists c r, PyInt.to_str x = c :: r /\ is_ascii_digit c = true
              /\ forallb is_ascii_digit r = true.
Proof.
  intros Hx. destruct x as [|p|p]; [| | lia].
  - exists 48, []. repeat split.
  - pose proof (chars_are_digits (Pos.to_uint p)) as D.
    cbn [PyInt.to_str]. unfold PyInt.digits.
    destruct (digits_head p) as (c & r & E & _). unfold PyInt.digits in E.
    rewrite E in *. cbn [forallb] in D. apply andb_true_iff in D as [D1 D2].
    now exists c, r.
Qed.

Lemma lex_digits limit ds : forall acc,
  forallb is_ascii_digit ds = true ->
  Eval.lex_from limit (Eval.PInt acc) ds = [Eval.int_token limit (acc ++ ds)].
Proof.
  induction ds as [|d r IH]; intros acc H.
  - cbn [Eval.lex_from Eval.flush]. now rewrite app_nil_r.
  - cbn [forallb] in H. apply andb_true_iff in H as [Hd Hr].
    cbn [Eval.lex_from Eval.step]. rewrite Hd. cbn [app].
    rewrite (IH _ Hr), <- app_assoc. reflexivity.
Qed.

Lemma lex_digits_then limit ds c rest : forall acc,
  forallb is_ascii_digit ds = true ->
  is_ascii_digit c = false -> c <> 46 ->
  Eval.lex_from limit (Eval.PInt acc) (ds ++ c :: rest)
  = Eval.int_token limit (acc ++ ds) :: Eval.lex_from limit Eval.PNone (c :: rest).
Proof.
  intros acc H Hc Hp. revert acc H.
  induction ds as [|d r IH]; intros acc H.
  - cbn [app Eval.lex_from Eval.step]. rewrite Hc.
    destruct (Z.eqb_spec c 46) as [|_]; [contradiction|].
    unfold Eval.after. rewrite app_nil_r.
    destruct (Eval.start c) as [ts p]. reflexivity.
  - cbn [forallb] in H. apply andb_true_iff in H as [Hd Hr].
    cbn [app Eval.lex_from Eval.step]. rewrite Hd. cbn [app].
    rewrite (IH _ Hr), <- app_assoc. reflexivity.
Qed.

(** A natural number at the head of an expression, before an operator or
    at the end. *)
Lemma lex_natural limit x :
  0 <= x -> over_digit_limit limit (PyInt.ndigits x) = false ->
  Eval.lex_from limit Eval.PNone (PyInt.to_str x) = [Eval.TInt x]
  /\ (forall c rest, is_ascii_digit c = false -> c <> 46 ->
        Eval.lex_from limit Eval.PNone (PyInt.to_str x ++ c :: rest)
        = Eval.TInt x :: Eval.lex_from limit Eval.PNone (c :: rest))
  /\ Eval.lex_from limit Eval.PStar (PyInt.to_str x)
     = [Eval.TStar; Eval.TInt x].
Proof.
  intros Hx L. pose proof (int_token_natural limit x Hx L) as T.
  destruct (natural_text x Hx) as (d & r & E & Hd & Hr). rewrite E in *.
  split; [|split].
  - cbn [Eval.lex_from Eval.step]. unfold Eval.start. rewrite Hd. cbn [app].
    now rewrite (lex_digits limit r [d] Hr), <- T.
  - intros c rest Hc Hp.
    cbn [app Eval.lex_from Eval.step]. unfold Eval.start at 1. rewrite Hd.
    cbn [app].
    now rewrite (lex_digits_then limit r c rest [d] Hr Hc Hp), <- T.
  - cbn [Eval.lex_from Eval.step].
    assert (N : (d =? 42) = false).
    { unfold is_ascii_digit in Hd. apply andb_true_iff in Hd as [A _].
      apply Z.leb_le in A. apply Z.eqb_neq. lia. }
    rewrite N. unfold Eval.after, Eval.start. rewrite Hd. cbn [app].
    now rewrite (lex_digits limit r [d] Hr), <- T.
Qed.

Lemma plain_substitute s : plain s -> substitute_glyphs s = s.
Proof.
  induction 1 as [|c r Hc _ IH]; [reflexivity|].
  cbn [substitute_glyphs map]. fold (substitute_glyphs r). rewrite IH.
  unfold MULTIPLICATION_SIGN, DIVISION_SIGN.
  destruct (Z.eqb_spec c 215); [lia|]. destruct (Z.eqb_spec c 247); [lia|].
  reflexivity.
Qed.

Lemma integral_in_class rt s :
  integral_text s -> forallb (Pattern.in_class rt) s = true.
Proof.
  induction 1 as [|c r Hc _ IH]; [reflexivity|].
  cbn [forallb]. rewrite IH, andb_true_r. unfold Pattern.in_class.
  destruct Hc as [->|Hc].
  - destruct (unicode_decimal rt 45); reflexivity.
  - replace (is_ascii_digit c) with true; [reflexivity|].
    symmetry. unfold is_ascii_digit. apply andb_true_iff.
    split; apply Z.leb_le; lia.
Qed.

Lemma integral_model s :
  integral_text s -> forallb Eval.model_char s = true.
Proof.
  induction 1 as [|c r Hc _ IH]; [reflexivity|].
  cbn [forallb]. rewrite IH, andb_true_r. unfold Eval.model_char.
  destruct Hc as [->|Hc]; [reflexivity|].
  replace (is_ascii_digit c) with true; [reflexivity|].
  symmetry. unfold is_ascii_digit. apply andb_true_iff.
  split; apply Z.leb_le; lia.
Qed.

Lemma to_str_nonempty z : PyInt.to_str z <> [].
Proof.
  destruct z as [|p|p]; cbn [PyInt.to_str]; try discriminate.
  destruct (digits_head p) as (c & r & E & _). rewrite E. discriminate.
Qed.

Lemma symbols_digits s :
  forallb is_ascii_digit s = true -> Eval.symbols s = 0.
Proof.
  intros H. unfold Eval.symbols.
  replace (filter (fun c => negb (is_ascii_digit c)) s) with (@nil char);
    [reflexivity|].
  induction s as [|c r IH]; [reflexivity|].
  cbn [forallb] in H. apply andb_true_iff in H as [Hc Hr].
  cbn [filter]. rewrite Hc. cbn [negb]. now apply IH.
Qed.

Lemma symbols_app s t : Eval.symbols (s ++ t) = Eval.symbols s + Eval.symbols t.
Proof. unfold Eval.symbols. rewrite filter_app, length_app. lia. Qed.

Lemma natural_digits x :
  0 <= x -> forallb is_ascii_digit (PyInt.to_str x) = true.
Proof.
  intros Hx. destruct (natural_text x Hx) as (c & r & E & Hc & Hr).
  rewrite E. cbn [forallb]. now rewrite Hc, Hr.
Qed.

(** [eval(str(z))] is [z]. *)
Lemma py_eval_integer rt z :
  printable rt z -> py_eval rt (PyInt.to_str z) = Val (VInt z).
Proof.
  intros L. unfold printable in L.
  destruct z as [|p|p].
  - reflexivity.
  - apply (py_eval_model rt _ (Eval.Constant (VInt (Zpos p)))).
    + unfold Eval.in_model.
      rewrite (integral_model _ (integral_to_str (Zpos p))).
      now rewrite (symbols_digits _ (natural_digits (Zpos p) ltac:(lia))).
    + unfold Eval.lex.
      destruct (lex_natural (int_max_str_digits rt) (Zpos p)) as [E _];
        [lia | exact L | now rewrite E].
    + reflexivity.
  - apply (py_eval_model rt _
             (Eval.UnaryOp Eval.USub (Eval.Constant (VInt (Zpos p))))).
    + unfold Eval.in_model.
      rewrite (integral_model _ (integral_to_str (Zneg p))).
      change (PyInt.to_str (Zneg p)) with ([45] ++ PyInt.to_str (Zpos p)).
      rewrite symbols_app.
      now rewrite (symbols_digits _ (natural_digits (Zpos p) ltac:(lia))).
    + unfold Eval.lex.
      change (PyInt.to_str (Zneg p)) with (45 :: PyInt.to_str (Zpos p)).
      cbn [Eval.lex_from Eval.step Eval.start is_ascii_digit Z.leb Z.compare
           Pos.compare Pos.compare_cont andb Z.eqb Pos.eqb app].
      destruct (lex_natural (int_max_str_digits rt) (Zpos p)) as [E _];
        [lia | exact L | now rewrite E].
    + reflexivity.
Qed.

Lemma matches_integer rt z : Pattern.matches rt (PyInt.to_str z) = true.
Proof.
  apply matches_iff. split; [apply to_str_nonempty|].
  apply integral_in_class, integral_to_str.
Qed.

(** X8: when the display shows an integer, as a result does, [=] changes
    nothing: the integer evaluates to itself and is printed as it was. *)
Theorem equals_on_an_integer_changes_nothing rt a z :
  display a = PyInt.to_str z ->
  printable rt z ->
  calculate rt a = a.
Proof.
  intros Hd L.
  assert (M : Pattern.matches rt (display a) = true)
    by (rewrite Hd; apply matches_integer).
  rewrite (calculate_valid rt a M), Hd.
  rewrite (plain_substitute _ (integral_plain _ (integral_to_str z))).
  rewrite (py_eval_integer rt z L). cbn [show_result normalise py_str].
  unfold printable in L. rewrite L.
  rewrite set_display_other
    by (apply plain_not_code, integral_plain, integral_to_str).
  rewrite <- Hd. destruct a; reflexivity.
Qed.

Lemma equals_on_an_integer_changes_nothing_witness :
  calculate example_runtime (write (py "-15") (App_init fresh_disk))
  = write (py "-15") (App_init fresh_disk).
Proof.
  apply (equals_on_an_integer_changes_nothing example_runtime
           (write (py "-15") (App_init fresh_disk)) (-15)).
  - reflexivity.
  - reflexivity.
Defined.


(* ===================================================================== *)
(** * Sums of products *)
(* ===================================================================== *)

(** ** The text *)

Lemma factors_text_forall (P : char -> bool) times fs :
  (forall z, forallb P (PyInt.to_str z) = true) -> P times = true ->
  forallb P (factors_text times fs) = true.
Proof.
  intros HP Ht. induction fs as [|f r IH]; [reflexivity|].
  cbn [factors_text flat_map]. fold (factors_text times r).
  cbn [app forallb]. now rewrite forallb_app, Ht, HP, IH.
Qed.

Lemma sum_text_forall (P : char -> bool) times s :
  (forall z, forallb P (PyInt.to_str z) = true) ->
  P times = true -> P 43 = true -> P 45 = true ->
  forallb P (sum_text times s) = true.
Proof.
  intros HP Ht H43 H45. destruct s as [p ps]. unfold sum_text. cbn [fst snd].
  assert (Q : forall q, forallb P (product_text times q) = true).
  { intros q. unfold product_text.
    now rewrite forallb_app, HP, factors_text_forall. }
  rewrite forallb_app, Q. cbn [andb].
  induction ps as [|[k q] r IH]; [reflexivity|].
  cbn [summands_text flat_map fst snd]. fold (summands_text times r).
  cbn [app forallb]. rewrite forallb_app, Q, IH.
  destruct k; cbn [sign_char]; now rewrite ?H43, ?H45.
Qed.

Lemma factors_text_map (g : char -> char) times fs :
  (forall z, map g (PyInt.to_str z) = PyInt.to_str z) ->
  map g (factors_text times fs) = factors_text (g times) fs.
Proof.
  intros Hg. induction fs as [|f r IH]; [reflexivity|].
  cbn [factors_text flat_map]. fold (factors_text times r).
  fold (factors_text (g times) r). cbn [app map].
  now rewrite map_app, Hg, IH.
Qed.

Lemma sum_text_map (g : char -> char) times s :
  (forall z, map g (PyInt.to_str z) = PyInt.to_str z) ->
  g 43 = 43 -> g 45 = 45 ->
  map g (sum_text times s) = sum_text (g times) s.
Proof.
  intros Hg H43 H45. destruct s as [p ps]. unfold sum_text. cbn [fst snd].
  assert (Q : forall q, map g (product_text times q) = product_text (g times) q).
  { intros q. unfold product_text. now rewrite map_app, Hg, factors_text_map. }
  rewrite map_app, Q. f_equal.
  induction ps as [|[k q] r IH]; [reflexivity|].
  cbn [summands_text flat_map fst snd]. fold (summands_text times r).
  fold (summands_text (g times) r). cbn [app map].
  rewrite map_app, Q, IH. destruct k; cbn [sign_char]; now rewrite ?H43, ?H45.
Qed.

Lemma substitute_sum_text s :
  substitute_glyphs (sum_text MULTIPLICATION_SIGN s) = sum_text 42 s.
Proof.
  unfold substitute_glyphs.
  rewrite sum_text_map; try reflexivity.
  intros z. apply (plain_substitute _ (integral_plain _ (integral_to_str z))).
Qed.

(** ** Reading the tokens *)

Lemma lex_natural_then limit x rest :
  0 <= x -> over_digit_limit limit (PyInt.ndigits x) = false ->
  ends_number rest ->
  Eval.lex_from limit Eval.PNone (PyInt.to_str x ++ rest)
  = Eval.TInt x :: Eval.lex_from limit Eval.PNone rest.
Proof.
  intros Hx L E. destruct (lex_natural limit x Hx L) as (A & B & _).
  destruct rest as [|c r].
  - rewrite app_nil_r. exact A.
  - destruct E as [E1 E2]. now apply B.
Qed.

Lemma lex_star_digit limit d tl :
  is_ascii_digit d = true ->
  Eval.lex_from limit Eval.PNone (42 :: d :: tl)
  = Eval.TStar :: Eval.lex_from limit Eval.PNone (d :: tl).
Proof.
  intros Hd.
  assert (S : Eval.start d = ([], Eval.PInt [d]))
    by (unfold Eval.start; now rewrite Hd).
  assert (N : (d =? 42) = false).
  { apply Z.eqb_neq. unfold is_ascii_digit in Hd. to_prop. lia. }
  change (Eval.lex_from limit Eval.PNone (42 :: d :: tl))
    with (Eval.lex_from limit Eval.PStar (d :: tl)).
  change (Eval.lex_from limit Eval.PStar (d :: tl))
    with (let '(ts, p') := Eval.step limit Eval.PStar d in
          ts ++ Eval.lex_from limit p' tl).
  change (Eval.lex_from limit Eval.PNone (d :: tl))
    with (let '(ts, p') := Eval.start d in ts ++ Eval.lex_from limit p' tl).
  cbn [Eval.step]. rewrite N. unfold Eval.after. rewrite S. reflexivity.
Qed.

Lemma lex_star_natural limit x rest :
  0 <= x -> over_digit_limit limit (PyInt.ndigits x) = false ->
  ends_number rest ->
  Eval.lex_from limit Eval.PNone (42 :: PyInt.to_str x ++ rest)
  = Eval.TStar :: Eval.TInt x :: Eval.lex_from limit Eval.PNone rest.
Proof.
  intros Hx L E. rewrite <- (lex_natural_then limit x rest Hx L E).
  destruct (natural_text x Hx) as (d & r & T & Hd & _). rewrite T.
  cbn [app]. now apply lex_star_digit.
Qed.

Lemma ends_number_factors fs rest :
  ends_number rest -> ends_number (factors_text 42 fs ++ rest).
Proof. destruct fs; [trivial | split; [reflexivity | discriminate]]. Qed.

Lemma ends_number_summands ps :
  ends_number (summands_text 42 ps).
Proof.
  destruct ps as [|[[|] q] r]; [exact I | |]; (split; [reflexivity | discriminate]).
Qed.

Lemma lex_factors limit fs : forall rest,
  Forall (fun f => 0 <= f /\ over_digit_limit limit (PyInt.ndigits f) = false) fs ->
  ends_number rest ->
  Eval.lex_from limit Eval.PNone (factors_text 42 fs ++ rest)
  = factors_tokens fs ++ Eval.lex_from limit Eval.PNone rest.
Proof.
  induction fs as [|f r IH]; intros rest F E; [reflexivity|].
  inversion F as [|? ? [Hf Lf] Fr]; subst.
  cbn [factors_text flat_map factors_tokens]. fold (factors_text 42 r).
  fold (factors_tokens r). cbn [app]. rewrite <- !app_assoc.
  etransitivity;
    [exact (lex_star_natural limit f _ Hf Lf (ends_number_factors r rest E))|].
  do 2 f_equal. now apply IH.
Qed.

Lemma lex_product limit p rest :
  Forall (fun f => 0 <= f /\ over_digit_limit limit (PyInt.ndigits f) = false)
         (numbers_of p) ->
  ends_number rest ->
  Eval.lex_from limit Eval.PNone (product_text 42 p ++ rest)
  = product_tokens p ++ Eval.lex_from limit Eval.PNone rest.
Proof.
  intros F E. destruct p as [f fs]. inversion F as [|? ? [Hf Lf] Fr]; subst.
  unfold product_text, product_tokens. cbn [fst snd]. rewrite <- app_assoc.
  etransitivity;
    [exact (lex_natural_then limit f _ Hf Lf (ends_number_factors fs rest E))|].
  cbn [app]. f_equal. now apply lex_factors.
Qed.

Lemma lex_summands limit ps :
  Forall (fun f => 0 <= f /\ over_digit_limit limit (PyInt.ndigits f) = false)
         (flat_map (fun kp => numbers_of (snd kp)) ps) ->
  Eval.lex_from limit Eval.PNone (summands_text 42 ps) = summands_tokens ps.
Proof.
  induction ps as [|[k q] r IH]; intros F; [reflexivity|].
  cbn [flat_map snd] in F. apply Forall_app in F as [Fq Fr].
  cbn [summands_text summands_tokens flat_map fst snd].
  fold (summands_text 42 r). fold (summands_tokens r).
  assert (S : Eval.lex_from limit Eval.PNone
                (sign_char k :: product_text 42 q ++ summands_text 42 r)
              = sign_token k :: Eval.lex_from limit Eval.PNone
                                  (product_text 42 q ++ summands_text 42 r))
    by (destruct k; reflexivity).
  cbn [app]. etransitivity; [exact S|]. f_equal.
  etransitivity; [exact (lex_product limit q _ Fq (ends_number_summands r))|].
  f_equal. now apply IH.
Qed.

Lemma lex_sum limit s :
  Forall (fun f => 0 <= f /\ over_digit_limit limit (PyInt.ndigits f) = false)
         (numbers s) ->
  Eval.lex limit (sum_text 42 s) = product_tokens (fst s) ++ summands_tokens (snd s).
Proof.
  intros F. destruct s as [p ps]. unfold numbers in F. cbn [fst snd] in *.
  apply Forall_app in F as [Fp Fs]. unfold Eval.lex, sum_text. cbn [fst snd].
  etransitivity; [exact (lex_product limit p _ Fp (ends_number_summands ps))|].
  f_equal. now apply lex_summands.
Qed.

(** ** Parsing *)

(** Closing the operators down to a lower level goes through the state
    reached by closing those of the products. *)
Lemma reduce_further t : t <= 2 -> forall st c e st',
  Eval.reduce 2 c st = (e, st') -> Eval.reduce t c st = Eval.reduce t e st'.
Proof.
  intros Ht. induction st as [|fr st IH]; intros c e st' H.
  - cbn [Eval.reduce] in H. now injection H as <- <-.
  - destruct fr as [l op| op | | f | k]; cbn [Eval.reduce] in H |- *;
      try (injection H as <- <-; reflexivity).
    + destruct (Z.leb_spec 2 (Eval.prec op)) as [P|P].
      * destruct (Z.leb_spec t (Eval.prec op)); [|lia]. now apply IH.
      * injection H as <- <-. reflexivity.
    + change (2 <=? 3) with true in H. cbn iota in H.
      destruct (Z.leb_spec t 3); [|lia]. now apply IH.
Qed.

Lemma parse_factors fs : forall st c e st' ts,
  below_products st' -> Eval.reduce 2 c st = (e, st') ->
  exists c2 st2,
    Eval.parse_from st (Some c) (factors_tokens fs ++ ts)
    = Eval.parse_from st2 (Some c2) ts
    /\ Eval.reduce 2 c2 st2 = (fold_left times_factor fs e, st').
Proof.
  induction fs as [|f r IH]; intros st c e st' ts B R.
  - exists c, st. now split.
  - cbn [factors_tokens flat_map]. fold (factors_tokens r).
    cbn [app Eval.parse_from Eval.parse_step Eval.binop_of Eval.threshold
         Eval.prec].
    rewrite R. cbn [Eval.parse_from Eval.parse_step].
    apply IH; [exact B|].
    cbn [Eval.reduce Eval.prec]. change (2 <=? 2) with true. cbn iota.
    apply B.
Qed.

Lemma parse_product p st ts :
  below_products st ->
  exists c2 st2,
    Eval.parse_from st None (product_tokens p ++ ts)
    = Eval.parse_from st2 (Some c2) ts
    /\ Eval.reduce 2 c2 st2 = (product_tree p, st).
Proof.
  intros B. destruct p as [f fs]. unfold product_tokens, product_tree.
  cbn [fst snd app Eval.parse_from Eval.parse_step].
  apply parse_factors; [exact B | apply B].
Qed.

Lemma below_products_additive e k : below_products [Eval.FBin e (sign_op k)].
Proof. intros c. destruct k; reflexivity. Qed.

Lemma below_products_nil : below_products [].
Proof. intros c. reflexivity. Qed.

Lemma parse_summands ps : forall st c e,
  Eval.reduce 2 c st = (e, []) \/
  (exists l k p, Eval.reduce 2 c st = (p, [Eval.FBin l (sign_op k)])
                 /\ e = Eval.BinOp l (sign_op k) p) ->
  Eval.parse_from st (Some c) (summands_tokens ps)
  = Some (fold_left plus_summand ps e).
Proof.
  induction ps as [|[k q] r IH]; intros st c e H.
  - cbn [summands_tokens flat_map Eval.parse_from fold_left].
    destruct H as [H | (l & k & p & H & ->)];
      rewrite (reduce_further 0 ltac:(lia) st c _ _ H);
      [reflexivity | destruct k; reflexivity].
  - cbn [summands_tokens flat_map fst snd]. fold (summands_tokens r).
    assert (S : Eval.parse_from st (Some c)
                  ((sign_token k :: product_tokens q) ++ summands_tokens r)
                = Eval.parse_from [Eval.FBin e (sign_op k)] None
                    (product_tokens q ++ summands_tokens r)).
    { cbn [app Eval.parse_from Eval.parse_step].
      assert (R : Eval.reduce 1 c st = (e, [])).
      { destruct H as [H | (l & k' & p & H & ->)];
          rewrite (reduce_further 1 ltac:(lia) st c _ _ H);
          [reflexivity | destruct k'; reflexivity]. }
      destruct k; cbn [sign_token Eval.binop_of Eval.threshold Eval.prec sign_op];
        rewrite R; reflexivity. }
    rewrite S.
    destruct (parse_product q [Eval.FBin e (sign_op k)] (summands_tokens r)
                (below_products_additive e k)) as (c2 & st2 & P & R2).
    rewrite P. cbn [fold_left]. apply IH. right.
    exists e, k, (product_tree q). now split.
Qed.

Lemma parse_sum s :
  Eval.parse (product_tokens (fst s) ++ summands_tokens (snd s))
  = Some (sum_tree s).
Proof.
  destruct s as [p ps]. unfold Eval.parse, sum_tree. cbn [fst snd].
  destruct (parse_product p [] (summands_tokens ps) below_products_nil)
    as (c2 & st2 & P & R).
  rewrite P. apply parse_summands. now left.
Qed.

(** ** Evaluation *)

Lemma eval_factors fs : forall e v,
  Eval.eval_expr e = Some (Val (VInt v)) ->
  Eval.eval_expr (fold_left times_factor fs e)
  = Some (Val (VInt (fold_left Z.mul fs v))).
Proof.
  induction fs as [|f r IH]; intros e v H; [exact H|].
  cbn [fold_left]. apply IH. unfold times_factor. cbn [Eval.eval_expr].
  now rewrite H.
Qed.

Lemma eval_product p :
  Eval.eval_expr (product_tree p) = Some (Val (VInt (product_value p))).
Proof. now apply eval_factors. Qed.

Lemma eval_sum s :
  Eval.eval_expr (sum_tree s) = Some (Val (VInt (sum_value s))).
Proof.
  destruct s as [p ps]. unfold sum_tree, sum_value. cbn [fst snd].
  generalize (eval_product p).
  generalize (product_tree p) (product_value p).
  induction ps as [|[k q] r IH]; intros e v H; [exact H|].
  cbn [fold_left]. apply IH. unfold plus_summand, add_summand.
  cbn [fst snd Eval.eval_expr]. rewrite H, eval_product.
  destruct k; reflexivity.
Qed.

(** ** The operators are counted *)

Lemma symbols_natural x : 0 <= x -> Eval.symbols (PyInt.to_str x) = 0.
Proof. intros H. apply symbols_digits, natural_digits, H. Qed.

Lemma symbols_cons c s :
  is_ascii_digit c = false -> Eval.symbols (c :: s) = 1 + Eval.symbols s.
Proof.
  intros H. unfold Eval.symbols. cbn [filter]. rewrite H. cbn [negb length]. lia.
Qed.

Lemma symbols_factors fs :
  Forall (fun f => 0 <= f) fs ->
  Eval.symbols (factors_text 42 fs) = Z.of_nat (length fs).
Proof.
  induction 1 as [|f r Hf _ IH]; [reflexivity|].
  cbn [factors_text flat_map]. fold (factors_text 42 r). cbn [app length].
  rewrite symbols_cons by reflexivity.
  rewrite symbols_app, symbols_natural, IH by exact Hf. lia.
Qed.

Lemma symbols_product p :
  Forall (fun f => 0 <= f) (numbers_of p) ->
  Eval.symbols (product_text 42 p) = Z.of_nat (length (numbers_of p)) - 1.
Proof.
  destruct p as [f fs]. intros F. inversion F as [|? ? Hf Fr]; subst.
  unfold product_text, numbers_of. cbn [fst snd length].
  rewrite symbols_app, symbols_natural, symbols_factors by assumption. lia.
Qed.

Lemma symbols_sum s :
  Forall (fun f => 0 <= f) (numbers s) ->
  Eval.symbols (sum_text 42 s) = Z.of_nat (operators s).
Proof.
  destruct s as [p ps]. unfold operators, numbers, sum_text. cbn [fst snd].
  intros F. apply Forall_app in F as [Fp Fs].
  rewrite symbols_app, symbols_product by exact Fp.
  assert (S : Eval.symbols (summands_text 42 ps)
              = Z.of_nat (length (flat_map (fun kp => numbers_of (snd kp)) ps))).
  { induction ps as [|[k q] r IH]; [reflexivity|].
    cbn [flat_map snd] in Fs. apply Forall_app in Fs as [Fq Fr].
    cbn [summands_text flat_map fst snd]. fold (summands_text 42 r).
    cbn [app]. rewrite symbols_cons by (destruct k; reflexivity).
    rewrite symbols_app, symbols_product, (IH Fr) by exact Fq.
    rewrite length_app. lia. }
  rewrite S, length_app. unfold numbers_of. cbn [length]. lia.
Qed.

(** ** The calculator on a sum of products *)

Lemma py_eval_sum rt s :
  Forall (fun f => 0 <= f /\ printable rt f) (numbers s) ->
  (operators s <= 64)%nat ->
  py_eval rt (sum_text 42 s) = Val (VInt (sum_value s)).
Proof.
  intros F O.
  assert (N : Forall (fun f => 0 <= f) (numbers s))
    by (eapply Forall_impl; [|exact F]; now intros f [H _]).
  apply (py_eval_model rt _ (sum_tree s)).
  - unfold Eval.in_model. rewrite symbols_sum by exact N.
    rewrite sum_text_forall; try reflexivity.
    + apply Z.leb_le. lia.
    + intros z. apply integral_model, integral_to_str.
  - rewrite lex_sum by exact F. apply parse_sum.
  - apply eval_sum.
Qed.

(** X9: a sum of products of natural numbers on the display, with at most 64
    operators: [=] shows the value of the sum, the products taken first,
    and opens no message box. *)
Theorem sums_of_products_are_exact rt a s :
  Forall (fun f => 0 <= f /\ printable rt f) (numbers s) ->
  (operators s <= 64)%nat ->
  printable rt (sum_value s) ->
  display a = sum_text MULTIPLICATION_SIGN s ->
  display (calculate rt a) = PyInt.to_str (sum_value s)
  /\ dialogs (calculate rt a) = dialogs a
  /\ prompts (calculate rt a) = prompts a.
Proof.
  intros F O L Hd.
  assert (M : Pattern.matches rt (display a) = true).
  { rewrite Hd. apply matches_iff. split.
    - destruct s as [[f fs] ps]. unfold sum_text, product_text. cbn [fst snd].
      pose proof (to_str_nonempty f). destruct (PyInt.to_str f); [contradiction|].
      discriminate.
    - apply sum_text_forall.
      + intros z. apply integral_in_class, integral_to_str.
      + unfold Pattern.in_class.
        now destruct (unicode_decimal rt MULTIPLICATION_SIGN).
      + unfold Pattern.in_class. now destruct (unicode_decimal rt 43).
      + unfold Pattern.in_class. now destruct (unicode_decimal rt 45). }
  rewrite (calculate_valid rt a M), Hd.
  fold (substitute_glyphs (sum_text MULTIPLICATION_SIGN s)).
  rewrite substitute_sum_text, (py_eval_sum rt s F O).
  cbn [show_result normalise py_str].
  unfold printable in L. rewrite L.
  rewrite set_display_other
    by (apply plain_not_code, integral_plain, integral_to_str).
  now repeat split.
Qed.

Lemma sums_of_products_are_exact_witness :
  display (calculate example_runtime (write (py "2+3×4×5-6×7") (App_init fresh_disk)))
  = py "20".
Proof.
  apply (sums_of_products_are_exact example_runtime
           (write (py "2+3×4×5-6×7") (App_init fresh_disk))
           ((2, []), [(Plus, (3, [4; 5])); (Minus, (6, [7]))])).
  - unfold numbers, numbers_of. cbn [fst snd flat_map app].
    repeat (apply Forall_cons; [split; [lia | reflexivity]|]). apply Forall_nil.
  - cbn. lia.
  - reflexivity.
  - reflexivity.
Defined.

(* ===================================================================== *)
(** * The stored credential *)
(* ===================================================================== *)

Lemma hex_digit_lower d : 0 <= d < 16 -> lower_hex (Sha256.hex_digit d) = true.
Proof.
  intros H. unfold Sha256.hex_digit, lower_hex, is_ascii_digit.
  destruct (Z.ltb_spec d 10); apply orb_true_iff; [left | right];
    apply andb_true_iff; split; apply Z.leb_le; lia.
Qed.

Lemma hex_word_shape w :
  length (Sha256.hex_word w) = 8%nat
  /\ forallb lower_hex (Sha256.hex_word w) = true.
Proof.
  unfold Sha256.hex_word. split.
  - now rewrite length_map, length_rev, length_seq.
  - apply forallb_forall. intros c Hc. apply in_map_iff in Hc as (i & <- & _).
    apply hex_digit_lower. apply Z.mod_pos_bound. lia.
Qed.

Lemma compress_length h block :
  length h = 8%nat -> length (Sha256.compress h block) = 8%nat.
Proof.
  intros H. unfold Sha256.compress, Sha256.list_of.
  rewrite length_map, length_combine, H. reflexivity.
Qed.

Lemma digest_blocks_length n : forall h ws,
  length h = 8%nat -> length (Sha256.digest_blocks n h ws) = 8%nat.
Proof.
  induction n as [|n IH]; intros h ws H; cbn [Sha256.digest_blocks];
    [exact H | now apply IH, compress_length].
Qed.

Lemma hex_words_shape ws :
  length (flat_map Sha256.hex_word ws) = (8 * length ws)%nat
  /\ forallb lower_hex (flat_map Sha256.hex_word ws) = true.
Proof.
  induction ws as [|w r [IH1 IH2]]; [split; reflexivity|].
  destruct (hex_word_shape w) as [L F]. cbn [flat_map]. split.
  - rewrite length_app, L, IH1. cbn [length]. lia.
  - now rewrite forallb_app, F, IH2.
Qed.

Lemma hexdigest_shape msg :
  length (Sha256.hexdigest msg) = 64%nat
  /\ forallb lower_hex (Sha256.hexdigest msg) = true.
Proof.
  unfold Sha256.hexdigest.
  destruct (hex_words_shape (Sha256.digest msg)) as [L F]. split; [|exact F].
  rewrite L. unfold Sha256.digest. now rewrite digest_blocks_length.
Qed.

(** X10: only a text of 64 lower-case hexadecimal digits is ever accepted as
    the stored hash: against a credential of another shape (cut short, in
    upper case) no password verifies. *)
Theorem accepted_hash_is_64_lower_hex stored password :
  verify_password stored password = Some true ->
  length stored = 64%nat /\ forallb lower_hex stored = true.
Proof.
  unfold verify_password, hash_password.
  destruct (Utf8.encode password) as [bytes|]; cbn [option_map]; [|discriminate].
  intros [= E]. apply str_eqb_eq in E. subst stored. apply hexdigest_shape.
Qed.

Lemma accepted_hash_is_64_lower_hex_witness :
  length default_hash = 64%nat /\ forallb lower_hex default_hash = true.
Proof.
  apply (accepted_hash_is_64_lower_hex default_hash DEFAULT_PASSWORD).
  unfold verify_password. rewrite hash_default. reflexivity.
Defined.

(* ===================================================================== *)
(** * Colours *)
(* ===================================================================== *)

Lemma In_range n c : 0 <= c < n -> In c (range n).
Proof.
  intros H. unfold range. apply in_map_iff. exists (Z.to_nat c).
  split; [lia | apply in_seq; lia].
Qed.

Lemma is_hex_In c : is_hex c = true -> In c hex_chars.
Proof.
  intros H. apply filter_In. split; [|exact H]. apply In_range.
  unfold is_hex, lower_hex, is_ascii_digit in H. to_prop; lia.
Qed.

Lemma lower_hex_In c : lower_hex c = true -> In c lower_hex_chars.
Proof.
  intros H. apply filter_In. split; [|exact H]. apply In_range.
  unfold lower_hex, is_ascii_digit in H. to_prop; lia.
Qed.

Lemma lower_is_hex c : lower_hex c = true -> is_hex c = true.
Proof. intros H. unfold is_hex. now rewrite H. Qed.

Lemma hex_pairs_parse :
  forallb (fun a => forallb (hex_pair_parses a) hex_chars) hex_chars = true.
Proof. vm_compute. reflexivity. Qed.

Lemma lower_pairs_round_trip :
  forallb (fun a => forallb (lower_pair_round_trip a) lower_hex_chars)
          lower_hex_chars = true.
Proof. vm_compute. reflexivity. Qed.

Lemma bytes_round_trip : forallb byte_round_trip (range 256) = true.
Proof. vm_compute. reflexivity. Qed.

Lemma int16_hex_pair a b :
  is_hex a = true -> is_hex b = true ->
  exists v, int16 [a; b] = Some (Val (VInt v)) /\ 0 <= v <= 255.
Proof.
  intros Ha Hb. pose proof hex_pairs_parse as P.
  rewrite forallb_forall in P. specialize (P a (is_hex_In a Ha)).
  rewrite forallb_forall in P. specialize (P b (is_hex_In b Hb)).
  unfold hex_pair_parses in P.
  destruct (int16 [a; b]) as [[[v| | | |]|]|]; try discriminate.
  exists v. split; [reflexivity | to_prop; lia].
Qed.

Lemma int16_lower_pair a b :
  lower_hex a = true -> lower_hex b = true ->
  exists v, int16 [a; b] = Some (Val (VInt v)) /\ format_02x v = [a; b].
Proof.
  intros Ha Hb. pose proof lower_pairs_round_trip as P.
  rewrite forallb_forall in P. specialize (P a (lower_hex_In a Ha)).
  rewrite forallb_forall in P. specialize (P b (lower_hex_In b Hb)).
  unfold lower_pair_round_trip in P.
  destruct (int16 [a; b]) as [[[v| | | |]|]|]; try discriminate.
  exists v. split; [reflexivity | now apply str_eqb_eq].
Qed.

Lemma format_02x_byte n :
  0 <= n <= 255 ->
  exists a b, format_02x n = [a; b] /\ lower_hex a = true /\ lower_hex b = true
              /\ int16 [a; b] = Some (Val (VInt n)).
Proof.
  intros H. pose proof bytes_round_trip as P.
  rewrite forallb_forall in P. specialize (P n (In_range 256 n ltac:(lia))).
  unfold byte_round_trip in P.
  destruct (format_02x n) as [|a [|b [|]]]; try discriminate.
  exists a, b. apply andb_true_iff in P as [P1 P3].
  apply andb_true_iff in P1 as [P1 P2].
  destruct (int16 [a; b]) as [[[v| | | |]|]|]; try discriminate.
  apply Z.eqb_eq in P3. subst v. now repeat split.
Qed.

Lemma is_color_inv digit s :
  is_color digit s = true ->
  exists a b c d e f,
    s = [35; a; b; c; d; e; f]
    /\ digit a = true /\ digit b = true /\ digit c = true
    /\ digit d = true /\ digit e = true /\ digit f = true.
Proof.
  unfold is_color. destruct s as [|h r]; [discriminate|]. intros H.
  apply andb_true_iff in H as [H F]. apply andb_true_iff in H as [H L].
  apply Z.eqb_eq in H. subst h. apply Nat.eqb_eq in L.
  destruct r as [|a [|b [|c [|d [|e [|f [|]]]]]]]; try discriminate L.
  cbn [forallb] in F. to_prop.
  exists a, b, c, d, e, f. now repeat split.
Qed.

Lemma components_of_digits a b c d e f :
  components [35; a; b; c; d; e; f]
  = match int16 [a; b] with
    | Some (Val (VInt r)) =>
        match int16 [c; d] with
        | Some (Val (VInt g)) =>
            match int16 [e; f] with
            | Some (Val (VInt b)) => Some (inr (r, g, b))
            | Some (Raise e) => Some (inl e)
            | _ => None
            end
        | Some (Raise e) => Some (inl e)
        | _ => None
        end
    | Some (Raise e) => Some (inl e)
    | _ => None
    end.
Proof. reflexivity. Qed.

(** Writing a colour and reading it back. *)
Lemma format_color_components r g b :
  0 <= r <= 255 -> 0 <= g <= 255 -> 0 <= b <= 255 ->
  is_color lower_hex (format_color r g b) = true
  /\ components (format_color r g b) = Some (inr (r, g, b)).
Proof.
  intros Hr Hg Hb.
  destruct (format_02x_byte r Hr) as (r1 & r2 & Er & R1 & R2 & Pr).
  destruct (format_02x_byte g Hg) as (g1 & g2 & Eg & G1 & G2 & Pg).
  destruct (format_02x_byte b Hb) as (b1 & b2 & Eb & B1 & B2 & Pb).
  unfold format_color. rewrite Er, Eg, Eb. cbn [app]. split.
  - cbn [is_color length forallb Nat.eqb]. rewrite R1, R2, G1, G2, B1, B2.
    reflexivity.
  - unfold char in *. rewrite components_of_digits, Pr, Pg, Pb. reflexivity.
Qed.

Lemma components_of_color color :
  is_color is_hex color = true ->
  exists r g b, components color = Some (inr (r, g, b))
                /\ 0 <= r <= 255 /\ 0 <= g <= 255 /\ 0 <= b <= 255.
Proof.
  intros H.
  destruct (is_color_inv _ _ H) as (a & b & c & d & e & f & -> & A & B & C & D & E & F).
  destruct (int16_hex_pair a b A B) as (r & Er & Hr).
  destruct (int16_hex_pair c d C D) as (g & Eg & Hg).
  destruct (int16_hex_pair e f E F) as (bl & Eb & Hb).
  exists r, g, bl. unfold char in *.
  rewrite components_of_digits, Er, Eg, Eb. now repeat split.
Qed.

(** X11: on a colour written [#rrggbb] (digits in either case),
    [lighten_color] and [darken_color] return a colour of that form, in
    lower case, whose channels are those of the argument plus 50, at most
    255, and minus 50, at least 0. *)
Theorem lighten_and_darken_a_color color :
  is_color is_hex color = true ->
  exists r g b light dark,
    components color = Some (inr (r, g, b))
    /\ lighten_color color = Some (Color light)
    /\ darken_color color = Some (Color dark)
    /\ is_color lower_hex light = true
    /\ is_color lower_hex dark = true
    /\ components light
       = Some (inr (Z.min 255 (r + 50), Z.min 255 (g + 50), Z.min 255 (b + 50)))
    /\ components dark
       = Some (inr (Z.max 0 (r - 50), Z.max 0 (g - 50), Z.max 0 (b - 50))).
Proof.
  intros H.
  destruct (components_of_color color H) as (r & g & b & E & Hr & Hg & Hb).
  destruct (format_color_components (Z.min 255 (r + 50)) (Z.min 255 (g + 50))
              (Z.min 255 (b + 50))) as [L1 L2]; try lia.
  destruct (format_color_components (Z.max 0 (r - 50)) (Z.max 0 (g - 50))
              (Z.max 0 (b - 50))) as [D1 D2]; try lia.
  exists r, g, b. eexists. eexists.
  unfold lighten_color, darken_color. rewrite E.
  split; [reflexivity|]. split; [reflexivity|]. split; [reflexivity|].
  now repeat split.
Qed.

Lemma lighten_and_darken_a_color_witness :
  exists r g b light dark,
    components (button_color (py "C")) = Some (inr (r, g, b))
    /\ lighten_color (button_color (py "C")) = Some (Color light)
    /\ darken_color (button_color (py "C")) = Some (Color dark)
    /\ is_color lower_hex light = true
    /\ is_color lower_hex dark = true
    /\ components light
       = Some (inr (Z.min 255 (r + 50), Z.min 255 (g + 50), Z.min 255 (b + 50)))
    /\ components dark
       = Some (inr (Z.max 0 (r - 50), Z.max 0 (g - 50), Z.max 0 (b - 50))).
Proof.
  apply (lighten_and_darken_a_color (button_color (py "C"))). reflexivity.
Defined.

(** X12: written and read back: a colour made of three numbers from 0 to 255
    has the form [#rrggbb] and its channels are the three numbers. *)
Theorem color_round_trip r g b :
  0 <= r <= 255 -> 0 <= g <= 255 -> 0 <= b <= 255 ->
  is_color lower_hex (format_color r g b) = true
  /\ components (format_color r g b) = Some (inr (r, g, b)).
Proof. exact (format_color_components r g b). Qed.

Lemma color_round_trip_witness :
  is_color lower_hex (format_color 0 212 255) = true
  /\ components (format_color 0 212 255) = Some (inr (0, 212, 255)).
Proof. apply (color_round_trip 0 212 255); lia. Defined.

(** Read and written back: a lower-case colour is the text of its own
    channels. *)
Lemma components_format_color color r g b :
  is_color lower_hex color = true ->
  components color = Some (inr (r, g, b)) ->
  format_color r g b = color.
Proof.
  intros H E.
  destruct (is_color_inv _ _ H) as (a1 & a2 & c1 & c2 & e1 & e2 & -> & A & B & C & D & E1 & F).
  destruct (int16_lower_pair a1 a2 A B) as (r' & Er & Fr).
  destruct (int16_lower_pair c1 c2 C D) as (g' & Eg & Fg).
  destruct (int16_lower_pair e1 e2 E1 F) as (b' & Eb & Fb).
  unfold char in *.
  rewrite components_of_digits, Er, Eg, Eb in E. injection E as <- <- <-.
  unfold format_color. now rewrite Fr, Fg, Fb.
Qed.

(** X13: the click after the hover: darkening the lightened colour gives the
    colour back, as long as no channel was cut at 255. *)
Theorem darken_undoes_lighten color r g b light :
  is_color lower_hex color = true ->
  components color = Some (inr (r, g, b)) ->
  r <= 205 -> g <= 205 -> b <= 205 ->
  lighten_color color = Some (Color light) ->
  darken_color light = Some (Color color).
Proof.
  intros H E Hr Hg Hb L.
  assert (Hx : is_color is_hex color = true).
  { destruct (is_color_inv _ _ H) as (a1 & a2 & c1 & c2 & e1 & e2 & -> & A & B & C & D & E1 & F).
    cbn [is_color length forallb Nat.eqb].
    now rewrite !lower_is_hex. }
  destruct (components_of_color color Hx) as (r' & g' & b' & E' & Br & Bg & Bb).
  rewrite E in E'. injection E' as <- <- <-.
  unfold lighten_color in L. rewrite E in L. injection L as <-.
  destruct (format_color_components (Z.min 255 (r + 50)) (Z.min 255 (g + 50))
              (Z.min 255 (b + 50))) as [_ L2]; try lia.
  unfold darken_color. rewrite L2.
  replace (Z.max 0 (Z.min 255 (r + 50) - 50)) with r by lia.
  replace (Z.max 0 (Z.min 255 (g + 50) - 50)) with g by lia.
  replace (Z.max 0 (Z.min 255 (b + 50) - 50)) with b by lia.
  now rewrite (components_format_color color r g b H E).
Qed.

Lemma darken_undoes_lighten_witness :
  darken_color (py "#7d8795") = Some (Color (button_color (py "+"))).
Proof.
  apply (darken_undoes_lighten (button_color (py "+")) 75 85 99 (py "#7d8795"));
    try reflexivity; lia.
Defined.

(** ** Whatever the argument *)

Lemma hex_value_bound c d : hex_value c = Some d -> 0 <= d <= 15.
Proof.
  unfold hex_value, is_ascii_digit.
  destruct ((48 <=? c) && (c <=? 57)) eqn:A;
    [|destruct ((97 <=? c) && (c <=? 102)) eqn:B;
      [|destruct ((65 <=? c) && (c <=? 70)) eqn:C]];
    intros [= <-]; to_prop; lia.
Qed.

Lemma scan_digits_bound s : forall acc u v rest,
  0 <= acc -> scan_digits s acc u = Some (v, rest) ->
  0 <= v /\ v + 1 <= (acc + 1) * 16 ^ Z.of_nat (length s).
Proof.
  induction s as [|c r IH]; intros acc u v rest Ha H; cbn [scan_digits] in H.
  - destruct u; [discriminate|]. injection H as <- <-. cbn. lia.
  - cbn [length]. rewrite Nat2Z.inj_succ, Z.pow_succ_r by lia.
    assert (P : 0 < 16 ^ Z.of_nat (length r)) by (apply Z.pow_pos_nonneg; lia).
    destruct (c =? 95).
    + destruct u; [discriminate|]. apply IH in H; [|lia]. nia.
    + destruct (hex_value c) as [d|] eqn:Hd.
      * apply hex_value_bound in Hd. apply IH in H; [|lia]. nia.
      * destruct u; [discriminate|]. injection H as <- <-. nia.
Qed.

Lemma skip_spaces_length s : (length (skip_spaces s) <= length s)%nat.
Proof.
  induction s as [|c r IH]; cbn [skip_spaces length]; [lia|].
  destruct (is_c_space c); cbn [length]; lia.
Qed.

Lemma split_sign_length s :
  (length (snd (split_sign s)) <= length s)%nat
  /\ (fst (split_sign s) = true -> (length (snd (split_sign s)) < length s)%nat).
Proof.
  destruct s as [|c r]; cbn [split_sign]; [split; [cbn; lia | discriminate]|].
  destruct (c =? 43); [|destruct (c =? 45)]; cbn [fst snd length];
    split; (lia || discriminate).
Qed.

Lemma skip_prefix_length s : (length (skip_prefix s) <= length s)%nat.
Proof.
  destruct s as [|z [|x r]]; cbn [skip_prefix length]; try lia.
  destruct ((z =? 48) && ((x =? 120) || (x =? 88))); cbn [length]; [|lia].
  destruct r as [|u r']; cbn [length]; [lia|].
  destruct (u =? 95); cbn [length]; lia.
Qed.

(** A number read from at most two characters. *)
Lemma int16_bound s v :
  int16 s = Some (Val (VInt v)) -> (length s <= 2)%nat -> -15 <= v <= 255.
Proof.
  unfold int16. intros H L.
  destruct (forallb (fun c => c <? 128) s); [|discriminate].
  pose proof (skip_spaces_length s) as L1.
  pose proof (split_sign_length (skip_spaces s)) as [L2 L3].
  destruct (split_sign (skip_spaces s)) as [negative s2]. cbn [fst snd] in *.
  pose proof (skip_prefix_length s2) as L4.
  destruct (skip_prefix s2) as [|c r]; [discriminate|].
  destruct (hex_value c); [|discriminate].
  destruct (scan_digits (c :: r) 0 false) as [[w rest]|] eqn:S; [|discriminate].
  destruct (skip_spaces rest); [|discriminate].
  injection H as <-.
  apply scan_digits_bound in S as [S1 S2]; [|lia].
  assert (P : 16 ^ Z.of_nat (length (c :: r)) <= 16 ^ 2)
    by (apply Z.pow_le_mono_r; lia).
  destruct negative.
  - specialize (L3 eq_refl).
    assert (Q : 16 ^ Z.of_nat (length (c :: r)) <= 16 ^ 1)
      by (apply Z.pow_le_mono_r; lia).
    lia.
  - lia.
Qed.

Lemma slice_length i j s : (length (slice i j s) <= j - i)%nat.
Proof. unfold slice. rewrite length_firstn. lia. Qed.

Lemma components_bound color r g b :
  components color = Some (inr (r, g, b)) ->
  -15 <= r <= 255 /\ -15 <= g <= 255 /\ -15 <= b <= 255.
Proof.
  unfold components. intros H.
  pose proof (slice_length 1 3 color) as L1.
  pose proof (slice_length 3 5 color) as L2.
  pose proof (slice_length 5 7 color) as L3.
  destruct (int16 (slice 1 3 color)) as [[[r'| | | |]|]|] eqn:E1; try discriminate.
  destruct (int16 (slice 3 5 color)) as [[[g'| | | |]|]|] eqn:E2; try discriminate.
  destruct (int16 (slice 5 7 color)) as [[[b'| | | |]|]|] eqn:E3; try discriminate.
  injection H as <- <- <-.
  apply int16_bound in E1; [|lia]. apply int16_bound in E2; [|lia].
  apply int16_bound in E3; [|lia]. lia.
Qed.

(** X14: whatever text they are given, [lighten_color] and [darken_color]
    return nothing but a colour of the form [#rrggbb] in lower case. *)
Theorem a_returned_color_is_well_formed color s :
  lighten_color color = Some (Color s) \/ darken_color color = Some (Color s) ->
  is_color lower_hex s = true.
Proof.
  unfold lighten_color, darken_color.
  destruct (components color) as [[e|[[r g] b]]|] eqn:E;
    try (intros [H|H]; discriminate).
  destruct (components_bound color r g b E) as (Hr & Hg & Hb).
  intros [[= <-]|[= <-]]; apply format_color_components; lia.
Qed.

Lemma a_returned_color_is_well_formed_witness :
  is_color lower_hex (py "#2341ff") = true.
Proof.
  apply (a_returned_color_is_well_formed (py "X-fF Ff") (py "#2341ff")).
  left. reflexivity.
Defined.

Lemma int16_ascii s :
  forallb (fun c => c <? 128) s = true ->
  int16 s = Some (Raise ValueError) \/ exists v, int16 s = Some (Val (VInt v)).
Proof.
  intros H. unfold int16. rewrite H.
  destruct (split_sign (skip_spaces s)) as [negative s2].
  destruct (skip_prefix s2) as [|c r]; [now left|].
  destruct (hex_value c); [|now left].
  destruct (scan_digits (c :: r) 0 false) as [[w rest]|]; [|now left].
  destruct (skip_spaces rest); [right; eexists; reflexivity | now left].
Qed.

Lemma In_slice i j (s : pystr) c : In c (slice i j s) -> In c s.
Proof.
  unfold slice. intros H.
  rewrite <- (firstn_skipn i s). apply in_or_app. right.
  rewrite <- (firstn_skipn (j - i) (skipn i s)). apply in_or_app. now left.
Qed.

Lemma slice_ascii i j s :
  forallb (fun c => c <? 128) s = true ->
  forallb (fun c => c <? 128) (slice i j s) = true.
Proof.
  intros H. rewrite forallb_forall in *. intros c Hc. apply H.
  now apply (In_slice i j).
Qed.

(** X15: a text of at most five ASCII characters, such as the short form
    [#rgb] of a colour or a name like [red], makes both functions raise
    [ValueError]. *)
Theorem short_colors_are_refused (color : pystr) :
  (length color <= 5)%nat ->
  forallb (fun c => c <? 128) color = true ->
  lighten_color color = Some (ColorError ValueError)
  /\ darken_color color = Some (ColorError ValueError).
Proof.
  intros L A.
  assert (E : components color = Some (inl ValueError)).
  { unfold components.
    assert (E3 : slice 5 7 color = []).
    { unfold slice.
      assert (S5 : skipn 5 color = []) by (apply skipn_all2; exact L).
      rewrite S5. reflexivity. }
    rewrite E3.
    destruct (int16_ascii _ (slice_ascii 1 3 color A)) as [-> | [r ->]];
      [reflexivity|].
    destruct (int16_ascii _ (slice_ascii 3 5 color A)) as [-> | [g ->]];
      reflexivity. }
  unfold lighten_color, darken_color. rewrite E. split; reflexivity.
Qed.

Lemma short_colors_are_refused_witness :
  lighten_color (py "#fff") = Some (ColorError ValueError)
  /\ darken_color (py "#fff") = Some (ColorError ValueError).
Proof.
  apply (short_colors_are_refused (py "#fff")); [cbn; lia | reflexivity].
Defined.

(* ===================================================================== *)
(** * Drawing *)
(* ===================================================================== *)

(** X16: the polygon of [draw_rounded_rect] has nine points, ends where it
    starts, and with a radius from 0 to the width and the height it
    stays within the rectangle and reaches each of its four sides. *)
Theorem rounded_rect_fills_its_box x y width height radius :
  0 <= radius -> radius <= width -> radius <= height ->
  length (points (draw_rounded_rect x y width height radius)) = 9%nat
  /\ nth_error (points (draw_rounded_rect x y width height radius)) 8
     = nth_error (points (draw_rounded_rect x y width height radius)) 0
  /\ Forall (fun p => x <= fst p <= x + width /\ y <= snd p <= y + height)
            (points (draw_rounded_rect x y width height radius))
  /\ (exists p, In p (points (draw_rounded_rect x y width height radius))
                /\ fst p = x)
  /\ (exists p, In p (points (draw_rounded_rect x y width height radius))
                /\ fst p = x + width)
  /\ (exists p, In p (points (draw_rounded_rect x y width height radius))
                /\ snd p = y)
  /\ (exists p, In p (points (draw_rounded_rect x y width height radius))
                /\ snd p = y + height).
Proof.
  intros H0 Hw Hh. cbn [draw_rounded_rect points length nth_error].
  split; [reflexivity|]. split; [reflexivity|]. split.
  - repeat constructor; cbn [fst snd]; lia.
  - repeat split.
    + exists (x, y + radius). cbn [In fst]. tauto.
    + exists (x + width, y + radius). cbn [In fst]. tauto.
    + exists (x + radius, y). cbn [In snd]. tauto.
    + exists (x + radius, y + height). cbn [In snd]. tauto.
Qed.

Lemma rounded_rect_fills_its_box_witness :
  Forall (fun p => 2 <= fst p <= 2 + 166 /\ 2 <= snd p <= 2 + 76)
         (points (draw_rounded_rect 2 2 166 76 15)).
Proof.
  apply (rounded_rect_fills_its_box 2 2 166 76 15); lia.
Defined.

(** ** The gradients *)

(** The quotient of the gradient is the [/] of the expressions. *)
Lemma true_divide_is_division a b :
  Eval.int_binop Eval.Div a b
  = Some match true_divide a b with
         | inl e => Raise e
         | inr f => Val (VFloat f)
         end.
Proof.
  unfold true_divide. destruct a, b; cbn [Eval.int_binop]; try reflexivity;
    match goal with |- context [PyFloat.is_inf ?f] => destruct (PyFloat.is_inf f) end;
    reflexivity.
Qed.

(** ** The background of the prompt *)

Lemma prompt_rows_ok : forallb prompt_row_ok (range 349) = true.
Proof. vm_compute. reflexivity. Qed.

Lemma prompt_row i :
  0 <= i < 349 ->
  exists r g b r' g' b',
    prompt_channels i = Some (r, g, b)
    /\ prompt_channels (i + 1) = Some (r', g', b')
    /\ 10 <= r <= r' /\ r' <= 24 /\ 16 <= g <= g' /\ g' <= 35
    /\ 30 <= b <= b' /\ b' <= 54.
Proof.
  intros H. pose proof prompt_rows_ok as P.
  rewrite forallb_forall in P. specialize (P i (In_range 349 i H)).
  unfold prompt_row_ok in P.
  destruct (prompt_channels i) as [[[r g] b]|]; [|discriminate].
  destruct (prompt_channels (i + 1)) as [[[r' g'] b']|]; [|discriminate].
  exists r, g, b, r', g', b'. to_prop. repeat split; lia.
Qed.

Lemma prompt_channels_bounds i :
  0 <= i < 350 ->
  exists r g b, prompt_channels i = Some (r, g, b)
                /\ 10 <= r <= 24 /\ 16 <= g <= 35 /\ 30 <= b <= 54.
Proof.
  intros H. destruct (Z.eq_dec i 349) as [->|N].
  - destruct (prompt_row 348 ltac:(lia))
      as (r & g & b & r' & g' & b' & _ & E & B).
    exists r', g', b'. change (348 + 1) with 349 in E. split; [exact E | lia].
  - destruct (prompt_row i ltac:(lia))
      as (r & g & b & r' & g' & b' & E & _ & B).
    exists r, g, b. split; [exact E | lia].
Qed.

Lemma prompt_channels_monotone n : forall i r g b r' g' b',
  0 <= i -> i + Z.of_nat n < 350 ->
  prompt_channels i = Some (r, g, b) ->
  prompt_channels (i + Z.of_nat n) = Some (r', g', b') ->
  r <= r' /\ g <= g' /\ b <= b'.
Proof.
  induction n as [|n IH]; intros i r g b r' g' b' H0 H1 E E'.
  - rewrite Z.add_0_r in E'. rewrite E in E'. injection E' as <- <- <-. lia.
  - destruct (prompt_row i ltac:(lia))
      as (r1 & g1 & b1 & r2 & g2 & b2 & E1 & E2 & B).
    rewrite E in E1. injection E1 as <- <- <-.
    replace (i + Z.of_nat (S n)) with (i + 1 + Z.of_nat n) in E' by lia.
    destruct (IH (i + 1) r2 g2 b2 r' g' b' ltac:(lia) ltac:(lia) E2 E'). lia.
Qed.

Lemma gradient_color_channels i r g b :
  prompt_channels i = Some (r, g, b) ->
  gradient_color i 350 = inr (format_color r g b).
Proof.
  unfold prompt_channels, gradient_color.
  destruct (channel 10 15 i 350); [discriminate|].
  destruct (channel 16 20 i 350); [discriminate|].
  destruct (channel 30 25 i 350); [discriminate|].
  now intros [= -> -> ->].
Qed.

(** X17: the 350 lines behind the prompt: each gets a colour of the form
    [#rrggbb], the first the colour of the window itself, and from one
    line to any line below it no channel decreases. *)
Theorem prompt_background_is_a_gradient :
  length prompt_gradient = 350%nat
  /\ gradient_color 0 350 = inr (py "#0a101e")
  /\ forall i j, 0 <= i <= j -> j < 350 ->
       exists r g b r' g' b',
         gradient_color i 350 = inr (format_color r g b)
         /\ gradient_color j 350 = inr (format_color r' g' b')
         /\ is_color lower_hex (format_color r g b) = true
         /\ 10 <= r <= r' /\ r' <= 24
         /\ 16 <= g <= g' /\ g' <= 35
         /\ 30 <= b <= b' /\ b' <= 54.
Proof.
  split; [|split].
  - unfold prompt_gradient, range. now rewrite !length_map, length_seq.
  - vm_compute. reflexivity.
  - intros i j Hij Hj.
    destruct (prompt_channels_bounds i ltac:(lia)) as (r & g & b & E & B).
    destruct (prompt_channels_bounds j ltac:(lia)) as (r' & g' & b' & E' & B').
    exists r, g, b, r', g', b'.
    rewrite (gradient_color_channels i r g b E),
      (gradient_color_channels j r' g' b' E').
    split; [reflexivity|]. split; [reflexivity|].
    split; [apply format_color_components; lia|].
    assert (M : r <= r' /\ g <= g' /\ b <= b').
    { apply (prompt_channels_monotone (Z.to_nat (j - i)) i r g b r' g' b');
        try lia; [exact E|].
      replace (i + Z.of_nat (Z.to_nat (j - i))) with j by lia. exact E'. }
    lia.
Qed.

(* ===================================================================== *)
(** * The canvas of the calculator *)
(* ===================================================================== *)

Lemma widgets_create_gradient sh cs fl g :
  widgets (create sh cs [py "gradient"] fl g) = widgets g.
Proof.
  unfold widgets, create. cbn [items]. rewrite filter_app. cbn [filter].
  replace (has_tag (py "gradient") _) with true by reflexivity.
  cbn [negb]. apply app_nil_r.
Qed.

Lemma filter_twice {A} (f : A -> bool) l : filter f (filter f l) = filter f l.
Proof.
  induction l as [|x r IH]; [reflexivity|]. cbn [filter].
  destruct (f x) eqn:E; [cbn [filter]; rewrite E; now f_equal | exact IH].
Qed.

Lemma widgets_delete g : widgets (delete (py "gradient") g) = widgets g.
Proof. unfold widgets, delete. cbn [items]. apply filter_twice. Qed.

Lemma untitled_create sh cs tg fl g :
  untitled g -> existsb (str_eqb (py "title")) tg = false ->
  untitled (create sh cs tg fl g).
Proof.
  intros U T i Hi. unfold create in Hi. cbn [items] in Hi.
  apply in_app_or in Hi as [Hi|[<-|[]]]; [now apply U | exact T].
Qed.

Lemma untitled_delete t g : untitled g -> untitled (delete t g).
Proof.
  intros U i Hi. unfold delete in Hi. cbn [items] in Hi.
  apply filter_In in Hi as [Hi _]. now apply U.
Qed.

Lemma gradient_items_tagged new :
  Forall gradient_item new ->
  forallb (has_tag (py "gradient")) new = true
  /\ forall i, In i new -> has_tag (py "title") i = false.
Proof.
  induction 1 as [|x r Hx _ [IH1 IH2]]; [split; [reflexivity | intros i []]|].
  unfold gradient_item in Hx. split.
  - cbn [forallb]. rewrite IH1. unfold has_tag. rewrite Hx. reflexivity.
  - intros i [<-|Hi]; [|now apply IH2]. unfold has_tag. rewrite Hx. reflexivity.
Qed.

(** What the loop of [draw_gradient] adds: lines of the gradient, one for
    each row when no row raises. *)
Lemma gradient_rows_adds rows width height : forall g,
  exists new,
    items (fst (gradient_rows rows width height g)) = items g ++ new
    /\ Forall gradient_item new
    /\ (length new <= length rows)%nat
    /\ (snd (gradient_rows rows width height g) = None ->
        length new = length rows)
    /\ screenwidth (fst (gradient_rows rows width height g)) = screenwidth g.
Proof.
  induction rows as [|i r IH]; intros g; cbn [gradient_rows].
  - exists []. cbn [fst snd length]. rewrite app_nil_r. now repeat split.
  - destruct (gradient_color i height) as [e|color].
    + exists []. cbn [fst snd length]. rewrite app_nil_r.
      repeat split; (lia || discriminate || constructor).
    + destruct (IH (create LineItem [0; i; width; i] [py "gradient"] color g))
        as (new & E & T & L & N & S).
      eexists (_ :: new). rewrite E. unfold create at 1. cbn [items].
      rewrite <- app_assoc. cbn [app]. split; [reflexivity|].
      split; [constructor; [reflexivity | exact T]|].
      cbn [length]. split; [lia|]. split; [intros H; now rewrite N|].
      exact S.
Qed.

Lemma draw_gradient_adds width height g :
  1 < width -> 1 < height ->
  exists new,
    items (fst (draw_gradient width height g)) = widgets g ++ new
    /\ Forall gradient_item new
    /\ (length new <= S (Z.to_nat height))%nat
    /\ (snd (draw_gradient width height g) = None ->
        length new = S (Z.to_nat height)).
Proof.
  intros Hw Hh. unfold draw_gradient.
  destruct (Z.leb_spec width 1); [lia|]. destruct (Z.leb_spec height 1); [lia|].
  cbn [orb].
  destruct (gradient_rows_adds (range height) width height
              (delete (py "gradient") g)) as (new & E & T & L & N & _).
  assert (R : length (range height) = Z.to_nat height)
    by (unfold range; now rewrite length_map, length_seq).
  rewrite R in *.
  destruct (gradient_rows (range height) width height (delete (py "gradient") g))
    as [g' [e|]]; cbn [fst snd] in *.
  - exists new. repeat split; try assumption; (lia || discriminate).
  - eexists (new ++ [_]). unfold create. cbn [items]. rewrite E, <- app_assoc.
    split; [reflexivity|]. split.
    + apply Forall_app. split; [exact T|]. constructor; [reflexivity | constructor].
    + rewrite length_app, (N eq_refl). cbn [length]. split; [lia | intros _; lia].
Qed.

Lemma widgets_app_gradient l new :
  forallb (has_tag (py "gradient")) new = true ->
  filter (fun i => negb (has_tag (py "gradient") i)) (l ++ new)
  = filter (fun i => negb (has_tag (py "gradient") i)) l.
Proof.
  intros T. rewrite filter_app.
  replace (filter _ new) with (@nil item); [apply app_nil_r|].
  induction new as [|x r IH]; [reflexivity|].
  cbn [forallb] in T. apply andb_true_iff in T as [T1 T2].
  cbn [filter]. rewrite T1. cbn [negb]. now apply IH.
Qed.

(** [draw_gradient] touches the gradient only. *)
Lemma draw_gradient_keeps width height g :
  widgets (fst (draw_gradient width height g)) = widgets g
  /\ (untitled g -> untitled (fst (draw_gradient width height g)))
  /\ screenwidth (fst (draw_gradient width height g)) = screenwidth g.
Proof.
  unfold draw_gradient.
  destruct ((width <=? 1) || (height <=? 1)); [now repeat split|].
  destruct (gradient_rows_adds (range height) width height
              (delete (py "gradient") g)) as (new & E & T & _ & _ & S).
  destruct (gradient_items_tagged new T) as [T1 T2].
  assert (W : widgets (fst (gradient_rows (range height) width height
                              (delete (py "gradient") g))) = widgets g).
  { unfold widgets at 1. rewrite E, (widgets_app_gradient _ _ T1).
    apply widgets_delete. }
  assert (U : untitled g ->
              untitled (fst (gradient_rows (range height) width height
                               (delete (py "gradient") g)))).
  { intros U i Hi. rewrite E in Hi. apply in_app_or in Hi as [Hi|Hi].
    - now apply (untitled_delete (py "gradient") g U).
    - now apply T2. }
  destruct (gradient_rows (range height) width height (delete (py "gradient") g))
    as [g' [e|]]; cbn [fst snd] in *.
  - now repeat split.
  - split; [now rewrite widgets_create_gradient|]. split; [|exact S].
    intros U0. apply untitled_create; [now apply U | reflexivity].
Qed.

Lemma untitled_find g : untitled g -> find_withtag (py "title") g = [].
Proof.
  unfold untitled, find_withtag. induction (items g) as [|x r IH]; intros U;
    [reflexivity|].
  cbn [filter]. rewrite (U x (or_introl eq_refl)).
  apply IH. intros i Hi. apply U. now right.
Qed.

(** Without an item tagged [title], [on_resize] redraws the gradient and
    then fails on the first item it looks for. *)
Lemma on_resize_untitled width height g :
  untitled g ->
  on_resize width height g
  = (fst (draw_gradient width height g),
     Some match snd (draw_gradient width height g) with
          | Some e => Arithmetic e
          | None => IndexError
          end).
Proof.
  intros U. unfold on_resize.
  destruct (draw_gradient_keeps width height g) as (_ & U' & _).
  specialize (U' U).
  destruct (draw_gradient width height g) as [g1 [e|]]; cbn [fst snd] in *;
    [reflexivity|].
  now rewrite (untitled_find g1 U').
Qed.

Lemma react_keeps g e :
  untitled g -> untitled (react g e) /\ widgets (react g e) = widgets g.
Proof.
  intros U. destruct e as [w h|w h]; cbn [react].
  - rewrite (on_resize_untitled w h g U). cbn [fst].
    destruct (draw_gradient_keeps w h g) as (W & U' & _). auto.
  - destruct (timers g) as [|n]; [now split|].
    destruct (draw_gradient_keeps w h
                {| items := items g; next_id := next_id g;
                   screenwidth := screenwidth g; timers := n |})
      as (W & U' & _).
    split; [apply U', U | exact W].
Qed.

Lemma run_keeps events : forall g,
  untitled g -> untitled (run events g) /\ widgets (run events g) = widgets g.
Proof.
  induction events as [|e r IH]; intros g U; [now split|].
  change (run (e :: r) g) with (run r (react g e)).
  destruct (react_keeps g e U) as [U' W].
  destruct (IH (react g e) U') as [U'' W']. split; [exact U''|].
  now rewrite W', W.
Qed.

Lemma widgets_create_widget sh cs tg fl g :
  existsb (str_eqb (py "gradient")) tg = false ->
  widgets (create sh cs tg fl g)
  = widgets g ++ [{| item_id := next_id g; item_shape := sh; coords := cs;
                     tags := tg; fill := fl |}].
Proof.
  intros T. unfold widgets, create. cbn [items]. rewrite filter_app.
  cbn [filter]. unfold has_tag at 2. cbn [tags]. rewrite T. reflexivity.
Qed.

(** The canvas after [__init__]: over the gradient, the title, the
    display and the keypad, none of them tagged [title]. *)
Lemma Gui_init_widgets sw width height g0 :
  Gui_init sw width height = (g0, None) ->
  untitled g0
  /\ map item_shape (widgets g0) = [TextItem; WindowItem; WindowItem]
  /\ map coords (widgets g0) = [[sw / 2; 50]; [sw / 2; 150]; [sw / 2; 450]]
  /\ map tags (widgets g0) = [[]; []; [py "buttons"]].
Proof.
  unfold Gui_init.
  destruct (draw_gradient_keeps width height
              {| items := []; next_id := 1; screenwidth := sw; timers := O |})
    as (W & U & _).
  destruct (draw_gradient width height
              {| items := []; next_id := 1; screenwidth := sw; timers := O |})
    as [g [e|]]; [discriminate|].
  cbn [fst] in *. intros [= <-].
  assert (U0 : untitled g) by (apply U; intros i []).
  split.
  - repeat (apply untitled_create; [|reflexivity]). exact U0.
  - rewrite !widgets_create_widget by reflexivity. rewrite W.
    repeat split.
Qed.

(** X18: after [__init__], whatever resizes and delayed redraws came, a resize
    never completes: it ends in an exception, in [IndexError] when the
    redraw itself raised nothing, and the title, the display and the
    keypad stay at the coordinates they were created with. *)
Theorem resize_never_repositions sw width0 height0 g0 events width height :
  Gui_init sw width0 height0 = (g0, None) ->
  map coords (widgets g0) = [[sw / 2; 50]; [sw / 2; 150]; [sw / 2; 450]]
  /\ widgets (run events g0) = widgets g0
  /\ widgets (fst (on_resize width height (run events g0))) = widgets g0
  /\ snd (on_resize width height (run events g0)) <> None
  /\ (snd (draw_gradient width height (run events g0)) = None ->
      snd (on_resize width height (run events g0)) = Some IndexError).
Proof.
  intros H. destruct (Gui_init_widgets sw width0 height0 g0 H) as (U & _ & C & _).
  destruct (run_keeps events g0 U) as [U' W].
  rewrite (on_resize_untitled width height (run events g0) U'). cbn [fst snd].
  destruct (draw_gradient_keeps width height (run events g0)) as (W' & _ & _).
  split; [exact C|]. split; [exact W|]. split; [now rewrite W', W|].
  split; [discriminate|]. now intros ->.
Qed.

Lemma resize_never_repositions_witness :
  snd (on_resize 4 4 (run [Configure 3 3; Timer 3 3] (fst (Gui_init 1920 1 1))))
  = Some IndexError.
Proof.
  destruct (resize_never_repositions 1920 1 1 (fst (Gui_init 1920 1 1))
              [Configure 3 3; Timer 3 3] 4 4 eq_refl) as (_ & _ & _ & _ & H).
  apply H. vm_compute. reflexivity.
Defined.

(** X19: a redraw on a window of more than one pixel each way leaves the items
    that are not part of the gradient first in the display list, in their
    order, and after them, drawn over them, nothing but the new gradient:
    at most one item for each row and the oval, exactly that many when no
    row raised.  Older gradients do not pile up. *)
Theorem redraw_replaces_the_gradient width height g :
  1 < width -> 1 < height ->
  exists new,
    items (fst (draw_gradient width height g)) = widgets g ++ new
    /\ forallb (has_tag (py "gradient")) new = true
    /\ (length new <= S (Z.to_nat height))%nat
    /\ (snd (draw_gradient width height g) = None ->
        length new = S (Z.to_nat height)).
Proof.
  intros Hw Hh.
  destruct (draw_gradient_adds width height g Hw Hh) as (new & E & T & L & N).
  exists new. split; [exact E|]. split; [|split; assumption].
  now apply gradient_items_tagged.
Qed.

Lemma redraw_replaces_the_gradient_witness :
  exists new,
    items (fst (draw_gradient 3 3 (fst (on_resize 5 5 (fst (Gui_init 1920 1 1))))))
    = widgets (fst (on_resize 5 5 (fst (Gui_init 1920 1 1)))) ++ new
    /\ forallb (has_tag (py "gradient")) new = true
    /\ (length new <= S (Z.to_nat 3))%nat
    /\ (snd (draw_gradient 3 3 (fst (on_resize 5 5 (fst (Gui_init 1920 1 1)))))
        = None -> length new = S (Z.to_nat 3)).
Proof.
  apply (redraw_replaces_the_gradient 3 3
           (fst (on_resize 5 5 (fst (Gui_init 1920 1 1))))); lia.
Defined.
